(** * tap-xero: the extraction-strategy engine of [tap_xero/pull.py]

    A shallow embedding of the pull strategies ([IncrementingPull],
    [PaginatedPull], [JournalPull], [LinkedTransactionsPull],
    [EverythingPull]), of the bookmark accessors of [Puller] and of the
    retry wrapper around [_make_request], followed by the properties of the
    engine that the specification states.

    Python objects that are shared and mutated in place (the pipeline state
    handed to [Puller.__init__], the default [options={}] dictionary of
    [PaginatedPull._paginate]) live in one [World] that every operation
    threads; an operation returns either a value or the exception it raised,
    together with the world as the exception left it. *)

From Stdlib Require Import ZArith List String Bool Lia.
From Stdlib Require Import Sorting.Sorted.
From stdpp Require Import base gmap strings list fin_maps sorting.

Open Scope string_scope.
Open Scope list_scope.
Open Scope Z_scope.

(** ** Library functions on timestamps

    [pull.py] uses three functions on [datetime.datetime] values that it
    imports: [datetime.isoformat], [pendulum.parse] and
    [singer.utils.strftime].  They are taken as an interface;
    [pendulum_parse] answers [None] where [pendulum.parse] raises on a
    text it cannot read. *)
Class TimeLib := {
  datetime : Type;
  isoformat : datetime -> string;
  pendulum_parse : string -> option datetime;
  strftime : datetime -> string
}.

(** An instance in which a datetime is carried as its RFC 3339 text and
    every text is readable; the concrete runs below use it. *)
Definition text_time : TimeLib :=
  {| datetime := string;
     isoformat := fun d => d;
     pendulum_parse := fun s => Some s;
     strftime := fun d => d |}.

Section Engine.
Context {TL : TimeLib}.

(** ** Data model *)

(** Values held by records, bookmarks, configuration and request options. *)
Inductive value : Type :=
| VNone
| VInt (z : Z)
| VStr (s : string)
| VDate (d : datetime).

(** Python truthiness, as used by [not x] and [x or y]. *)
Definition truthy (v : value) : bool :=
  match v with
  | VNone => false
  | VInt z => negb (z =? 0)
  | VStr s => negb (String.eqb s "")
  | VDate _ => true
  end.

(** [x or d] *)
Definition py_or (x d : value) : value :=
  if truthy x then x else d.

(** [m.get(key)]: [None] when the key is missing. *)
Definition dict_get (m : gmap string value) (key : string) : value :=
  match m !! key with
  | Some v => v
  | None => VNone
  end.

(** A top-level entry of the pipeline state: the ["bookmarks"] mapping
    (stream id to cursor fields) or any other value. *)
Inductive top : Type :=
| TDict (b : gmap string (gmap string value))
| TVal (v : value).

(** The answer of [XeroClient.filter]: a sequence of records, or an
    [HTTPError] carrying [response.status_code]. *)
Inductive Response : Type :=
| Ok (records : list (gmap string value))
| HttpErr (status_code : Z).

(** One call of [xero.filter(tap_stream_id, **options)]: the keyword
    arguments are a copy of [options] at the time of the call. *)
Record Call := {
  call_stream : string;
  call_options : gmap string value
}.

(** The remote client: the answer may depend on how many calls were made
    before and on the call itself. *)
Definition Backend : Type := nat -> Call -> Response.

Inductive exn : Type :=
| HTTPError (status_code : Z)
| RateLimitException
| KeyError (key : string)
| TypeError
| IndexError
| ParserError
| PagesException.   (* Exception("1 million pages doesn't seem realistic") *)

(** The objects the engine shares with the rest of the process. *)
Record World := {
  state : gmap string top;                 (* the dict given as [state] *)
  default_options : gmap string value;     (* the [options={}] of [_paginate] *)
  requests : list Call;                    (* calls of [xero.filter], newest first *)
  refreshes : nat;                         (* calls of [credentials.refresh] *)
  sleeps : list Z                          (* waits asked of [backoff], newest first *)
}.

Definition with_state (s : gmap string top) (w : World) : World :=
  {| state := s; default_options := default_options w;
     requests := requests w; refreshes := refreshes w; sleeps := sleeps w |}.

Definition with_default_options (o : gmap string value) (w : World) : World :=
  {| state := state w; default_options := o;
     requests := requests w; refreshes := refreshes w; sleeps := sleeps w |}.

Definition log_request (c : Call) (w : World) : World :=
  {| state := state w; default_options := default_options w;
     requests := c :: requests w; refreshes := refreshes w; sleeps := sleeps w |}.

Definition credentials_refresh (w : World) : World :=
  {| state := state w; default_options := default_options w;
     requests := requests w; refreshes := S (refreshes w); sleeps := sleeps w |}.

Definition time_sleep (seconds : Z) (w : World) : World :=
  {| state := state w; default_options := default_options w;
     requests := requests w; refreshes := refreshes w;
     sleeps := seconds :: sleeps w |}.

(** The classes of [pull.py] that implement [yield_pages]. *)
Inductive PullerClass : Type :=
| IncrementingPull
| BankTransfersPull
| PaginatedPull
| JournalPull
| LinkedTransactionsPull
| EverythingPull.

(** A [Puller] instance: the fields set by [__init__].  [self.state] is the
    shared [state] of the world. *)
Record Puller := {
  class : PullerClass;
  config : gmap string value;
  tap_stream_id : string;
  xero : Backend
}.

Definition bookmark_property (p : Puller) : string :=
  match class p with
  | BankTransfersPull => "CreatedDateUTC"
  | _ => "UpdatedDateUTC"
  end.

Definition _order_by (p : Puller) : string :=
  (bookmark_property p ++ " ASC")%string.

(** ** Operations that may raise and that update the world *)

Definition M (A : Type) : Type := World -> (exn + A) * World.

Definition ret {A} (a : A) : M A := fun w => (inr a, w).

Definition raise {A} (e : exn) : M A := fun w => (inl e, w).

Definition bind {A B} (m : M A) (k : A -> M B) : M B :=
  fun w =>
    match m w with
    | (inr a, w1) => k a w1
    | (inl e, w1) => (inl e, w1)
    end.

Notation "x <- m ;; k" := (bind m (fun x => k))
  (at level 100, m at next level, right associativity).

(** ** The remote call and its retry wrapper *)

(** [_request_with_timer]: one call of [xero.filter]; an [HTTPError] is
    re-raised.  The timer tags are not modelled. *)
Definition _request_with_timer (p : Puller) (options : gmap string value)
  : M (list (gmap string value)) :=
  fun w =>
    let c := {| call_stream := tap_stream_id p; call_options := options |} in
    match xero p (length (requests w)) c with
    | Ok resp => (inr resp, log_request c w)
    | HttpErr code => (inl (HTTPError code), log_request c w)
    end.

(** The body of [_make_request], without its decorator.  The result is
    [None] where the Python function falls off its end and returns [None]. *)
Definition _make_request_body (p : Puller) (options : gmap string value)
  : M (option (list (gmap string value))) :=
  fun w =>
    match _request_with_timer p options w with
    | (inr resp, w1) => (inr (Some resp), w1)
    | (inl (HTTPError code), w1) =>
        if code =? 401 then (inr None, credentials_refresh w1)
        else if code =? 503 then (inl RateLimitException, w1)
        else (inl (HTTPError code), w1)
    | (inl e, w1) => (inl e, w1)
    end.

(** [backoff.expo(factor=2)]: the [n]th value of the wait generator. *)
Definition expo (factor : Z) (n : nat) : Z := factor * 2 ^ Z.of_nat n.

(** [backoff.on_exception(backoff.expo, RateLimitException, max_tries,
    factor)]: call the target; on [RateLimitException] give up when the
    tries are used up, otherwise sleep for the next value of the wait
    generator (before jitter) and call again.  [left] is [max_tries] minus
    the number of calls made so far, this one included; [n] counts the waits
    taken from the generator. *)
Fixpoint on_exception {A} (factor : Z) (left n : nat) (target : M A) : M A :=
  fun w =>
    match target w with
    | (inl RateLimitException, w1) =>
        match left with
        | O => (inl RateLimitException, w1)
        | S left' =>
            on_exception factor left' (S n) target (time_sleep (expo factor n) w1)
        end
    | r => r
    end.

Definition max_tries : nat := 10.

Definition _make_request (p : Puller) (options : gmap string value)
  : M (option (list (gmap string value))) :=
  on_exception 2 (max_tries - 1) 0 (_make_request_body p options).


(** ** Bookmark accessors *)

(** The [_bookmark] property: create [state["bookmarks"]] and the entry of
    this stream when they are missing, and return the entry.  The entry is
    returned by reference in Python; here its content is returned and a
    write goes back through [store_entry].  A ["bookmarks"] value that is
    not a mapping makes the membership test or the item access raise
    [TypeError]. *)
Definition _bookmark (p : Puller) : M (gmap string value) :=
  fun w =>
    match state w !! "bookmarks" with
    | None =>
        (inr ∅,
         with_state (<["bookmarks" := TDict {[ tap_stream_id p := ∅ ]}]> (state w)) w)
    | Some (TDict bs) =>
        match bs !! tap_stream_id p with
        | None =>
            (inr ∅,
             with_state (<["bookmarks" := TDict (<[tap_stream_id p := ∅]> bs)]> (state w)) w)
        | Some b => (inr b, w)
        end
    | Some (TVal _) => (inl TypeError, w)
    end.

(** Write the entry of stream [sid] back into the state. *)
Definition store_entry (sid : string) (b : gmap string value)
    (s : gmap string top) : gmap string top :=
  match s !! "bookmarks" with
  | Some (TDict bs) => <["bookmarks" := TDict (<[sid := b]> bs)]> s
  | _ => s
  end.

(** [self._bookmark[key] = v] *)
Definition bookmark_setitem (p : Puller) (key : string) (v : value) : M unit :=
  fun w =>
    match _bookmark p w with
    | (inr b, w1) =>
        (inr tt, with_state (store_entry (tap_stream_id p) (<[key := v]> b) (state w1)) w1)
    | (inl e, w1) => (inl e, w1)
    end.

(** [self._bookmark.get(key)] *)
Definition bookmark_get (p : Puller) (key : string) : M value :=
  b <- _bookmark p ;; ret (dict_get b key).

(** [self._bookmark[key]] *)
Definition bookmark_getitem (p : Puller) (key : string) : M value :=
  b <- _bookmark p ;;
  match b !! key with
  | Some v => ret v
  | None => raise (KeyError key)
  end.

(** A datetime is written as its ISO text, any other value as it is. *)
Definition normalize (updated_at : value) : value :=
  match updated_at with
  | VDate d => VStr (isoformat d)
  | v => v
  end.

Definition _set_last_updated (p : Puller) (updated_at : value) : M unit :=
  bookmark_setitem p "updated_at" (normalize updated_at).

(** [d[key]] on a dictionary that is only read. *)
Definition getitem (d : gmap string value) (key : string) : M value :=
  match d !! key with
  | Some v => ret v
  | None => raise (KeyError key)
  end.

(** [pendulum.parse(v)]: a value that is not a text is a [TypeError]. *)
Definition parse (v : value) : exn + datetime :=
  match v with
  | VStr s =>
      match pendulum_parse s with
      | Some d => inr d
      | None => inl ParserError
      end
  | _ => inl TypeError
  end.

Definition lift {A} (r : exn + A) : M A :=
  match r with
  | inr a => ret a
  | inl e => raise e
  end.

Definition _update_start_state (p : Puller) : M datetime :=
  u <- bookmark_get p "updated_at" ;;
  _ <- (if truthy u then ret tt
        else (sd <- getitem (config p) "start_date" ;; _set_last_updated p sd)) ;;
  v <- bookmark_getitem p "updated_at" ;;
  lift (parse v).

(** ** The page generators *)

(** The dictionary that [_paginate] writes the pagination key into: the one
    its caller built and passed, or the default of the parameter, which is
    one object for all the calls that omit the argument. *)
Inductive OptionsRef : Type :=
| Passed (options : gmap string value)
| Default.

(** The frame of a suspended [_paginate]: its arguments and its two local
    counters.  A frame is kept as it stands at the top of the [while] loop:
    the two assignments after the [yield] touch only the counters and are
    done when the frame is stored. *)
Record Paginate := {
  options : OptionsRef;
  pagination_key : string;
  get_next_page_num : value -> list (gmap string value) -> exn + value;
  num_pages_yielded : Z;
  curr_page_num : value
}.

(** [lambda curr_page_num, _: curr_page_num + 1] *)
Definition next_by_increment (curr : value) (_ : list (gmap string value))
  : exn + value :=
  match curr with
  | VInt n => inr (VInt (n + 1))
  | _ => inl TypeError
  end.

(** [lambda _, page: page[-1]["JournalNumber"]] *)
Definition next_by_journal_number (_ : value) (page : list (gmap string value))
  : exn + value :=
  match last page with
  | Some r =>
      match r !! "JournalNumber" with
      | Some v => inr v
      | None => inl (KeyError "JournalNumber")
      end
  | None => inl IndexError
  end.

(** A call of [_paginate]: a frame that has not run yet. *)
Definition _paginate (opts : OptionsRef) (first_page_num : value)
    (key : string)
    (next_fn : value -> list (gmap string value) -> exn + value) : Paginate :=
  {| options := opts; pagination_key := key; get_next_page_num := next_fn;
     num_pages_yielded := 0; curr_page_num := first_page_num |}.

(** [options[pagination_key] = curr_page_num], on the dictionary that
    [options] refers to; the result is the frame and the content that the
    following request copies. *)
Definition set_pagination_key (g : Paginate) : M (Paginate * gmap string value) :=
  fun w =>
    match options g with
    | Passed o =>
        let o' := <[pagination_key g := curr_page_num g]> o in
        (inr ({| options := Passed o'; pagination_key := pagination_key g;
                 get_next_page_num := get_next_page_num g;
                 num_pages_yielded := num_pages_yielded g;
                 curr_page_num := curr_page_num g |}, o'), w)
    | Default =>
        let o' := <[pagination_key g := curr_page_num g]> (default_options w) in
        (inr (g, o'), with_default_options o' w)
    end.

(** One [next()] on a [_paginate] generator: [None] is [StopIteration],
    otherwise the yielded pair and the frame to resume from. *)
Definition _paginate_next (p : Puller) (g : Paginate)
  : M (option (list (gmap string value) * value * Paginate)) :=
  if 1000000 <? num_pages_yielded g then raise PagesException
  else
    go <- set_pagination_key g ;;
    page <- _make_request p (snd go) ;;
    match page with
    | Some (r :: rs) =>
        match get_next_page_num g (curr_page_num g) (r :: rs) with
        | inr next_page_num =>
            ret (Some (r :: rs, next_page_num,
                       {| options := options (fst go);
                          pagination_key := pagination_key g;
                          get_next_page_num := get_next_page_num g;
                          num_pages_yielded := num_pages_yielded g + 1;
                          curr_page_num := next_page_num |}))
        | inl e => raise e
        end
    | _ => ret None
    end.

(** [page[-1][key]] *)
Definition last_field (page : list (gmap string value)) (key : string) : M value :=
  match last page with
  | Some r => getitem r key
  | None => raise IndexError
  end.

(** [v >= text]: defined between two texts only. *)
Definition ge_text (v : value) (text : string) : exn + bool :=
  match v with
  | VStr s => inr (String.leb text s)
  | _ => inl TypeError
  end.

(** [[x for x in page if x["UpdatedDateUTC"] >= since]] *)
Fixpoint updated_since (since : string) (page : list (gmap string value))
  : exn + list (gmap string value) :=
  match page with
  | [] => inr []
  | x :: xs =>
      match x !! "UpdatedDateUTC" with
      | None => inl (KeyError "UpdatedDateUTC")
      | Some v =>
          match ge_text v since with
          | inl e => inl e
          | inr keep =>
              match updated_since since xs with
              | inl e => inl e
              | inr ys => inr (if keep then x :: ys else ys)
              end
          end
      end
  end.

(** The frame of a suspended [yield_pages]. *)
Inductive Frame : Type :=
| Created                                       (* before the first [next()] *)
| PaginatedLoop (start : datetime) (g : Paginate)
| JournalLoop (g : Paginate)
| LinkedLoop (start : datetime) (g : Paginate)
| AfterYield.                                   (* at a [yield] that ends the body *)

(** A yielded page; [None] is the [None] that [_make_request] may return. *)
Abbreviation Batch := (option (list (gmap string value))).

(** The [for] loop of [PaginatedPull.yield_pages], from one [next()] of the
    inner generator to the [yield] or to the end of the body. *)
Definition paginated_loop (p : Puller) (start : datetime) (g : Paginate)
  : M (option (Batch * Frame)) :=
  r <- _paginate_next p g ;;
  match r with
  | Some (page, next_num, g') =>
      _ <- bookmark_setitem p "page" next_num ;;
      v <- last_field page (bookmark_property p) ;;
      _ <- _set_last_updated p v ;;
      ret (Some (Some page, PaginatedLoop start g'))
  | None =>
      _ <- bookmark_setitem p "page" VNone ;;
      ret None
  end.

(** The [for] loop of [JournalPull.yield_pages]. *)
Definition journal_loop (p : Puller) (g : Paginate)
  : M (option (Batch * Frame)) :=
  r <- _paginate_next p g ;;
  match r with
  | Some (page, next_num, g') =>
      _ <- bookmark_setitem p "journal_number" next_num ;;
      ret (Some (Some page, JournalLoop g'))
  | None => ret None
  end.

(** The [for] loop of [LinkedTransactionsPull.yield_pages]. *)
Definition linked_loop (p : Puller) (start : datetime) (g : Paginate)
  : M (option (Batch * Frame)) :=
  r <- _paginate_next p g ;;
  match r with
  | Some (page, next_page_num, g') =>
      _ <- bookmark_setitem p "page" next_page_num ;;
      v <- last_field page (bookmark_property p) ;;
      _ <- _set_last_updated p v ;;
      kept <- lift (updated_since (strftime start) page) ;;
      ret (Some (Some kept, LinkedLoop start g'))
  | None =>
      _ <- bookmark_setitem p "page" VNone ;;
      ret None
  end.

(** [IncrementingPull.yield_pages], run from its start. *)
Definition incrementing_body (p : Puller) : M (option (Batch * Frame)) :=
  start <- _update_start_state p ;;
  page <- _make_request p {[ "since" := VDate start ]} ;;
  match page with
  | Some (r :: rs) =>
      v <- last_field (r :: rs) (bookmark_property p) ;;
      _ <- _set_last_updated p v ;;
      ret (Some (Some (r :: rs), AfterYield))
  | _ => ret None
  end.

(** Calling [yield_pages] builds a generator and runs nothing. *)
Definition yield_pages (p : Puller) : Frame := Created.

(** One [next()] on a [yield_pages] generator: [None] is [StopIteration],
    otherwise the yielded page and the frame to resume from. *)
Definition yield_pages_next (p : Puller) (f : Frame) : M (option (Batch * Frame)) :=
  match f with
  | Created =>
      match class p with
      | IncrementingPull | BankTransfersPull => incrementing_body p
      | PaginatedPull =>
          start <- _update_start_state p ;;
          page <- bookmark_get p "page" ;;
          paginated_loop p start
            (_paginate
               (Passed (<["order" := VStr (_order_by p)]> {[ "since" := VDate start ]}))
               (py_or page (VInt 1)) "page" next_by_increment)
      | JournalPull =>
          number <- bookmark_get p "journal_number" ;;
          journal_loop p
            (_paginate Default (py_or number (VInt 0)) "offset" next_by_journal_number)
      | LinkedTransactionsPull =>
          start <- _update_start_state p ;;
          page <- bookmark_get p "page" ;;
          linked_loop p start
            (_paginate Default (py_or page (VInt 1)) "page" next_by_increment)
      | EverythingPull =>
          page <- _make_request p ∅ ;;
          ret (Some (page, AfterYield))
      end
  | PaginatedLoop start g => paginated_loop p start g
  | JournalLoop g => journal_loop p g
  | LinkedLoop start g => linked_loop p start g
  | AfterYield => ret None
  end.

(** ** The consumer *)

(** How a run of the [for] loop over [yield_pages()] ends. *)
Inductive Outcome : Type :=
| Exhausted                 (* the generator returned *)
| Failed (e : exn)          (* the generator raised *)
| Pending (f : Frame).      (* the consumer stopped asking *)

(** Ask the generator for at most [fuel] pages.  The trace lists every
    yielded page with the world as the consumer sees it at that yield. *)
Fixpoint consume (fuel : nat) (p : Puller) (f : Frame) (w : World)
  : list (Batch * World) * Outcome * World :=
  match fuel with
  | O => ([], Pending f, w)
  | S fuel' =>
      match yield_pages_next p f w with
      | (inr (Some (page, f')), w1) =>
          let '(trace, out, w2) := consume fuel' p f' w1 in
          ((page, w1) :: trace, out, w2)
      | (inr None, w1) => ([], Exhausted, w1)
      | (inl e, w1) => ([], Failed e, w1)
      end
  end.

(** ** Reading the bookmarks of a state *)

(** The entry of stream [sid], when the state has one. *)
Definition stream_entry (s : gmap string top) (sid : string)
  : option (gmap string value) :=
  match s !! "bookmarks" with
  | Some (TDict bs) => bs !! sid
  | _ => None
  end.

(** The cursor field [key] of stream [sid], when the state has one. *)
Definition cursor (s : gmap string top) (sid key : string) : option value :=
  match stream_entry s sid with
  | Some b => b !! key
  | None => None
  end.

End Engine.

(** ** Vocabulary of the properties *)

Section Vocabulary.
Context {TL : TimeLib}.

(** The call that [_make_request p options] sends. *)
Definition the_call (p : Puller) (options : gmap string value) : Call :=
  {| call_stream := tap_stream_id p; call_options := options |}.

(** The answer the backend of [p] gave to the newest call in the log. *)
Definition answer (p : Puller) (w : World) : option Response :=
  match requests w with
  | c :: earlier => Some (xero p (length earlier) c)
  | [] => None
  end.

(** What [_make_request_body] makes of an answer. *)
Definition result_of (r : Response) : exn + option (list (gmap string value)) :=
  match r with
  | Ok resp => inr (Some resp)
  | HttpErr code =>
      if code =? 401 then inr None
      else if code =? 503 then inl RateLimitException
      else inl (HTTPError code)
  end.

(** The backend of [p] answers 503 to the next [k] calls with [options]. *)
Definition rate_limited (p : Puller) (options : gmap string value)
    (w : World) (k : nat) : Prop :=
  forall i, (i < k)%nat ->
    xero p (length (requests w) + i)%nat (the_call p options) = HttpErr 503.

(** The waits [backoff] asks for on its waits number [n], ..., [n + k - 1],
    newest first. *)
Definition waits (n k : nat) : list Z := rev (map (expo 2) (seq n k)).

(** [s'] differs from [s] at most in the entry of stream [sid] under
    ["bookmarks"]. *)
Definition frame (sid : string) (s s' : gmap string top) : Prop :=
  (forall k, k <> "bookmarks" -> s' !! k = s !! k) /\
  (forall x, x <> sid -> stream_entry s' x = stream_entry s x).

(** ["bookmarks"] is missing from the state or is a mapping. *)
Definition mapping_ok (s : gmap string top) : Prop :=
  match s !! "bookmarks" with
  | Some (TVal _) => False
  | _ => True
  end.

(** Everything but the pipeline state is the same in [w'] as in [w]. *)
Definition same_rest (w w' : World) : Prop :=
  default_options w' = default_options w /\ requests w' = requests w /\
  refreshes w' = refreshes w /\ sleeps w' = sleeps w.

(** [m] relates every world to the one it leaves, whatever it returns. *)
Definition preserves {A} (R : World -> World -> Prop) (m : M A) : Prop :=
  forall w, R w (snd (m w)).

(** [w'] has the state of [w] up to the entry of stream [sid], and in that
    entry the cursors outside [keys] read as in [w]. *)
Definition touches (sid : string) (keys : list string) (w w' : World) : Prop :=
  frame sid (state w) (state w') /\
  forall k, k ∉ keys -> cursor (state w') sid k = cursor (state w) sid k.

(** The cursor that [_update_start_state] leaves in [updated_at]: the one
    found when it is truthy, the configured start date otherwise. *)
Definition seeded (old : option value) (start_date : value) : value :=
  match old with
  | Some v => if truthy v then v else normalize start_date
  | None => normalize start_date
  end.

(** The options that the next request of the frame [g] carries. *)
Definition sent_options (g : Paginate) (w : World) : gmap string value :=
  <[pagination_key g := curr_page_num g]>
    (match options g with
     | Passed o => o
     | Default => default_options w
     end).

(** The frame that [_paginate] resumes from after it has yielded [page]
    with [next_page_num]. *)
Definition resumed (g : Paginate) (w : World) (next_page_num : value) : Paginate :=
  {| options := match options g with
                | Passed _ => Passed (sent_options g w)
                | Default => Default
                end;
     pagination_key := pagination_key g;
     get_next_page_num := get_next_page_num g;
     num_pages_yielded := num_pages_yielded g + 1;
     curr_page_num := next_page_num |}.

(** From [w] to [w'] the frame [g] has fetched [page] and computed
    [next_page_num] from it: the newest call in the log carries the
    pagination key at the current page number and was answered [page]. *)
Definition fetched (p : Puller) (g : Paginate) (w w' : World)
    (page : list (gmap string value)) (next_page_num : value) : Prop :=
  num_pages_yielded g <= 1000000 /\
  page <> [] /\
  get_next_page_num g (curr_page_num g) page = inr next_page_num /\
  answer p w' = Some (Ok page) /\
  exists k, (k <= 9)%nat /\
    requests w' = repeat (the_call p (sent_options g w)) (S k) ++ requests w.

(** In [w'] the [page] cursor of the stream is [next_page_num] and its
    [updated_at] cursor is the bookmark property of the last record of
    [page], a datetime as its ISO text. *)
Definition advanced (p : Puller) (w' : World)
    (page : list (gmap string value)) (next_page_num : value) : Prop :=
  cursor (state w') (tap_stream_id p) "page" = Some next_page_num /\
  exists r v,
    last page = Some r /\ r !! bookmark_property p = Some v /\
    cursor (state w') (tap_stream_id p) "updated_at" = Some (normalize v).

(** [bookmark.get(key)] on the state of [w], without creating anything. *)
Definition cursor_get (p : Puller) (w : World) (key : string) : value :=
  match cursor (state w) (tap_stream_id p) key with
  | Some v => v
  | None => VNone
  end.

(** The options that [PaginatedPull.yield_pages] builds and passes. *)
Definition paginated_options (p : Puller) (start : datetime) : gmap string value :=
  <["order" := VStr (_order_by p)]> {[ "since" := VDate start ]}.

(** The frames that a [PaginatedPull] generator goes through. *)
Definition paginated_frame (f : Frame) : Prop :=
  match f with
  | Created => True
  | PaginatedLoop _ g =>
      pagination_key g = "page" /\
      get_next_page_num g = next_by_increment /\
      exists o, options g = Passed o
  | _ => False
  end.

(** The frames that a [JournalPull] generator goes through. *)
Definition journal_frame (f : Frame) : Prop :=
  match f with
  | Created => True
  | JournalLoop g =>
      pagination_key g = "offset" /\
      get_next_page_num g = next_by_journal_number /\
      options g = Default
  | _ => False
  end.

(** The frames that a [LinkedTransactionsPull] generator goes through. *)
Definition linked_frame (f : Frame) : Prop :=
  match f with
  | Created => True
  | LinkedLoop _ g =>
      pagination_key g = "page" /\
      get_next_page_num g = next_by_increment /\
      options g = Default
  | _ => False
  end.

(** The worlds that the consumer sees in a run: at every yield, and at the
    end. *)
Definition seen (r : list (option (list (gmap string value)) * World)
                       * Outcome * World) : list World :=
  map snd (fst (fst r)) ++ [snd r].

(** The record [x] carries a text in ["UpdatedDateUTC"] that is not before
    the text [since], in the order of Python on texts. *)
Definition not_older (since : string) (x : gmap string value) : bool :=
  match x !! "UpdatedDateUTC" with
  | Some (VStr t) => String.leb since t
  | _ => false
  end.

(** Every key of the default options of [w] is still a key in [w']. *)
Definition keeps_keys (w w' : World) : Prop :=
  forall k, is_Some (default_options w !! k) -> is_Some (default_options w' !! k).

(** The pages that the generator of a frame has yielded so far. *)
Definition yielded_so_far (f : Frame) : Z :=
  match f with
  | Created => 0
  | PaginatedLoop _ g | JournalLoop g | LinkedLoop _ g => num_pages_yielded g
  | AfterYield => 1
  end.

(** The frames of the generators that keep an [updated_at] cursor. *)
Definition tracking_frame (p : Puller) (f : Frame) : Prop :=
  match class p with
  | IncrementingPull | BankTransfersPull => f = Created \/ f = AfterYield
  | PaginatedPull => paginated_frame f
  | LinkedTransactionsPull => linked_frame f
  | JournalPull | EverythingPull => False
  end.

(** The page that answered the newest call in the log. *)
Definition fetched_page (p : Puller) (w : World) : list (gmap string value) :=
  match answer p w with
  | Some (Ok page) => page
  | _ => []
  end.

(** The bookmark property of the records of a page, as it would be written
    into [updated_at]. *)
Definition stamps (p : Puller) (page : list (gmap string value)) : list value :=
  omap (fun r => normalize <$> r !! bookmark_property p) page.

(** The [updated_at] cursor at each yield of a run. *)
Definition written (p : Puller)
    (trace : list (option (list (gmap string value)) * World)) : list value :=
  omap (fun bw => cursor (state (snd bw)) (tap_stream_id p) "updated_at") trace.

(** The stamps of all the pages fetched for the yields of a run, in the
    order of the run. *)
Definition fetched_stamps (p : Puller)
    (trace : list (option (list (gmap string value)) * World)) : list value :=
  concat (map (fun bw => stamps p (fetched_page p (snd bw))) trace).

(** At this yield [updated_at] is the bookmark property of the last record
    of the page fetched for it. *)
Definition follows_last_record (p : Puller)
    (bw : option (list (gmap string value)) * World) : Prop :=
  exists r v,
    last (fetched_page p (snd bw)) = Some r /\
    r !! bookmark_property p = Some v /\
    cursor (state (snd bw)) (tap_stream_id p) "updated_at" = Some (normalize v).

(** The yielded batch is the page fetched for it, or, for
    [LinkedTransactionsPull], that page without its older records. *)
Definition yields_fetched (p : Puller)
    (bw : option (list (gmap string value)) * World) : Prop :=
  match class p with
  | LinkedTransactionsPull =>
      exists since,
        fst bw = Some (List.filter (not_older since) (fetched_page p (snd bw)))
  | _ => fst bw = Some (fetched_page p (snd bw))
  end.

(** Two worlds with the same pipeline state and as many calls made. *)
Definition alike (w1 w2 : World) : Prop :=
  state w1 = state w2 /\ length (requests w1) = length (requests w2).

(** From alike worlds the two operations end in alike worlds, with results
    related by [R]. *)
Definition agree {A B} (R : exn + A -> exn + B -> Prop) (m1 : M A) (m2 : M B)
  : Prop :=
  forall w1 w2, alike w1 w2 ->
    alike (snd (m1 w1)) (snd (m2 w2)) /\ R (fst (m1 w1)) (fst (m2 w2)).

(** Both raise the same exception, or both return, values related by [R]. *)
Definition both {A B} (R : A -> B -> Prop) (r1 : exn + A) (r2 : exn + B) : Prop :=
  match r1, r2 with
  | inr a, inr b => R a b
  | inl e1, inl e2 => e1 = e2
  | _, _ => False
  end.

(** Two frames of [_paginate] at the same page and count, with the same
    rule for the next page. *)
Definition same_position (g1 g2 : Paginate) : Prop :=
  num_pages_yielded g1 = num_pages_yielded g2 /\
  curr_page_num g1 = curr_page_num g2 /\
  get_next_page_num g1 = get_next_page_num g2.

(** The results of two [next()] of [_paginate] at the same position. *)
Definition same_fetch
    (a1 a2 : option (list (gmap string value) * value * Paginate)) : Prop :=
  match a1, a2 with
  | Some (page1, next1, g1), Some (page2, next2, g2) =>
      page1 = page2 /\ next1 = next2 /\ same_position g1 g2
  | None, None => True
  | _, _ => False
  end.

(** A frame of [LinkedTransactionsPull] and a frame of [PaginatedPull] at
    the same point of their runs. *)
Definition in_step (f1 f2 : Frame) : Prop :=
  match f1, f2 with
  | Created, Created => True
  | LinkedLoop _ g1, PaginatedLoop _ g2 => same_position g1 g2
  | _, _ => False
  end.

(** The result [r1] of a step of [LinkedTransactionsPull] next to the
    result [r2] of the step of [PaginatedPull]: the same end, the same
    exception, or the page of [r2] filtered, unless the filter raised. *)
Definition filtered_step
    (r1 r2 : exn + option (option (list (gmap string value)) * Frame)) : Prop :=
  match r2 with
  | inl e => r1 = inl e
  | inr None => r1 = inr None
  | inr (Some (b2, f2)) =>
      (exists e, r1 = inl e) \/
      exists page since f1,
        b2 = Some page /\
        r1 = inr (Some (Some (List.filter (not_older since) page), f1)) /\
        in_step f1 f2
  end.

(** A world in which nothing has happened yet. *)
Definition fresh (s : gmap string top) : World :=
  {| state := s; default_options := ∅; requests := []; refreshes := 0; sleeps := [] |}.

(** The exceptions that come out of a fetch: an HTTP error, the rate limit
    after the last try, and the bound on the pages. *)
Definition fetch_error (e : exn) : Prop :=
  match e with
  | HTTPError _ | RateLimitException | PagesException => True
  | _ => False
  end.

(** The [_paginate] generator that a suspended [yield_pages] holds. *)
Definition paginating (f : Frame) : option Paginate :=
  match f with
  | PaginatedLoop _ g | JournalLoop g | LinkedLoop _ g => Some g
  | Created | AfterYield => None
  end.


(** What the consumer gets from a [next()]: the batch, the end of the
    generator or the exception, without the frame that stays inside the
    generator. *)
Definition handed (r : exn + option (option (list (gmap string value)) * Frame))
  : exn + option (option (list (gmap string value))) :=
  match r with
  | inl e => inl e
  | inr None => inr None
  | inr (Some (b, _)) => inr (Some b)
  end.

(** The log that a sweep leaves, newest first: the call [c n] for the first
    page, sent once more for each of its [k] rate limits, then [c (n + 1)],
    and so on over [tries]. *)
Fixpoint sweep_log (c : Z -> Call) (n : Z) (tries : list nat) : list Call :=
  match tries with
  | [] => []
  | k :: rest => sweep_log c (n + 1) rest ++ repeat (c n) (S k)
  end.

(** No cursor of stream [sid] that [w] has is missing from [w']. *)
Definition keeps_cursors (sid : string) (w w' : World) : Prop :=
  forall k, is_Some (cursor (state w) sid k) -> is_Some (cursor (state w') sid k).

(** The sum of the waits in a list of sleeps. *)
Definition total_wait (waited : list Z) : Z := fold_right Z.add 0 waited.

End Vocabulary.

(** ** Concrete runs *)

Module Run.
#[local] Existing Instance text_time.

Definition stamped (t : string) (n : Z) : gmap string value :=
  <["UpdatedDateUTC" := VStr t]> {[ "JournalNumber" := VInt n ]}.

Definition page_a : list (gmap string value) :=
  [stamped "2019-12-31T08:00:00.000000Z" 42; stamped "2020-01-02T09:30:00.000000Z" 57].

Definition page_b : list (gmap string value) :=
  [stamped "2020-01-03T10:00:00.000000Z" 60].

(** Answers by call number; every later call finds nothing. *)
Definition script (answers : list Response) : Backend :=
  fun n _ => nth n answers (Ok []).

Definition cfg : gmap string value :=
  {[ "start_date" := VStr "2020-01-01T00:00:00.000000Z" ]}.

Definition puller (c : PullerClass) (answers : list Response) : Puller :=
  {| class := c; config := cfg; tap_stream_id := "invoices";
     xero := script answers |}.

(** The world at the start of a process, with the given pipeline state. *)
Definition world (s : gmap string top) : World := fresh s.

(** A pipeline state with the given entry for the stream of [puller]. *)
Definition bookmarked (entry : gmap string value) : gmap string top :=
  {[ "bookmarks" := TDict {[ "invoices" := entry ]} ]}.

(** The start date of [cfg], parsed. *)
Definition start : datetime := "2020-01-01T00:00:00.000000Z".

(** A page, then nothing more. *)
Definition one_page : list Response := [Ok page_a; Ok []].

(** The answers to a run that starts after two calls of an earlier run. *)
Definition second_run : list Response := [Ok []; Ok []; Ok page_b; Ok []].

(** A backend whose pages never run out. *)
Definition endless : Backend := fun _ _ => Ok page_b.

(** Two pages, then nothing more. *)
Definition two_pages : list Response := [Ok page_a; Ok page_b; Ok []].

(** The order of Python on texts, on the values that are texts. *)
Definition text_le (a b : value) : Prop :=
  match a, b with
  | VStr s, VStr t => String.leb s t = true
  | _, _ => False
  end.

(** Unauthorized once, then a page. *)
Definition unauthorized_then_page : list Response := [HttpErr 401; Ok page_a].

(** Rate limited three times, then a page. *)
Definition limited_thrice : list Response :=
  [HttpErr 503; HttpErr 503; HttpErr 503; Ok page_a].

(** A backend that is rate limited for ever. *)
Definition always_limited : Backend := fun _ _ => HttpErr 503.

(** A server error, then a page. *)
Definition server_error : list Response := [HttpErr 500; Ok page_a].

(** A record without a timestamp and without a journal number. *)
Definition bare : gmap string value := {[ "InvoiceID" := VStr "a1" ]}.

(** A page whose last record is [bare]. *)
Definition page_bare : list (gmap string value) :=
  [stamped "2020-01-02T09:30:00.000000Z" 57; bare].




(** A puller whose configuration has no start date. *)
Definition unconfigured (c : PullerClass) : Puller :=
  {| class := c; config := ∅; tap_stream_id := "invoices"; xero := script [] |}.

(** The timestamp of the last record of [page_a], parsed. *)
Definition last_stamp_a : datetime := "2020-01-02T09:30:00.000000Z".

End Run.

(** Closed statements are read in the instance of the concrete runs. *)
#[export] Existing Instance text_time | 100.

(** ** Properties *)

Section Request.
Context {TL : TimeLib}.

Lemma bind_inr {A B} (m : M A) (k : A -> M B) w b w' :
  bind m k w = (inr b, w') ->
  exists a w1, m w = (inr a, w1) /\ k a w1 = (inr b, w').
Proof.
  unfold bind. destruct (m w) as [[e|a] w1]; intros H; [discriminate|].
  eauto.
Qed.

Lemma bind_inl {A B} (m : M A) (k : A -> M B) w e w' :
  bind m k w = (inl e, w') ->
  m w = (inl e, w') \/ exists a w1, m w = (inr a, w1) /\ k a w1 = (inl e, w').
Proof.
  unfold bind. destruct (m w) as [[e1|a] w1]; intros H.
  - left. injection H as -> ->. reflexivity.
  - right. exists a, w1. split; [reflexivity | exact H].
Qed.

(** *** The remote call *)

Lemma request_with_timer_eq p o w :
  _request_with_timer p o w =
    (match xero p (length (requests w)) (the_call p o) with
     | Ok resp => inr resp
     | HttpErr code => inl (HTTPError code)
     end, log_request (the_call p o) w).
Proof.
  unfold _request_with_timer, the_call.
  destruct (xero p _ _); reflexivity.
Qed.

(** The world after one attempt that was answered [r]. *)
Lemma make_request_body_eq p o w :
  _make_request_body p o w =
    (result_of (xero p (length (requests w)) (the_call p o)),
     match xero p (length (requests w)) (the_call p o) with
     | HttpErr code =>
         if code =? 401 then credentials_refresh (log_request (the_call p o) w)
         else log_request (the_call p o) w
     | Ok _ => log_request (the_call p o) w
     end).
Proof.
  unfold _make_request_body. rewrite request_with_timer_eq.
  destruct (xero p _ _) as [resp|code]; simpl; [reflexivity|].
  destruct (code =? 401); [reflexivity|].
  destruct (code =? 503); reflexivity.
Qed.

Lemma make_request_body_spec p o w r1 w1 :
  _make_request_body p o w = (r1, w1) ->
  state w1 = state w /\ default_options w1 = default_options w /\
  requests w1 = the_call p o :: requests w /\ sleeps w1 = sleeps w /\
  answer p w1 = Some (xero p (length (requests w)) (the_call p o)) /\
  r1 = result_of (xero p (length (requests w)) (the_call p o)) /\
  refreshes w1 = match r1 with
                 | inr None => S (refreshes w)
                 | _ => refreshes w
                 end.
Proof.
  rewrite make_request_body_eq. intros H. injection H as <- <-.
  destruct (xero p _ _) as [recs|code] eqn:E; simpl.
  - unfold answer. simpl. rewrite E. auto 10.
  - destruct (code =? 401) eqn:E1; simpl;
      [|destruct (code =? 503) eqn:E2; simpl];
      unfold answer; simpl; rewrite E; auto 10.
Qed.

(** The retry loop, whatever the backend answers: the shared dictionaries are
    left alone, the log grows by the attempts made, all with the same
    options, and the result is what the body makes of the last answer. *)
Lemma on_exception_spec p o left n w r w' :
  on_exception 2 left n (_make_request_body p o) w = (r, w') ->
  state w' = state w /\ default_options w' = default_options w /\
  exists k resp, (k <= left)%nat /\
    requests w' = repeat (the_call p o) (S k) ++ requests w /\
    sleeps w' = waits n k ++ sleeps w /\
    answer p w' = Some resp /\ r = result_of resp /\
    refreshes w' = match r with
                   | inr None => S (refreshes w)
                   | _ => refreshes w
                   end.
Proof.
  revert n w. induction left as [|left IH]; intros n w; simpl;
    destruct (_make_request_body p o w) as [r1 w1] eqn:E;
    apply make_request_body_spec in E;
    destruct E as (Hs & Hd & Hreq & Hsl & Ha & Hr & Hrf).
  - intros H.
    assert (r = r1 /\ w' = w1) as [-> ->]
      by (destruct r1 as [[]|]; injection H as <- <-; auto).
    repeat split; auto.
    exists 0%nat, (xero p (length (requests w)) (the_call p o)).
    repeat split; auto.
  - assert (Hstop : (r1, w1) = (r, w') -> state w' = state w /\
        default_options w' = default_options w /\
        exists k resp, (k <= S left)%nat /\
          requests w' = repeat (the_call p o) (S k) ++ requests w /\
          sleeps w' = waits n k ++ sleeps w /\
          answer p w' = Some resp /\ r = result_of resp /\
          refreshes w' = match r with
                         | inr None => S (refreshes w)
                         | _ => refreshes w
                         end).
    { intros H. injection H as <- <-. repeat split; auto.
      exists 0%nat, (xero p (length (requests w)) (the_call p o)).
      repeat split; auto with lia. }
    destruct r1 as [e|page]; [|exact Hstop].
    destruct e; try exact Hstop.
    intros H. apply IH in H.
    destruct H as (Hs' & Hd' & k & resp' & Hk & Hreq' & Hsl' & Ha' & Hr' & Hrf').
    simpl in *. repeat split; try congruence.
    exists (S k), resp'. repeat split; auto with lia.
    + rewrite Hreq', Hreq.
      change (the_call p o :: requests w) with ([the_call p o] ++ requests w).
      rewrite app_assoc. f_equal.
      rewrite <- repeat_cons. reflexivity.
    + rewrite Hsl', Hsl. unfold waits. simpl.
      rewrite <- app_assoc. reflexivity.
    + rewrite Hrf', Hrf. reflexivity.
Qed.

Lemma result_of_503 : result_of (HttpErr 503) = inl RateLimitException.
Proof. reflexivity. Qed.

Lemma rate_limited_next p o w k x :
  rate_limited p o w (S k) ->
  rate_limited p o (time_sleep x (log_request (the_call p o) w)) k.
Proof.
  intros H i Hi. simpl. specialize (H (S i)).
  rewrite <- Nat.add_succ_r. apply H. lia.
Qed.

(** [k] rate-limit answers, then an answer of another kind, with enough
    tries left: the loop makes [k + 1] calls, sleeps [k] times and ends with
    what the body makes of the last answer. *)
Lemma on_exception_limited_then p o k :
  forall left n w resp,
    (k <= left)%nat ->
    rate_limited p o w k ->
    xero p (length (requests w) + k)%nat (the_call p o) = resp ->
    result_of resp <> inl RateLimitException ->
    exists w',
      on_exception 2 left n (_make_request_body p o) w = (result_of resp, w') /\
      requests w' = repeat (the_call p o) (S k) ++ requests w /\
      sleeps w' = waits n k ++ sleeps w.
Proof.
  induction k as [|k IH]; intros left n w resp Hk Hlim Hresp Hne.
  - rewrite Nat.add_0_r in Hresp.
    destruct (_make_request_body p o w) as [r1 w1] eqn:E.
    pose proof (make_request_body_spec _ _ _ _ _ E)
      as (_ & _ & Hreq & Hsl & _ & Hr & _).
    rewrite Hresp in Hr. subst r1.
    exists w1. split; [|split; [exact Hreq | exact Hsl]].
    destruct left; simpl; rewrite E;
      destruct (result_of resp) as [[]|]; try reflexivity; congruence.
  - destruct left as [|left]; [lia|].
    simpl. rewrite make_request_body_eq.
    pose proof (Hlim 0%nat ltac:(lia)) as H0. rewrite Nat.add_0_r in H0.
    rewrite H0, result_of_503. simpl.
    destruct (IH left (S n)
                (time_sleep (expo 2 n) (log_request (the_call p o) w)) resp)
      as (w' & Hrun & Hreq & Hsl).
    + lia.
    + apply rate_limited_next. exact Hlim.
    + simpl. rewrite <- Hresp. f_equal. lia.
    + exact Hne.
    + exists w'. split; [exact Hrun|]. split.
      * rewrite Hreq. simpl. f_equal.
        change (the_call p o :: requests w) with ([the_call p o] ++ requests w).
        rewrite app_assoc, <- repeat_cons. reflexivity.
      * rewrite Hsl. unfold waits. simpl. rewrite <- app_assoc. reflexivity.
Qed.

(** Rate-limit answers to every try: the loop gives up after its last try
    and the [RateLimitException] reaches the caller. *)
Lemma on_exception_exhausted p o :
  forall left n w,
    rate_limited p o w (S left) ->
    exists w',
      on_exception 2 left n (_make_request_body p o) w
        = (inl RateLimitException, w') /\
      requests w' = repeat (the_call p o) (S left) ++ requests w /\
      sleeps w' = waits n left ++ sleeps w.
Proof.
  induction left as [|left IH]; intros n w Hlim; simpl;
    rewrite make_request_body_eq;
    pose proof (Hlim 0%nat ltac:(lia)) as H0; rewrite Nat.add_0_r in H0;
    rewrite H0; rewrite result_of_503; simpl.
  - eexists. split; [reflexivity|]. split; reflexivity.
  - destruct (IH (S n) (time_sleep (expo 2 n) (log_request (the_call p o) w)))
      as (w' & Hrun & Hreq & Hsl).
    + apply rate_limited_next. exact Hlim.
    + exists w'. split; [exact Hrun|]. split.
      * rewrite Hreq. simpl. f_equal.
        change (the_call p o :: requests w) with ([the_call p o] ++ requests w).
        rewrite app_assoc, <- repeat_cons. reflexivity.
      * rewrite Hsl. unfold waits. simpl. rewrite <- app_assoc. reflexivity.
Qed.

(** C1.  A first answer 401 ends [_make_request] at once: it calls
    [credentials.refresh], sends nothing more and returns [None], whatever
    the backend would have answered to a second attempt.  The 401 is not
    raised again and the retry wrapper, which retries [RateLimitException]
    only, is not entered. *)
Theorem unauthorized_returns_none_without_retry p o w :
  xero p (length (requests w)) (the_call p o) = HttpErr 401 ->
  _make_request p o w
    = (inr None, credentials_refresh (log_request (the_call p o) w)).
Proof.
  intros H. unfold _make_request. simpl.
  rewrite make_request_body_eq, H. reflexivity.
Qed.

(** C4.  A 503 answer makes the body of [_make_request] raise
    [RateLimitException]; the wrapper calls again after a wait of
    [2 * 2 ^ i] seconds before its retry number [i]; with at most nine
    rate-limit answers before another answer the result of that answer is
    returned, after as many waits; with ten rate-limit answers the
    tenth [RateLimitException] is raised to the caller after nine waits. *)
Theorem rate_limit_is_retried_with_backoff p o w :
  (xero p (length (requests w)) (the_call p o) = HttpErr 503 ->
   fst (_make_request_body p o w) = inl RateLimitException) /\
  (forall k page,
     (k < 10)%nat ->
     rate_limited p o w k ->
     xero p (length (requests w) + k)%nat (the_call p o) = Ok page ->
     exists w',
       _make_request p o w = (inr (Some page), w') /\
       requests w' = repeat (the_call p o) (S k) ++ requests w /\
       sleeps w' = rev (map (fun i => 2 * 2 ^ Z.of_nat i) (seq 0 k)) ++ sleeps w) /\
  (rate_limited p o w 10 ->
   exists w',
     _make_request p o w = (inl RateLimitException, w') /\
     requests w' = repeat (the_call p o) 10 ++ requests w /\
     sleeps w' = rev (map (fun i => 2 * 2 ^ Z.of_nat i) (seq 0 9)) ++ sleeps w).
Proof.
  split; [|split].
  - intros H. rewrite make_request_body_eq, H. reflexivity.
  - intros k page Hk Hlim Hpage.
    assert (Hleft : (k <= max_tries - 1)%nat) by (unfold max_tries; lia).
    assert (Hne : result_of (Ok page) <> inl RateLimitException)
      by (simpl; discriminate).
    destruct (on_exception_limited_then p o k (max_tries - 1) 0 w (Ok page)
                Hleft Hlim Hpage Hne) as (w' & Hrun & Hreq & Hsl).
    exists w'. auto.
  - intros Hlim.
    destruct (on_exception_exhausted p o (max_tries - 1) 0 w Hlim)
      as (w' & Hrun & Hreq & Hsl).
    exists w'. auto.
Qed.

End Request.

(** Split a hypothesis on a sequence of operations that returned. *)
Ltac binds H :=
  repeat
    (let a := fresh "a" in
     let w := fresh "w" in
     let E := fresh "E" in
     apply bind_inr in H; destruct H as (a & w & E & H)).

(** A key is in a list of keys that names it. *)
Ltac among := rewrite list_elem_of_In; simpl; tauto.

(** A key is not in a list of other keys. *)
Ltac not_among :=
  rewrite list_elem_of_In; simpl; intuition discriminate.

(** *** Bookmark accessors *)

Section Bookmarks.
Context {TL : TimeLib}.

Lemma frame_refl sid s : frame sid s s.
Proof. split; reflexivity. Qed.

Lemma frame_trans sid s1 s2 s3 :
  frame sid s1 s2 -> frame sid s2 s3 -> frame sid s1 s3.
Proof.
  intros [H1 H2] [H3 H4]. split; intros k Hk.
  - rewrite H3, H1; auto.
  - rewrite H4, H2; auto.
Qed.

Lemma same_rest_refl w : same_rest w w.
Proof. repeat split. Qed.

Lemma same_rest_trans w1 w2 w3 :
  same_rest w1 w2 -> same_rest w2 w3 -> same_rest w1 w3.
Proof.
  intros (A1 & A2 & A3 & A4) (B1 & B2 & B3 & B4).
  repeat split; congruence.
Qed.

Lemma same_rest_with_state s w : same_rest w (with_state s w).
Proof. repeat split. Qed.

Lemma stream_entry_insert_eq s bs sid b :
  stream_entry (<["bookmarks" := TDict (<[sid := b]> bs)]> s) sid = Some b.
Proof.
  unfold stream_entry. rewrite lookup_insert_eq. apply lookup_insert_eq.
Qed.

Lemma stream_entry_insert_ne s bs sid x b :
  x <> sid ->
  stream_entry (<["bookmarks" := TDict (<[sid := b]> bs)]> s) x = bs !! x.
Proof.
  intros H. unfold stream_entry. rewrite lookup_insert_eq.
  apply lookup_insert_ne. congruence.
Qed.

(** Writing an entry that replaces one of stream [sid], or adds one. *)
Lemma frame_insert sid s bs b :
  s !! "bookmarks" = Some (TDict bs) ->
  frame sid s (<["bookmarks" := TDict (<[sid := b]> bs)]> s).
Proof.
  intros H. split.
  - intros k Hk. apply lookup_insert_ne. congruence.
  - intros x Hx. rewrite stream_entry_insert_ne by exact Hx.
    unfold stream_entry. rewrite H. reflexivity.
Qed.

Lemma frame_create sid s :
  s !! "bookmarks" = None ->
  frame sid s (<["bookmarks" := TDict {[ sid := ∅ ]}]> s).
Proof.
  intros H. split.
  - intros k Hk. apply lookup_insert_ne. congruence.
  - intros x Hx. unfold stream_entry. rewrite lookup_insert_eq, H.
    apply lookup_singleton_ne. congruence.
Qed.

(** [_bookmark] raises only on a ["bookmarks"] value that is no mapping, and
    then changes nothing. *)
Lemma bookmark_raises p w e w' :
  _bookmark p w = (inl e, w') ->
  e = TypeError /\ w' = w /\ ~ mapping_ok (state w).
Proof.
  unfold _bookmark, mapping_ok.
  destruct (state w !! "bookmarks") as [[bs|v]|]; try discriminate.
  - destruct (bs !! tap_stream_id p); discriminate.
  - intros H. injection H as <- <-. auto.
Qed.

(** [_bookmark] returns the entry of the stream, which it has created empty
    if it was missing; the cursors of the stream read as before. *)
Lemma bookmark_returns p w b w' :
  _bookmark p w = (inr b, w') ->
  stream_entry (state w') (tap_stream_id p) = Some b /\
  (forall key, b !! key = cursor (state w) (tap_stream_id p) key) /\
  frame (tap_stream_id p) (state w) (state w') /\
  same_rest w w'.
Proof.
  unfold _bookmark, cursor.
  destruct (state w !! "bookmarks") as [[bs|v]|] eqn:E; try discriminate.
  - destruct (bs !! tap_stream_id p) as [b0|] eqn:Eb;
      intros H; injection H as <- <-.
    + unfold stream_entry. rewrite E, Eb.
      repeat split; reflexivity.
    + simpl. rewrite stream_entry_insert_eq.
      unfold stream_entry at 1. rewrite E, Eb.
      split; [reflexivity|]. split; [intros; apply lookup_empty|].
      split; [apply frame_insert; exact E | apply same_rest_with_state].
  - intros H; injection H as <- <-. simpl.
    split.
    { unfold stream_entry. rewrite lookup_insert_eq. apply lookup_singleton_eq. }
    unfold stream_entry at 1. rewrite E.
    split; [intros; apply lookup_empty|].
    split; [apply frame_create; exact E | apply same_rest_with_state].
Qed.

Lemma bookmark_total p w :
  mapping_ok (state w) -> exists b w', _bookmark p w = (inr b, w').
Proof.
  unfold mapping_ok, _bookmark.
  destruct (state w !! "bookmarks") as [[bs|v]|]; intros H; try contradiction.
  - destruct (bs !! tap_stream_id p); eauto.
  - eauto.
Qed.

(** An entry that is there is returned as it is. *)
Lemma bookmark_present p w b :
  stream_entry (state w) (tap_stream_id p) = Some b ->
  _bookmark p w = (inr b, w).
Proof.
  unfold stream_entry, _bookmark.
  destruct (state w !! "bookmarks") as [[bs|v]|]; try discriminate.
  intros ->. reflexivity.
Qed.

Lemma mapping_ok_entry s sid b :
  stream_entry s sid = Some b -> mapping_ok s.
Proof.
  unfold stream_entry, mapping_ok.
  destruct (s !! "bookmarks") as [[bs|v]|]; try discriminate; auto.
Qed.

Lemma cursor_store_eq s sid b key :
  mapping_ok s -> s !! "bookmarks" <> None ->
  cursor (store_entry sid b s) sid key = b !! key.
Proof.
  unfold mapping_ok, store_entry, cursor.
  destruct (s !! "bookmarks") as [[bs|v]|]; try contradiction.
  intros _ _. rewrite stream_entry_insert_eq. reflexivity.
Qed.

Lemma frame_store sid b s : frame sid s (store_entry sid b s).
Proof.
  unfold store_entry.
  destruct (s !! "bookmarks") as [[bs|v]|] eqn:E;
    [apply frame_insert; exact E | apply frame_refl | apply frame_refl].
Qed.

Lemma bookmark_setitem_raises p key v w e w' :
  bookmark_setitem p key v w = (inl e, w') ->
  e = TypeError /\ w' = w /\ ~ mapping_ok (state w).
Proof.
  unfold bookmark_setitem.
  destruct (_bookmark p w) as [[e1|b] w1] eqn:E; [|discriminate].
  intros H. injection H as <- <-. eapply bookmark_raises; eauto.
Qed.

(** [self._bookmark[key] = v] sets that cursor of the stream and no other,
    and nothing outside the entry of the stream. *)
Lemma bookmark_setitem_returns p key v w u w' :
  bookmark_setitem p key v w = (inr u, w') ->
  cursor (state w') (tap_stream_id p) key = Some v /\
  (forall k, k <> key ->
     cursor (state w') (tap_stream_id p) k = cursor (state w) (tap_stream_id p) k) /\
  frame (tap_stream_id p) (state w) (state w') /\
  same_rest w w'.
Proof.
  unfold bookmark_setitem.
  destruct (_bookmark p w) as [[e1|b] w1] eqn:E; [discriminate|].
  intros H. injection H as <- <-. simpl.
  apply bookmark_returns in E. destruct E as (Hentry & Hread & Hframe & Hrest).
  assert (Hb : state w1 !! "bookmarks" <> None).
  { unfold stream_entry in Hentry.
    destruct (state w1 !! "bookmarks"); congruence. }
  pose proof (mapping_ok_entry _ _ _ Hentry) as Hok.
  split; [|split; [|split]].
  - rewrite cursor_store_eq by assumption. apply lookup_insert_eq.
  - intros k Hk. rewrite cursor_store_eq by assumption.
    rewrite lookup_insert_ne by congruence. apply Hread.
  - eapply frame_trans; [exact Hframe | apply frame_store].
  - eapply same_rest_trans; [exact Hrest | apply same_rest_with_state].
Qed.

Lemma bookmark_setitem_total p key v w :
  mapping_ok (state w) -> exists w', bookmark_setitem p key v w = (inr tt, w').
Proof.
  intros H. destruct (bookmark_total p w H) as (b & w1 & E).
  unfold bookmark_setitem. rewrite E. eauto.
Qed.

Lemma stream_entry_cursor s sid key v :
  cursor s sid key = Some v -> exists b, stream_entry s sid = Some b.
Proof.
  unfold cursor. destruct (stream_entry s sid); [eauto | discriminate].
Qed.

Lemma bookmark_get_returns p key w v w' :
  bookmark_get p key w = (inr v, w') ->
  v = match cursor (state w) (tap_stream_id p) key with
      | Some x => x
      | None => VNone
      end /\
  (forall k, cursor (state w') (tap_stream_id p) k
             = cursor (state w) (tap_stream_id p) k) /\
  (exists b, stream_entry (state w') (tap_stream_id p) = Some b) /\
  frame (tap_stream_id p) (state w) (state w') /\
  same_rest w w'.
Proof.
  unfold bookmark_get. intros H.
  apply bind_inr in H. destruct H as (b & w1 & E & H).
  injection H as <- <-.
  apply bookmark_returns in E. destruct E as (Hentry & Hread & Hframe & Hrest).
  split; [|split; [|split; [|split]]].
  - unfold dict_get. rewrite Hread. reflexivity.
  - intros k. unfold cursor at 1. rewrite Hentry. apply Hread.
  - eauto.
  - exact Hframe.
  - exact Hrest.
Qed.

Lemma bookmark_get_raises p key w e w' :
  bookmark_get p key w = (inl e, w') ->
  e = TypeError /\ w' = w /\ ~ mapping_ok (state w).
Proof.
  unfold bookmark_get. intros H.
  apply bind_inl in H. destruct H as [H | (b & w1 & _ & H)].
  - eapply bookmark_raises; eauto.
  - discriminate.
Qed.

Lemma set_last_updated_returns p v w u w' :
  _set_last_updated p v w = (inr u, w') ->
  cursor (state w') (tap_stream_id p) "updated_at" = Some (normalize v) /\
  (forall k, k <> "updated_at" ->
     cursor (state w') (tap_stream_id p) k = cursor (state w) (tap_stream_id p) k) /\
  frame (tap_stream_id p) (state w) (state w') /\
  same_rest w w'.
Proof. apply bookmark_setitem_returns. Qed.

(** *** Relations that an operation keeps *)

#[export] Instance touches_preorder sid keys : PreOrder (touches sid keys).
Proof.
  split.
  - intros w. split; [apply frame_refl | reflexivity].
  - intros w1 w2 w3 [F1 C1] [F2 C2]. split.
    + eapply frame_trans; eauto.
    + intros k Hk. rewrite C2, C1; auto.
Qed.

#[export] Instance same_rest_preorder : PreOrder same_rest.
Proof.
  split; [exact same_rest_refl | exact same_rest_trans].
Qed.

Lemma touches_weaken sid keys keys' w w' :
  keys ⊆ keys' -> touches sid keys w w' -> touches sid keys' w w'.
Proof.
  intros Hsub [F C]. split; [exact F|].
  intros k Hk. apply C. intros Hin. apply Hk, Hsub, Hin.
Qed.

Lemma touches_same_state sid keys w w' :
  state w' = state w -> touches sid keys w w'.
Proof.
  intros H. unfold touches. rewrite H.
  split; [apply frame_refl | reflexivity].
Qed.

Lemma preserves_ret {A} R `{!Reflexive R} (a : A) : preserves R (ret a).
Proof. intros w. simpl. reflexivity. Qed.

Lemma preserves_raise {A} R `{!Reflexive R} e : preserves R (@raise _ A e).
Proof. intros w. simpl. reflexivity. Qed.

Lemma preserves_lift {A} R `{!Reflexive R} (r : exn + A) : preserves R (lift r).
Proof. destruct r; [apply preserves_raise | apply preserves_ret]; assumption. Qed.

Lemma preserves_bind {A B} R `{!Transitive R} (m : M A) (k : A -> M B) :
  preserves R m -> (forall a, preserves R (k a)) -> preserves R (bind m k).
Proof.
  intros Hm Hk w. unfold bind.
  specialize (Hm w). destruct (m w) as [[e|a] w1]; simpl in *.
  - exact Hm.
  - etransitivity; [exact Hm | apply Hk].
Qed.

Lemma preserves_weaken {A} (R R' : World -> World -> Prop) (m : M A) :
  (forall w w', R w w' -> R' w w') -> preserves R m -> preserves R' m.
Proof. intros H Hm w. apply H, Hm. Qed.

Lemma bookmark_touches p : preserves (touches (tap_stream_id p) []) (_bookmark p).
Proof.
  intros w. destruct (_bookmark p w) as [[e|b] w'] eqn:E; simpl.
  - apply bookmark_raises in E. destruct E as (_ & -> & _). reflexivity.
  - apply bookmark_returns in E. destruct E as (Hentry & Hread & Hframe & _).
    split; [exact Hframe|].
    intros k _. unfold cursor at 1. rewrite Hentry. apply Hread.
Qed.

Lemma bookmark_setitem_touches p key v :
  preserves (touches (tap_stream_id p) [key]) (bookmark_setitem p key v).
Proof.
  intros w. destruct (bookmark_setitem p key v w) as [[e|u] w'] eqn:E; simpl.
  - apply bookmark_setitem_raises in E. destruct E as (_ & -> & _). reflexivity.
  - apply bookmark_setitem_returns in E. destruct E as (_ & Hk & Hframe & _).
    split; [exact Hframe|].
    intros k Hin. apply Hk. intros ->. apply Hin. constructor.
Qed.

Lemma bookmark_same_rest p : preserves same_rest (_bookmark p).
Proof.
  intros w. destruct (_bookmark p w) as [[e|b] w'] eqn:E; simpl.
  - apply bookmark_raises in E. destruct E as (_ & -> & _). reflexivity.
  - apply bookmark_returns in E. apply E.
Qed.

Lemma bookmark_setitem_same_rest p key v :
  preserves same_rest (bookmark_setitem p key v).
Proof.
  intros w. destruct (bookmark_setitem p key v w) as [[e|u] w'] eqn:E; simpl.
  - apply bookmark_setitem_raises in E. destruct E as (_ & -> & _). reflexivity.
  - apply bookmark_setitem_returns in E. apply E.
Qed.

Lemma getitem_preserves R `{!Reflexive R} d key : preserves R (getitem d key).
Proof.
  unfold getitem. destruct (d !! key);
    [apply preserves_ret | apply preserves_raise]; assumption.
Qed.

(** [_update_start_state] writes at most the [updated_at] cursor of its own
    stream, and nothing outside the pipeline state. *)
Lemma update_start_state_touches p :
  preserves (touches (tap_stream_id p) ["updated_at"]) (_update_start_state p).
Proof.
  unfold _update_start_state, bookmark_get, bookmark_getitem, _set_last_updated.
  repeat (apply preserves_bind; [apply _| |intros ?]);
    try (eapply preserves_weaken;
         [intros ? ?; apply touches_weaken | apply bookmark_touches];
         set_solver).
  - apply preserves_ret, _.
  - destruct (truthy a); [apply preserves_ret, _|].
    apply preserves_bind; [apply _| |intros ?].
    + apply getitem_preserves, _.
    + apply bookmark_setitem_touches.
  - destruct (a1 !! "updated_at");
      [apply preserves_ret | apply preserves_raise]; apply _.
  - apply preserves_lift, _.
Qed.

Lemma update_start_state_same_rest p :
  preserves same_rest (_update_start_state p).
Proof.
  unfold _update_start_state, bookmark_get, bookmark_getitem, _set_last_updated.
  repeat (apply preserves_bind; [apply _| |intros ?]);
    try apply bookmark_same_rest.
  - apply preserves_ret, _.
  - destruct (truthy a); [apply preserves_ret, _|].
    apply preserves_bind; [apply _| |intros ?].
    + apply getitem_preserves, _.
    + apply bookmark_setitem_same_rest.
  - destruct (a1 !! "updated_at");
      [apply preserves_ret | apply preserves_raise]; apply _.
  - apply preserves_lift, _.
Qed.

Lemma lift_eq {A} (r : exn + A) w : lift r w = (r, w).
Proof. destruct r; reflexivity. Qed.

Lemma cursor_entry s sid b key :
  stream_entry s sid = Some b -> cursor s sid key = b !! key.
Proof. unfold cursor. intros ->. reflexivity. Qed.

Lemma bookmark_getitem_present p key w b :
  stream_entry (state w) (tap_stream_id p) = Some b ->
  bookmark_getitem p key w
    = (match b !! key with
       | Some v => inr v
       | None => inl (KeyError key)
       end, w).
Proof.
  intros H. unfold bookmark_getitem, bind.
  rewrite (bookmark_present _ _ _ H).
  destruct (b !! key); reflexivity.
Qed.

(** C8, as amended.  On a state whose ["bookmarks"] is missing or is a
    mapping, and with a configured start date, [_update_start_state]
    creates the missing levels of the bookmark structure, writes the start
    date into [updated_at] when that cursor is missing or falsy ([None], the
    empty text, 0), leaves a truthy cursor as it is, touches no other cursor
    and nothing else, and returns what [pendulum.parse] makes of the cursor:
    it raises only when the cursor cannot be parsed. *)
Theorem update_start_state_seeds p w start_date :
  mapping_ok (state w) ->
  config p !! "start_date" = Some start_date ->
  let sid := tap_stream_id p in
  let new := seeded (cursor (state w) sid "updated_at") start_date in
  exists w',
    _update_start_state p w = (parse new, w') /\
    cursor (state w') sid "updated_at" = Some new /\
    (forall k, k <> "updated_at" ->
       cursor (state w') sid k = cursor (state w) sid k) /\
    (exists b, stream_entry (state w') sid = Some b) /\
    frame sid (state w) (state w') /\
    same_rest w w'.
Proof.
  intros Hok Hsd sid new. subst sid new.
  destruct (bookmark_total p w Hok) as (b & w1 & E1).
  pose proof (bookmark_returns _ _ _ _ E1) as (Hentry & Hread & Hframe & Hrest).
  assert (Hseed : forall w2 u,
    _set_last_updated p start_date w1 = (inr u, w2) ->
    bind (bind (getitem (config p) "start_date")
                (fun sd => _set_last_updated p sd))
         (fun _ => bind (bookmark_getitem p "updated_at")
                     (fun v => lift (parse v))) w1
      = (parse (normalize start_date), w2) /\
    cursor (state w2) (tap_stream_id p) "updated_at" = Some (normalize start_date) /\
    (forall k, k <> "updated_at" ->
       cursor (state w2) (tap_stream_id p) k = cursor (state w) (tap_stream_id p) k) /\
    (exists b, stream_entry (state w2) (tap_stream_id p) = Some b) /\
    frame (tap_stream_id p) (state w) (state w2) /\ same_rest w w2).
  { intros w2 u E2.
    pose proof (set_last_updated_returns _ _ _ _ _ E2) as (Hc & Hk & Hf & Hr).
    destruct (stream_entry_cursor _ _ _ _ Hc) as (b2 & Hb2).
    split; [|split; [|split; [|split; [|split]]]].
    - unfold bind at 1. unfold bind at 1. unfold getitem. rewrite Hsd.
      simpl. rewrite E2. unfold bind.
      rewrite (bookmark_getitem_present _ _ _ _ Hb2).
      rewrite <- (cursor_entry _ _ _ _ Hb2), Hc. apply lift_eq.
    - exact Hc.
    - intros k Hne. rewrite Hk by exact Hne.
      unfold cursor at 1. rewrite Hentry. apply Hread.
    - eauto.
    - eapply frame_trans; eauto.
    - eapply same_rest_trans; eauto. }
  destruct (bookmark_setitem_total p "updated_at" (normalize start_date) w1
              (mapping_ok_entry _ _ _ Hentry)) as (w2 & E2).
  specialize (Hseed w2 tt E2).
  unfold _update_start_state, bookmark_get.
  unfold bind at 1. unfold bind at 1. rewrite E1. simpl.
  unfold dict_get. rewrite Hread. unfold seeded.
  destruct (cursor (state w) (tap_stream_id p) "updated_at") as [v|] eqn:Ec.
  - destruct (truthy v) eqn:Et.
    + exists w1. split; [|split; [|split; [|split; [|split]]]].
      * unfold bind, ret.
        rewrite (bookmark_getitem_present _ _ _ _ Hentry).
        rewrite Hread. rewrite Ec. apply lift_eq.
      * unfold cursor at 1. rewrite Hentry.
        rewrite Hread. exact Ec.
      * intros k _. unfold cursor at 1. rewrite Hentry.
        apply Hread.
      * eauto.
      * exact Hframe.
      * exact Hrest.
    + exists w2. exact Hseed.
  - exists w2. exact Hseed.
Qed.

End Bookmarks.

(** *** The page generators *)

Section Generators.
Context {TL : TimeLib}.

Lemma set_pagination_key_eq g w :
  set_pagination_key g w
    = (inr ({| options := match options g with
                          | Passed _ => Passed (sent_options g w)
                          | Default => Default
                          end;
               pagination_key := pagination_key g;
               get_next_page_num := get_next_page_num g;
               num_pages_yielded := num_pages_yielded g;
               curr_page_num := curr_page_num g |}, sent_options g w),
       match options g with
       | Passed _ => w
       | Default => with_default_options (sent_options g w) w
       end).
Proof.
  unfold set_pagination_key, sent_options.
  destruct g as [[o|] key fn n c]; reflexivity.
Qed.

(** What one [next()] of [_paginate] does: past a million yielded pages it
    raises at once; otherwise it writes the pagination key, sends the
    request (again after each rate-limit answer) and yields the page that
    came back, unless nothing came back. *)
Lemma paginate_next_spec p g w r w' :
  _paginate_next p g w = (r, w') ->
  state w' = state w /\
  if 1000000 <? num_pages_yielded g then r = inl PagesException /\ w' = w
  else
    default_options w' = match options g with
                         | Passed _ => default_options w
                         | Default => sent_options g w
                         end /\
    exists k resp,
      (k <= 9)%nat /\
      requests w' = repeat (the_call p (sent_options g w)) (S k) ++ requests w /\
      answer p w' = Some resp /\
      match r with
      | inr (Some (page, next_page_num, g')) =>
          resp = Ok page /\ page <> [] /\
          get_next_page_num g (curr_page_num g) page = inr next_page_num /\
          g' = resumed g w next_page_num
      | inr None => resp = Ok [] \/ resp = HttpErr 401
      | inl e =>
          result_of resp = inl e \/
          exists page, resp = Ok page /\ page <> [] /\
            get_next_page_num g (curr_page_num g) page = inl e
      end.
Proof.
  unfold _paginate_next.
  destruct (1000000 <? num_pages_yielded g).
  { intros H. injection H as <- <-. auto. }
  unfold bind at 1. rewrite set_pagination_key_eq.
  set (w1 := match options g with
             | Passed _ => w
             | Default => with_default_options (sent_options g w) w
             end).
  assert (Hw1 : state w1 = state w /\ requests w1 = requests w /\
                default_options w1 = match options g with
                                     | Passed _ => default_options w
                                     | Default => sent_options g w
                                     end).
  { subst w1. destruct (options g); auto. }
  destruct Hw1 as (Hs1 & Hr1 & Hd1).
  unfold bind. simpl snd.
  destruct (_make_request p (sent_options g w) w1) as [r1 w2] eqn:E.
  unfold _make_request in E. apply on_exception_spec in E.
  destruct E as (Hs2 & Hd2 & k & resp & Hk & Hreq & _ & Ha & Hr & _).
  assert (Hcommon : state w2 = state w /\
            default_options w2 = match options g with
                                 | Passed _ => default_options w
                                 | Default => sent_options g w
                                 end /\
            requests w2 = repeat (the_call p (sent_options g w)) (S k) ++ requests w).
  { repeat split; congruence. }
  destruct Hcommon as (Hs & Hd & Hrq).
  unfold max_tries in Hk. simpl in Hk.
  destruct r1 as [e|[[|x xs]|]].
  - intros H. injection H as <- <-. split; [exact Hs|]. split; [exact Hd|].
    exists k, resp. repeat split; auto.
  - intros H. injection H as <- <-. split; [exact Hs|]. split; [exact Hd|].
    exists k, resp. repeat split; auto.
    destruct resp as [recs|code]; simpl in Hr.
    + left. congruence.
    + destruct (code =? 401); [discriminate|].
      destruct (code =? 503); discriminate.
  - simpl fst.
    assert (Hresp : resp = Ok (x :: xs)).
    { destruct resp as [recs|code]; simpl in Hr; [congruence|].
      destruct (code =? 401); [discriminate|].
      destruct (code =? 503); discriminate. }
    destruct (get_next_page_num g (curr_page_num g) (x :: xs)) as [e|nx] eqn:En;
      intros H; injection H as <- <-; (split; [exact Hs|]; split; [exact Hd|]);
      exists k, resp; repeat split; auto.
    right. exists (x :: xs). repeat split; auto; discriminate.
  - intros H. injection H as <- <-. split; [exact Hs|]. split; [exact Hd|].
    exists k, resp. repeat split; auto.
    destruct resp as [recs|code]; simpl in Hr; [discriminate|].
    right. f_equal. destruct (code =? 401) eqn:E1.
    + apply Z.eqb_eq in E1. exact E1.
    + destruct (code =? 503); discriminate.
Qed.

Lemma make_request_first_answer p o w resp :
  xero p (length (requests w)) (the_call p o) = resp ->
  result_of resp <> inl RateLimitException ->
  exists w',
    _make_request p o w = (result_of resp, w') /\
    requests w' = the_call p o :: requests w /\
    state w' = state w /\ default_options w' = default_options w.
Proof.
  intros Hresp Hne.
  assert (Hlim : rate_limited p o w 0) by (intros i Hi; lia).
  rewrite <- (Nat.add_0_r (length (requests w))) in Hresp.
  destruct (on_exception_limited_then p o 0 (max_tries - 1) 0 w resp
              (Nat.le_0_l _) Hlim Hresp Hne) as (w' & Hrun & Hreq & _).
  exists w'. split; [exact Hrun|]. split; [exact Hreq|].
  apply on_exception_spec in Hrun. destruct Hrun as (Hs & Hd & _). auto.
Qed.

Lemma ret_inr {A} (a b : A) w w' : ret a w = (inr b, w') -> a = b /\ w = w'.
Proof. unfold ret. intros H. injection H as <- <-. auto. Qed.

Lemma lift_inr {A} (r : exn + A) a w w' :
  lift r w = (inr a, w') -> r = inr a /\ w = w'.
Proof. rewrite lift_eq. intros H. injection H as <- <-. auto. Qed.

Lemma last_field_inr page key w v w' :
  last_field page key w = (inr v, w') ->
  w = w' /\ exists r, last page = Some r /\ r !! key = Some v.
Proof.
  unfold last_field, getitem.
  destruct (last page) as [r|]; [|discriminate].
  destruct (r !! key) as [x|] eqn:E; [|discriminate].
  intros H. apply ret_inr in H. destruct H as [-> ->]. eauto.
Qed.

Lemma answer_same_requests p w w' :
  requests w' = requests w -> answer p w' = answer p w.
Proof. unfold answer. intros ->. reflexivity. Qed.

(** What [_paginate_next] has done when it yields. *)
Lemma paginate_next_yields p g w page next_page_num g' w' :
  _paginate_next p g w = (inr (Some (page, next_page_num, g')), w') ->
  state w' = state w /\
  g' = resumed g w next_page_num /\
  default_options w' = match options g with
                       | Passed _ => default_options w
                       | Default => sent_options g w
                       end /\
  fetched p g w w' page next_page_num.
Proof.
  intros H. apply paginate_next_spec in H. destruct H as (Hs & H).
  destruct (1000000 <? num_pages_yielded g) eqn:En; [destruct H; discriminate|].
  destruct H as (Hd & k & resp & Hk & Hreq & Ha & -> & Hne & Hnext & ->).
  repeat split; auto.
  - apply Z.ltb_ge in En. exact En.
  - eauto.
Qed.

(** A step of the loop of [PaginatedPull] that yields: the page is the
    answer to the newest call, and it is yielded after both cursors were
    written. *)
Lemma paginated_loop_yields p start g w b f' w' :
  paginated_loop p start g w = (inr (Some (b, f')), w') ->
  exists page next_page_num,
    b = Some page /\
    f' = PaginatedLoop start (resumed g w next_page_num) /\
    fetched p g w w' page next_page_num /\
    advanced p w' page next_page_num /\
    default_options w' = match options g with
                         | Passed _ => default_options w
                         | Default => sent_options g w
                         end.
Proof.
  unfold paginated_loop. intros H. binds H.
  destruct a as [[[page next_page_num] g']|]; binds H.
  2: { apply ret_inr in H. destruct H. discriminate. }
  apply ret_inr in H. destruct H as [H ->]. injection H as <- <-.
  apply paginate_next_yields in E. destruct E as (Hs & -> & Hd & Hf).
  apply bookmark_setitem_returns in E0.
  destruct E0 as (Hpage & _ & _ & Hrest0).
  apply last_field_inr in E1. destruct E1 as (<- & r & Hlast & Hv).
  apply set_last_updated_returns in E2.
  destruct E2 as (Hupd & Hkeep & _ & Hrest2).
  pose proof (same_rest_trans _ _ _ Hrest0 Hrest2) as (Hd' & Hreq' & _ & _).
  exists page, next_page_num. split; [reflexivity|]. split; [reflexivity|].
  split; [|split].
  - destruct Hf as (Hn & Hne & Hnext & Ha & k & Hk & Hreq).
    split; [exact Hn|]. split; [exact Hne|]. split; [exact Hnext|]. split.
    + rewrite (answer_same_requests p _ _ Hreq'). exact Ha.
    + exists k. split; [exact Hk|]. congruence.
  - split.
    + rewrite Hkeep by discriminate. exact Hpage.
    + exists r. eexists. repeat split; eassumption.
  - congruence.
Qed.

(** A step of the loop of [PaginatedPull] that ends the generator has set
    the [page] cursor to [None] and no other cursor. *)
Lemma paginated_loop_stops p start g w w' :
  paginated_loop p start g w = (inr None, w') ->
  cursor (state w') (tap_stream_id p) "page" = Some VNone /\
  (forall k, k <> "page" ->
     cursor (state w') (tap_stream_id p) k = cursor (state w) (tap_stream_id p) k) /\
  (answer p w' = Some (Ok []) \/ answer p w' = Some (HttpErr 401)).
Proof.
  unfold paginated_loop. intros H. binds H.
  destruct a as [[[page next_page_num] g']|]; binds H.
  { apply ret_inr in H. destruct H. discriminate. }
  apply ret_inr in H. destruct H as [_ ->].
  apply paginate_next_spec in E. destruct E as (Hs & E).
  destruct (1000000 <? num_pages_yielded g); [destruct E; discriminate|].
  destruct E as (_ & k & resp & _ & _ & Ha & Hresp).
  apply bookmark_setitem_returns in E0.
  destruct E0 as (Hpage & Hkeep & _ & (_ & Hreq & _)).
  split; [exact Hpage|]. split.
  - intros key Hkey. rewrite Hkeep by exact Hkey.
    rewrite Hs. reflexivity.
  - rewrite (answer_same_requests p _ _ Hreq), Ha.
    destruct Hresp as [-> | ->]; auto.
Qed.

Lemma bookmark_getitem_returns p key w v w' :
  bookmark_getitem p key w = (inr v, w') ->
  cursor (state w') (tap_stream_id p) key = Some v /\
  exists b, stream_entry (state w') (tap_stream_id p) = Some b.
Proof.
  unfold bookmark_getitem. intros H. binds H.
  apply bookmark_returns in E. destruct E as (Hentry & _).
  destruct (a !! key) as [x|] eqn:Ex; [|discriminate].
  apply ret_inr in H. destruct H as [-> ->].
  split; [|eauto]. rewrite (cursor_entry _ _ _ _ Hentry). exact Ex.
Qed.

Lemma parse_inr v d :
  parse v = inr d -> exists s, v = VStr s /\ pendulum_parse s = Some d.
Proof.
  destruct v as [|z|s|d0]; try discriminate. simpl.
  destruct (pendulum_parse s) as [d1|] eqn:E; [|discriminate].
  intros H. injection H as ->. eauto.
Qed.

(** When [_update_start_state] returns, the entry of the stream exists and
    its [updated_at] cursor is a text that parses to the returned value. *)
Lemma update_start_state_returns p w d w' :
  _update_start_state p w = (inr d, w') ->
  (exists b, stream_entry (state w') (tap_stream_id p) = Some b) /\
  touches (tap_stream_id p) ["updated_at"] w w' /\
  same_rest w w' /\
  exists s, cursor (state w') (tap_stream_id p) "updated_at" = Some (VStr s) /\
            pendulum_parse s = Some d.
Proof.
  intros H.
  pose proof (update_start_state_touches p w) as Ht.
  pose proof (update_start_state_same_rest p w) as Hr.
  rewrite H in Ht, Hr. simpl in Ht, Hr.
  unfold _update_start_state in H. binds H.
  apply lift_inr in H. destruct H as [Hp ->].
  apply bookmark_getitem_returns in E1. destruct E1 as (Hc & Hb).
  apply parse_inr in Hp. destruct Hp as (s & -> & Hp).
  split; [exact Hb|]. split; [exact Ht|]. split; [exact Hr|]. eauto.
Qed.

(** The tail of a loop step leaves the log of calls alone, so the calls of
    a step are those of its [_paginate_next]. *)
Lemma loop_requests {B} p g (k : _ -> M B) w :
  (forall a, preserves same_rest (k a)) ->
  num_pages_yielded g <= 1000000 ->
  exists n, (n <= 9)%nat /\
    requests (snd (bind (_paginate_next p g) k w))
      = repeat (the_call p (sent_options g w)) (S n) ++ requests w.
Proof.
  intros Hk Hn. unfold bind.
  destruct (_paginate_next p g w) as [r w1] eqn:E.
  apply paginate_next_spec in E. destruct E as (_ & E).
  apply Z.ltb_ge in Hn. rewrite Hn in E.
  destruct E as (_ & n & resp & Hle & Hreq & _).
  exists n. split; [exact Hle|].
  destruct r as [e|a]; simpl; [exact Hreq|].
  destruct (Hk a w1) as (_ & Hr & _). rewrite Hr. exact Hreq.
Qed.

Lemma last_field_preserves R `{!Reflexive R} page key :
  preserves R (last_field page key).
Proof.
  unfold last_field. destruct (last page);
    [apply getitem_preserves | apply preserves_raise]; assumption.
Qed.

Lemma paginated_tail_same_rest p start
    (a : option (list (gmap string value) * value * Paginate)) :
  preserves same_rest
    (match a with
     | Some (page, next_num, g') =>
         bind (bookmark_setitem p "page" next_num) (fun _ =>
         bind (last_field page (bookmark_property p)) (fun v =>
         bind (_set_last_updated p v) (fun _ =>
         ret (Some (Some page, PaginatedLoop start g')))))
     | None =>
         bind (bookmark_setitem p "page" VNone) (fun _ => ret None)
     end).
Proof.
  destruct a as [[[page next_num] g']|].
  - apply preserves_bind; [apply _|apply bookmark_setitem_same_rest|intros ?].
    apply preserves_bind; [apply _|apply last_field_preserves, _|intros ?].
    apply preserves_bind; [apply _|apply bookmark_setitem_same_rest|intros ?].
    apply preserves_ret, _.
  - apply preserves_bind; [apply _|apply bookmark_setitem_same_rest|intros ?].
    apply preserves_ret, _.
Qed.

Lemma bookmark_get_present p key w b :
  stream_entry (state w) (tap_stream_id p) = Some b ->
  bookmark_get p key w = (inr (cursor_get p w key), w).
Proof.
  intros H. unfold bookmark_get, bind. rewrite (bookmark_present _ _ _ H).
  unfold ret, dict_get, cursor_get. rewrite (cursor_entry _ _ _ _ H).
  reflexivity.
Qed.

Lemma cursor_get_touches p keys w w' key :
  touches (tap_stream_id p) keys w w' -> key ∉ keys ->
  cursor_get p w' key = cursor_get p w key.
Proof. intros [_ H] Hk. unfold cursor_get. rewrite H by exact Hk. reflexivity. Qed.

Lemma next_by_increment_inr curr page next_page_num :
  next_by_increment curr page = inr next_page_num ->
  exists n, curr = VInt n /\ next_page_num = VInt (n + 1).
Proof.
  destruct curr as [|n|s|d]; try discriminate.
  intros H. injection H as <-. eauto.
Qed.

(** The first [next()] of a [PaginatedPull] generator, once the start
    cursor is there: the loop is entered on the bookmarked page, or on page
    1, with freshly built options. *)
Lemma paginated_first_step p w start w1 :
  class p = PaginatedPull ->
  _update_start_state p w = (inr start, w1) ->
  yield_pages_next p Created w
    = paginated_loop p start
        (_paginate (Passed (paginated_options p start))
           (py_or (cursor_get p w "page") (VInt 1)) "page" next_by_increment) w1.
Proof.
  intros Hclass Hstart. simpl. rewrite Hclass.
  unfold bind at 1. rewrite Hstart.
  apply update_start_state_returns in Hstart.
  destruct Hstart as ((b & Hb) & Ht & _ & _).
  unfold bind at 1. rewrite (bookmark_get_present _ _ _ _ Hb).
  rewrite (cursor_get_touches _ _ _ _ "page" Ht) by not_among.
  reflexivity.
Qed.

(** Every [next()] of a [PaginatedPull] generator that returns is a step of
    its loop, on a frame that paginates by ["page"], counts pages up by one
    and owns its options. *)
Lemma paginated_step_inv p f w r w' :
  class p = PaginatedPull ->
  paginated_frame f ->
  yield_pages_next p f w = (inr r, w') ->
  exists start g w1,
    paginated_loop p start g w1 = (inr r, w') /\
    paginated_frame (PaginatedLoop start g) /\
    touches (tap_stream_id p) ["updated_at"] w w1 /\
    same_rest w w1.
Proof.
  intros Hclass Hf H.
  destruct f as [|start g| | |]; simpl in Hf; try (exfalso; exact Hf).
  - assert (Hs : exists start w1, _update_start_state p w = (inr start, w1)).
    { simpl in H. rewrite Hclass in H. apply bind_inr in H.
      destruct H as (start & w1 & E & _). eauto. }
    destruct Hs as (start & w1 & Hs).
    rewrite (paginated_first_step p w start w1 Hclass Hs) in H.
    apply update_start_state_returns in Hs. destruct Hs as (_ & Ht & Hr & _).
    eexists start, _, w1. split; [exact H|].
    split; [|split; [exact Ht | exact Hr]].
    simpl. eauto.
  - exists start, g, w. split; [exact H|]. split; [exact Hf|].
    split; reflexivity.
Qed.

(** C3.  [PaginatedPull]: the first request of a run asks for the
    bookmarked page (3 when the cursor holds 3) or for page 1 when there is
    no [page] cursor; a page is yielded with the [page] cursor already at
    the next page number and [updated_at] at the bookmark property of its
    last record; a [next()] that finds an empty page ends the generator,
    and the generator ends with the [page] cursor set to [None]. *)
Theorem paginated_pull_resumes_and_advances p f w :
  class p = PaginatedPull ->
  paginated_frame f ->
  (forall start w1,
     f = Created ->
     _update_start_state p w = (inr start, w1) ->
     exists n,
       requests (snd (yield_pages_next p f w))
         = repeat (the_call p (<["page" := py_or (cursor_get p w "page") (VInt 1)]>
                                 (paginated_options p start))) (S n)
           ++ requests w) /\
  (cursor (state w) (tap_stream_id p) "page" = Some (VInt 3) ->
   py_or (cursor_get p w "page") (VInt 1) = VInt 3) /\
  (cursor (state w) (tap_stream_id p) "page" = None ->
   py_or (cursor_get p w "page") (VInt 1) = VInt 1) /\
  (forall b f' w',
     yield_pages_next p f w = (inr (Some (b, f')), w') ->
     exists page n,
       b = Some page /\ page <> [] /\
       answer p w' = Some (Ok page) /\
       (exists c earlier, requests w' = c :: earlier /\
                          call_options c !! "page" = Some (VInt n)) /\
       advanced p w' page (VInt (n + 1)) /\
       paginated_frame f' /\
       exists start g', f' = PaginatedLoop start g' /\
                        curr_page_num g' = VInt (n + 1)) /\
  (forall w',
     yield_pages_next p f w = (inr None, w') ->
     cursor (state w') (tap_stream_id p) "page" = Some VNone /\
     (answer p w' = Some (Ok []) \/ answer p w' = Some (HttpErr 401))) /\
  (forall start g,
     f = PaginatedLoop start g ->
     num_pages_yielded g <= 1000000 ->
     mapping_ok (state w) ->
     xero p (length (requests w)) (the_call p (sent_options g w)) = Ok [] ->
     exists w',
       yield_pages_next p f w = (inr None, w') /\
       requests w' = the_call p (sent_options g w) :: requests w /\
       cursor (state w') (tap_stream_id p) "page" = Some VNone).
Proof.
  intros Hclass Hf.
  split; [|split; [|split; [|split; [|split]]]].
  - intros start w1 -> Hstart.
    rewrite (paginated_first_step p w start w1 Hclass Hstart).
    apply update_start_state_returns in Hstart.
    destruct Hstart as (_ & _ & (_ & Hreq & _) & _).
    unfold paginated_loop.
    destruct (loop_requests p
                (_paginate (Passed (paginated_options p start))
                   (py_or (cursor_get p w "page") (VInt 1)) "page"
                   next_by_increment) _ w1
                (paginated_tail_same_rest p start)) as (n & _ & Hn).
    { simpl. lia. }
    exists n. rewrite Hn, Hreq. reflexivity.
  - intros H. unfold cursor_get. rewrite H. reflexivity.
  - intros H. unfold cursor_get. rewrite H. reflexivity.
  - intros b f' w' H.
    apply paginated_step_inv in H; [|assumption..].
    destruct H as (start & g & w1 & H & (Hkey & Hfn & o & Ho) & _ & _).
    apply paginated_loop_yields in H.
    destruct H as (page & next_page_num & -> & -> & Hfetched & Hadv & _).
    destruct Hfetched as (_ & Hne & Hnext & Ha & k & _ & Hreq).
    rewrite Hfn in Hnext. apply next_by_increment_inr in Hnext.
    destruct Hnext as (n & Hcurr & ->).
    exists page, n. split; [reflexivity|]. split; [exact Hne|].
    split; [exact Ha|]. split; [|split; [exact Hadv|split]].
    + exists (the_call p (sent_options g w1)),
             (repeat (the_call p (sent_options g w1)) k ++ requests w1).
      split; [exact Hreq|]. simpl. unfold sent_options.
      rewrite Hkey, Hcurr. apply lookup_insert_eq.
    + simpl. rewrite Ho. eauto.
    + eexists start, _. split; reflexivity.
  - intros w' H.
    apply paginated_step_inv in H; [|assumption..].
    destruct H as (start & g & w1 & H & _).
    apply paginated_loop_stops in H. destruct H as (Hp & _ & Ha). auto.
  - intros start g -> Hn Hok Hempty. simpl.
    unfold paginated_loop, _paginate_next.
    apply Z.ltb_ge in Hn. rewrite Hn.
    unfold bind at 1. unfold bind at 1. rewrite set_pagination_key_eq. simpl snd.
    set (w1 := match options g with
               | Passed _ => w
               | Default => with_default_options (sent_options g w) w
               end).
    assert (Hw1 : state w1 = state w /\ requests w1 = requests w)
      by (subst w1; destruct (options g); auto).
    destruct Hw1 as (Hs1 & Hr1).
    destruct (make_request_first_answer p (sent_options g w) w1 (Ok []))
      as (w2 & E & Hreq & Hs2 & _).
    { rewrite Hr1. exact Hempty. }
    { discriminate. }
    simpl in E. unfold bind at 1. rewrite E. simpl.
    destruct (bookmark_setitem_total p "page" VNone w2) as (w3 & E3).
    { unfold mapping_ok. rewrite Hs2, Hs1. exact Hok. }
    unfold bind, ret. rewrite E3.
    apply bookmark_setitem_returns in E3.
    destruct E3 as (Hpage & _ & _ & (_ & Hreq3 & _)).
    exists w3. split; [reflexivity|]. split; [congruence | exact Hpage].
Qed.

(** *** What the steps leave alone *)

Lemma make_request_state p o w : state (snd (_make_request p o w)) = state w.
Proof.
  destruct (_make_request p o w) as [r w'] eqn:E.
  unfold _make_request in E. apply on_exception_spec in E. apply E.
Qed.

Lemma paginate_next_state p g w : state (snd (_paginate_next p g w)) = state w.
Proof.
  destruct (_paginate_next p g w) as [r w'] eqn:E.
  apply paginate_next_spec in E. apply E.
Qed.

Lemma preserves_same_state {A} sid keys (m : M A) :
  (forall w, state (snd (m w)) = state w) -> preserves (touches sid keys) m.
Proof. intros H w. apply touches_same_state, H. Qed.

Lemma bookmark_setitem_touches_among p key v keys :
  key ∈ keys ->
  preserves (touches (tap_stream_id p) keys) (bookmark_setitem p key v).
Proof.
  intros Hin. eapply preserves_weaken; [|apply bookmark_setitem_touches].
  intros w w'. apply touches_weaken. intros k Hk.
  apply list_elem_of_singleton in Hk. subst k. exact Hin.
Qed.

Lemma bookmark_get_touches p key keys :
  preserves (touches (tap_stream_id p) keys) (bookmark_get p key).
Proof.
  unfold bookmark_get. apply preserves_bind; [apply _| |intros ?].
  - eapply preserves_weaken; [|apply bookmark_touches].
    intros w w'. apply touches_weaken. intros k Hk. inversion Hk.
  - apply preserves_ret, _.
Qed.

Lemma update_start_state_touches_among p keys :
  "updated_at" ∈ keys ->
  preserves (touches (tap_stream_id p) keys) (_update_start_state p).
Proof.
  intros Hin. eapply preserves_weaken; [|apply update_start_state_touches].
  intros w w'. apply touches_weaken. intros k Hk.
  apply list_elem_of_singleton in Hk. subst k. exact Hin.
Qed.

Lemma journal_loop_touches p g :
  preserves (touches (tap_stream_id p) ["journal_number"]) (journal_loop p g).
Proof.
  unfold journal_loop. apply preserves_bind; [apply _| |intros a].
  - apply preserves_same_state, paginate_next_state.
  - destruct a as [[[page next_num] g']|]; [|apply preserves_ret, _].
    apply preserves_bind; [apply _| |intros ?].
    + apply bookmark_setitem_touches.
    + apply preserves_ret, _.
Qed.

Lemma paginated_loop_touches p start g :
  preserves (touches (tap_stream_id p) ["page"; "updated_at"])
    (paginated_loop p start g).
Proof.
  unfold paginated_loop. apply preserves_bind; [apply _| |intros a].
  - apply preserves_same_state, paginate_next_state.
  - destruct a as [[[page next_num] g']|].
    + apply preserves_bind; [apply _| |intros ?].
      { apply bookmark_setitem_touches_among. among. }
      apply preserves_bind; [apply _| |intros ?].
      { apply last_field_preserves, _. }
      apply preserves_bind; [apply _| |intros ?].
      { apply bookmark_setitem_touches_among. among. }
      apply preserves_ret, _.
    + apply preserves_bind; [apply _| |intros ?].
      { apply bookmark_setitem_touches_among. among. }
      apply preserves_ret, _.
Qed.

Lemma linked_loop_touches p start g :
  preserves (touches (tap_stream_id p) ["page"; "updated_at"])
    (linked_loop p start g).
Proof.
  unfold linked_loop. apply preserves_bind; [apply _| |intros a].
  - apply preserves_same_state, paginate_next_state.
  - destruct a as [[[page next_num] g']|].
    + apply preserves_bind; [apply _| |intros ?].
      { apply bookmark_setitem_touches_among. among. }
      apply preserves_bind; [apply _| |intros ?].
      { apply last_field_preserves, _. }
      apply preserves_bind; [apply _| |intros ?].
      { apply bookmark_setitem_touches_among. among. }
      apply preserves_bind; [apply _| |intros ?].
      { apply preserves_lift, _. }
      apply preserves_ret, _.
    + apply preserves_bind; [apply _| |intros ?].
      { apply bookmark_setitem_touches_among. among. }
      apply preserves_ret, _.
Qed.

Lemma incrementing_body_touches p :
  preserves (touches (tap_stream_id p) ["updated_at"]) (incrementing_body p).
Proof.
  unfold incrementing_body. apply preserves_bind; [apply _| |intros start].
  - apply update_start_state_touches.
  - apply preserves_bind; [apply _| |intros page].
    + apply preserves_same_state, make_request_state.
    + destruct page as [[|r rs]|]; try apply preserves_ret, _.
      apply preserves_bind; [apply _| |intros ?].
      { apply last_field_preserves, _. }
      apply preserves_bind; [apply _| |intros ?].
      { apply bookmark_setitem_touches. }
      apply preserves_ret, _.
Qed.

(** Any [next()] of any generator writes at most the three cursors
    [page], [updated_at] and [journal_number] of its own stream. *)
Lemma yield_pages_next_touches p f :
  preserves (touches (tap_stream_id p) ["page"; "updated_at"; "journal_number"])
    (yield_pages_next p f).
Proof.
  assert (Hsub2 : forall (m : M (option (option (list (gmap string value)) * Frame))),
            preserves (touches (tap_stream_id p) ["page"; "updated_at"]) m ->
            preserves (touches (tap_stream_id p)
                         ["page"; "updated_at"; "journal_number"]) m).
  { intros m. apply preserves_weaken. intros w w'. apply touches_weaken.
    intros k. rewrite !list_elem_of_In. simpl. tauto. }
  assert (Hsubj : forall (m : M (option (option (list (gmap string value)) * Frame))),
            preserves (touches (tap_stream_id p) ["journal_number"]) m ->
            preserves (touches (tap_stream_id p)
                         ["page"; "updated_at"; "journal_number"]) m).
  { intros m. apply preserves_weaken. intros w w'. apply touches_weaken.
    intros k. rewrite !list_elem_of_In. simpl. tauto. }
  assert (Hsubu : forall (m : M (option (option (list (gmap string value)) * Frame))),
            preserves (touches (tap_stream_id p) ["updated_at"]) m ->
            preserves (touches (tap_stream_id p)
                         ["page"; "updated_at"; "journal_number"]) m).
  { intros m. apply preserves_weaken. intros w w'. apply touches_weaken.
    intros k. rewrite !list_elem_of_In. simpl. tauto. }
  destruct f as [|start g|g|start g|]; simpl.
  - destruct (class p).
    + apply Hsubu, incrementing_body_touches.
    + apply Hsubu, incrementing_body_touches.
    + apply preserves_bind; [apply _| |intros start].
      { apply update_start_state_touches_among. among. }
      apply preserves_bind; [apply _| |intros page].
      { apply bookmark_get_touches. }
      apply Hsub2, paginated_loop_touches.
    + apply preserves_bind; [apply _| |intros number].
      { apply bookmark_get_touches. }
      apply Hsubj, journal_loop_touches.
    + apply preserves_bind; [apply _| |intros start].
      { apply update_start_state_touches_among. among. }
      apply preserves_bind; [apply _| |intros page].
      { apply bookmark_get_touches. }
      apply Hsub2, linked_loop_touches.
    + apply preserves_bind; [apply _| |intros page].
      { apply preserves_same_state, make_request_state. }
      apply preserves_ret, _.
  - apply Hsub2, paginated_loop_touches.
  - apply Hsubj, journal_loop_touches.
  - apply Hsub2, linked_loop_touches.
  - apply preserves_ret, _.
Qed.

Lemma consume_step fuel p f w :
  consume (S fuel) p f w
    = match yield_pages_next p f w with
      | (inr (Some (page, f')), w1) =>
          let '(trace, out, w2) := consume fuel p f' w1 in
          ((page, w1) :: trace, out, w2)
      | (inr None, w1) => ([], Exhausted, w1)
      | (inl e, w1) => ([], Failed e, w1)
      end.
Proof. reflexivity. Qed.

(** A relation that every [next()] keeps holds between the start of a run
    and every world the consumer sees. *)
Lemma consume_preserves (R : World -> World -> Prop) `{!PreOrder R} p :
  (forall f, preserves R (yield_pages_next p f)) ->
  forall fuel f w, Forall (R w) (seen (consume fuel p f w)).
Proof.
  intros Hstep. induction fuel as [|fuel IH]; intros f w.
  - simpl. repeat constructor. reflexivity.
  - rewrite consume_step. specialize (Hstep f w).
    destruct (yield_pages_next p f w) as [[e|[[page f']|]] w1]; simpl in Hstep.
    + repeat constructor. exact Hstep.
    + specialize (IH f' w1).
      destruct (consume fuel p f' w1) as [[trace out] w2].
      unfold seen in *. simpl in *. constructor; [exact Hstep|].
      eapply Forall_impl; [exact IH|].
      intros w' Hw'. simpl in Hw'. etransitivity; eassumption.
    + repeat constructor. exact Hstep.
Qed.

(** C9.  The bookmark accessors, every [next()] of every generator and
    every run leave all the top-level keys of the pipeline state other than
    ["bookmarks"] and all the entries of other streams as they were: what
    they write is inside the entry of their own stream, which they create
    when it is missing. *)
Theorem engine_writes_only_its_own_entry p w :
  let sid := tap_stream_id p in
  frame sid (state w) (state (snd (_bookmark p w))) /\
  (forall key v, frame sid (state w) (state (snd (bookmark_setitem p key v w)))) /\
  (forall v, frame sid (state w) (state (snd (_set_last_updated p v w)))) /\
  frame sid (state w) (state (snd (_update_start_state p w))) /\
  (forall f, frame sid (state w) (state (snd (yield_pages_next p f w)))) /\
  (forall fuel f,
     Forall (fun w' => frame sid (state w) (state w'))
       (seen (consume fuel p f w))).
Proof.
  intros sid. subst sid.
  split; [|split; [|split; [|split; [|split]]]].
  - apply (bookmark_touches p w).
  - intros key v. apply (bookmark_setitem_touches p key v w).
  - intros v. apply (bookmark_setitem_touches p "updated_at" (normalize v) w).
  - apply (update_start_state_touches p w).
  - intros f. apply (yield_pages_next_touches p f w).
  - intros fuel f.
    eapply Forall_impl;
      [apply (consume_preserves _ p (yield_pages_next_touches p))|].
    intros w' Hw'. apply Hw'.
Qed.

(** *** The journal strategy *)

Lemma next_by_journal_number_inr curr page next_page_num :
  next_by_journal_number curr page = inr next_page_num ->
  exists r, last page = Some r /\ r !! "JournalNumber" = Some next_page_num.
Proof.
  unfold next_by_journal_number.
  destruct (last page) as [r|]; [|discriminate].
  destruct (r !! "JournalNumber") as [v|] eqn:E; [|discriminate].
  intros H. injection H as <-. eauto.
Qed.

(** A step of the loop of [JournalPull] that yields has written the
    [journal_number] cursor, and only it. *)
Lemma journal_loop_yields p g w b f' w' :
  journal_loop p g w = (inr (Some (b, f')), w') ->
  exists page next_page_num,
    b = Some page /\
    f' = JournalLoop (resumed g w next_page_num) /\
    fetched p g w w' page next_page_num /\
    cursor (state w') (tap_stream_id p) "journal_number" = Some next_page_num.
Proof.
  unfold journal_loop. intros H. binds H.
  destruct a as [[[page next_page_num] g']|]; binds H.
  2: { apply ret_inr in H. destruct H. discriminate. }
  apply ret_inr in H. destruct H as [H ->]. injection H as <- <-.
  apply paginate_next_yields in E. destruct E as (Hs & -> & Hd & Hf).
  apply bookmark_setitem_returns in E0.
  destruct E0 as (Hnum & _ & _ & (_ & Hreq' & _)).
  exists page, next_page_num. split; [reflexivity|]. split; [reflexivity|].
  split; [|exact Hnum].
  destruct Hf as (Hn & Hne & Hnext & Ha & k & Hk & Hreq).
  split; [exact Hn|]. split; [exact Hne|]. split; [exact Hnext|]. split.
  - rewrite (answer_same_requests p _ _ Hreq'). exact Ha.
  - exists k. split; [exact Hk|]. congruence.
Qed.

Lemma journal_loop_stops p g w w' :
  journal_loop p g w = (inr None, w') -> state w' = state w.
Proof.
  unfold journal_loop. intros H. binds H.
  pose proof (paginate_next_state p g w) as Hs. rewrite E in Hs. simpl in Hs.
  destruct a as [[[page next_page_num] g']|]; binds H.
  { apply ret_inr in H. destruct H. discriminate. }
  apply ret_inr in H. destruct H as [_ <-]. exact Hs.
Qed.

Lemma journal_tail_same_rest p
    (a : option (list (gmap string value) * value * Paginate)) :
  preserves same_rest
    (match a with
     | Some (page, next_num, g') =>
         bind (bookmark_setitem p "journal_number" next_num) (fun _ =>
         ret (Some (Some page, JournalLoop g')))
     | None => ret None
     end).
Proof.
  destruct a as [[[page next_num] g']|]; [|apply preserves_ret, _].
  apply preserves_bind; [apply _|apply bookmark_setitem_same_rest|intros ?].
  apply preserves_ret, _.
Qed.

(** Every [next()] of a [JournalPull] generator that returns is a step of
    its loop, on a frame that paginates by ["offset"] on the shared default
    options and takes the next offset from the page. *)
Lemma journal_step_inv p f w r w' :
  class p = JournalPull ->
  journal_frame f ->
  yield_pages_next p f w = (inr r, w') ->
  exists g w1,
    journal_loop p g w1 = (inr r, w') /\
    journal_frame (JournalLoop g) /\
    touches (tap_stream_id p) [] w w1 /\
    same_rest w w1 /\
    (f = Created ->
     curr_page_num g = py_or (cursor_get p w "journal_number") (VInt 0)) /\
    (forall g0, f = JournalLoop g0 -> g = g0 /\ w1 = w).
Proof.
  intros Hclass Hf H.
  destruct f as [|start g|g|start g|]; simpl in Hf; try (exfalso; exact Hf).
  - simpl in H. rewrite Hclass in H. apply bind_inr in H.
    destruct H as (number & w1 & E & H).
    pose proof (bookmark_get_touches p "journal_number" [] w) as Ht.
    rewrite E in Ht. simpl in Ht.
    apply bookmark_get_returns in E. destruct E as (-> & _ & _ & _ & Hr).
    eexists _, w1. split; [exact H|]. split; [simpl; auto|].
    split; [exact Ht|]. split; [exact Hr|]. split; [reflexivity|].
    intros g0 Hg0. discriminate.
  - exists g, w. split; [exact H|]. split; [exact Hf|].
    split; [reflexivity|]. split; [reflexivity|]. split; [discriminate|].
    intros g0 Hg0. injection Hg0 as <-. auto.
Qed.

(** C5.  [JournalPull]: a yielded page leaves in [journal_number] the
    [JournalNumber] of its last record, whatever the cursor was before, and
    the next request carries that number as its ["offset"]; no step writes
    the [updated_at] or the [page] cursor; the step that ends the generator
    changes no cursor at all. *)
Theorem journal_pull_tracks_last_journal_number p f w :
  class p = JournalPull ->
  journal_frame f ->
  (forall b f' w',
     yield_pages_next p f w = (inr (Some (b, f')), w') ->
     exists page r v,
       b = Some page /\ answer p w' = Some (Ok page) /\
       last page = Some r /\ r !! "JournalNumber" = Some v /\
       cursor (state w') (tap_stream_id p) "journal_number" = Some v /\
       journal_frame f' /\
       exists g', f' = JournalLoop g' /\ curr_page_num g' = v) /\
  (forall g,
     f = JournalLoop g ->
     num_pages_yielded g <= 1000000 ->
     exists n,
       requests (snd (yield_pages_next p f w))
         = repeat (the_call p (<["offset" := curr_page_num g]> (default_options w)))
             (S n) ++ requests w) /\
  (cursor (state (snd (yield_pages_next p f w))) (tap_stream_id p) "updated_at"
     = cursor (state w) (tap_stream_id p) "updated_at" /\
   cursor (state (snd (yield_pages_next p f w))) (tap_stream_id p) "page"
     = cursor (state w) (tap_stream_id p) "page") /\
  (forall w',
     yield_pages_next p f w = (inr None, w') ->
     forall key,
       cursor (state w') (tap_stream_id p) key
         = cursor (state w) (tap_stream_id p) key).
Proof.
  intros Hclass Hf. split; [|split; [|split]].
  - intros b f' w' H.
    apply journal_step_inv in H; [|assumption..].
    destruct H as (g & w1 & H & (Hkey & Hfn & Ho) & _).
    apply journal_loop_yields in H.
    destruct H as (page & next_page_num & -> & -> & Hfetched & Hnum).
    destruct Hfetched as (_ & _ & Hnext & Ha & _).
    rewrite Hfn in Hnext. apply next_by_journal_number_inr in Hnext.
    destruct Hnext as (r & Hlast & Hv).
    exists page, r, next_page_num. repeat split; auto.
    + simpl. rewrite Ho. reflexivity.
    + eexists. split; reflexivity.
  - intros g -> Hn. simpl in Hf. destruct Hf as (Hkey & _ & Ho).
    simpl. unfold journal_loop.
    destruct (loop_requests p g _ w (journal_tail_same_rest p) Hn)
      as (n & _ & Hreq).
    exists n. rewrite Hreq. unfold sent_options. rewrite Hkey, Ho. reflexivity.
  - assert (Ht : touches (tap_stream_id p) ["journal_number"] w
                   (snd (yield_pages_next p f w))).
    { destruct f as [|start g|g|start g|]; simpl in Hf; try (exfalso; exact Hf).
      - simpl. rewrite Hclass.
        apply preserves_bind; [apply _| |intros ?].
        + apply bookmark_get_touches.
        + apply journal_loop_touches.
      - apply journal_loop_touches. }
    destruct Ht as [_ Ht]. split; apply Ht; not_among.
  - intros w' H key.
    apply journal_step_inv in H; [|assumption..].
    destruct H as (g & w1 & H & _ & (_ & Ht) & _).
    apply journal_loop_stops in H. rewrite H. apply Ht. intros Hin. inversion Hin.
Qed.

(** *** The linked-transactions strategy *)

(** When the comprehension returns, it has kept the records that are not
    older than [since], in their order. *)
Lemma updated_since_inr since page kept :
  updated_since since page = inr kept ->
  kept = List.filter (not_older since) page.
Proof.
  revert kept. induction page as [|x xs IH]; intros kept; simpl.
  - intros H. injection H as <-. reflexivity.
  - unfold not_older at 1.
    destruct (x !! "UpdatedDateUTC") as [v|]; [|discriminate].
    destruct v as [|z|t|d]; simpl; try discriminate.
    destruct (updated_since since xs) as [e|ys]; [discriminate|].
    intros H. injection H as <-. rewrite (IH ys eq_refl).
    destruct (String.leb since t); reflexivity.
Qed.

(** A step of the loop of [LinkedTransactionsPull] that yields: both
    cursors are written from the page as it was fetched, and the yielded
    batch is that page without its older records. *)
Lemma linked_loop_yields p start g w b f' w' :
  linked_loop p start g w = (inr (Some (b, f')), w') ->
  exists page next_page_num,
    b = Some (List.filter (not_older (strftime start)) page) /\
    f' = LinkedLoop start (resumed g w next_page_num) /\
    fetched p g w w' page next_page_num /\
    advanced p w' page next_page_num /\
    default_options w' = match options g with
                         | Passed _ => default_options w
                         | Default => sent_options g w
                         end.
Proof.
  unfold linked_loop. intros H. binds H.
  destruct a as [[[page next_page_num] g']|]; binds H.
  2: { apply ret_inr in H. destruct H. discriminate. }
  apply ret_inr in H. destruct H as [H ->]. injection H as <- <-.
  apply paginate_next_yields in E. destruct E as (Hs & -> & Hd & Hf).
  apply bookmark_setitem_returns in E0.
  destruct E0 as (Hpage & _ & _ & Hrest0).
  apply last_field_inr in E1. destruct E1 as (<- & r & Hlast & Hv).
  apply set_last_updated_returns in E2.
  destruct E2 as (Hupd & Hkeep & _ & Hrest2).
  apply lift_inr in E3. destruct E3 as (Hkept & <-).
  apply updated_since_inr in Hkept. subst.
  pose proof (same_rest_trans _ _ _ Hrest0 Hrest2) as (Hd' & Hreq' & _ & _).
  exists page, next_page_num. split; [reflexivity|]. split; [reflexivity|].
  split; [|split].
  - destruct Hf as (Hn & Hne & Hnext & Ha & k & Hk & Hreq).
    split; [exact Hn|]. split; [exact Hne|]. split; [exact Hnext|]. split.
    + rewrite (answer_same_requests p _ _ Hreq'). exact Ha.
    + exists k. split; [exact Hk|]. congruence.
  - split.
    + rewrite Hkeep by discriminate. exact Hpage.
    + exists r. eexists. repeat split; eassumption.
  - congruence.
Qed.

Lemma linked_loop_stops p start g w w' :
  linked_loop p start g w = (inr None, w') ->
  cursor (state w') (tap_stream_id p) "page" = Some VNone /\
  (answer p w' = Some (Ok []) \/ answer p w' = Some (HttpErr 401)).
Proof.
  unfold linked_loop. intros H. binds H.
  destruct a as [[[page next_page_num] g']|]; binds H.
  { apply ret_inr in H. destruct H. discriminate. }
  apply ret_inr in H. destruct H as [_ ->].
  apply paginate_next_spec in E. destruct E as (Hs & E).
  destruct (1000000 <? num_pages_yielded g); [destruct E; discriminate|].
  destruct E as (_ & k & resp & _ & _ & Ha & Hresp).
  apply bookmark_setitem_returns in E0.
  destruct E0 as (Hpage & _ & _ & (_ & Hreq & _)).
  split; [exact Hpage|].
  rewrite (answer_same_requests p _ _ Hreq), Ha.
  destruct Hresp as [-> | ->]; auto.
Qed.

Lemma linked_tail_same_rest p start
    (a : option (list (gmap string value) * value * Paginate)) :
  preserves same_rest
    (match a with
     | Some (page, next_page_num, g') =>
         bind (bookmark_setitem p "page" next_page_num) (fun _ =>
         bind (last_field page (bookmark_property p)) (fun v =>
         bind (_set_last_updated p v) (fun _ =>
         bind (lift (updated_since (strftime start) page)) (fun kept =>
         ret (Some (Some kept, LinkedLoop start g'))))))
     | None =>
         bind (bookmark_setitem p "page" VNone) (fun _ => ret None)
     end).
Proof.
  destruct a as [[[page next_num] g']|].
  - apply preserves_bind; [apply _|apply bookmark_setitem_same_rest|intros ?].
    apply preserves_bind; [apply _|apply last_field_preserves, _|intros ?].
    apply preserves_bind; [apply _|apply bookmark_setitem_same_rest|intros ?].
    apply preserves_bind; [apply _|apply preserves_lift, _|intros ?].
    apply preserves_ret, _.
  - apply preserves_bind; [apply _|apply bookmark_setitem_same_rest|intros ?].
    apply preserves_ret, _.
Qed.

(** The first [next()] of a [LinkedTransactionsPull] generator, once the
    start cursor is there: the loop is entered on the bookmarked page, or on
    page 1, with the shared default options. *)
Lemma linked_first_step p w start w1 :
  class p = LinkedTransactionsPull ->
  _update_start_state p w = (inr start, w1) ->
  yield_pages_next p Created w
    = linked_loop p start
        (_paginate Default (py_or (cursor_get p w "page") (VInt 1)) "page"
           next_by_increment) w1.
Proof.
  intros Hclass Hstart. simpl. rewrite Hclass.
  unfold bind at 1. rewrite Hstart.
  apply update_start_state_returns in Hstart.
  destruct Hstart as ((b & Hb) & Ht & _ & _).
  unfold bind at 1. rewrite (bookmark_get_present _ _ _ _ Hb).
  rewrite (cursor_get_touches _ _ _ _ "page" Ht) by not_among.
  reflexivity.
Qed.

Lemma linked_step_inv p f w r w' :
  class p = LinkedTransactionsPull ->
  linked_frame f ->
  yield_pages_next p f w = (inr r, w') ->
  exists start g w1,
    linked_loop p start g w1 = (inr r, w') /\
    linked_frame (LinkedLoop start g) /\
    touches (tap_stream_id p) ["updated_at"] w w1 /\
    same_rest w w1 /\
    (f = Created -> _update_start_state p w = (inr start, w1)) /\
    (forall s g0, f = LinkedLoop s g0 -> start = s).
Proof.
  intros Hclass Hf H.
  destruct f as [|start g|g|start g|]; simpl in Hf; try (exfalso; exact Hf).
  - assert (Hs : exists start w1, _update_start_state p w = (inr start, w1)).
    { simpl in H. rewrite Hclass in H. apply bind_inr in H.
      destruct H as (start & w1 & E & _). eauto. }
    destruct Hs as (start & w1 & Hs).
    rewrite (linked_first_step p w start w1 Hclass Hs) in H.
    pose proof (update_start_state_returns _ _ _ _ Hs) as (_ & Ht & Hr & _).
    eexists start, _, w1. split; [exact H|].
    split; [simpl; auto|]. split; [exact Ht|]. split; [exact Hr|].
    split; [auto|]. intros s g0 Hg0. discriminate.
  - exists start, g, w. split; [exact H|]. split; [exact Hf|].
    split; [reflexivity|]. split; [reflexivity|]. split; [discriminate|].
    intros s g0 Hg0. injection Hg0 as <- _. reflexivity.
Qed.

(** *** The shared default options *)

#[export] Instance keeps_keys_preorder : PreOrder keeps_keys.
Proof.
  split.
  - intros w k H. exact H.
  - intros w1 w2 w3 H1 H2 k H. apply H2, H1, H.
Qed.

Lemma keeps_keys_same_rest w w' : same_rest w w' -> keeps_keys w w'.
Proof. intros (Hd & _) k. rewrite Hd. auto. Qed.

Lemma keeps_keys_same_options w w' :
  default_options w' = default_options w -> keeps_keys w w'.
Proof. intros Hd k. rewrite Hd. auto. Qed.

Lemma make_request_keeps_keys p o : preserves keeps_keys (_make_request p o).
Proof.
  intros w. destruct (_make_request p o w) as [r w'] eqn:E.
  unfold _make_request in E. apply on_exception_spec in E.
  apply keeps_keys_same_options, E.
Qed.

Lemma paginate_next_keeps_keys p g : preserves keeps_keys (_paginate_next p g).
Proof.
  intros w. destruct (_paginate_next p g w) as [r w'] eqn:E.
  apply paginate_next_spec in E. destruct E as (_ & E). simpl.
  destruct (1000000 <? num_pages_yielded g).
  - destruct E as (_ & ->). reflexivity.
  - destruct E as (Hd & _). intros k Hk. rewrite Hd.
    unfold sent_options.
    destruct (options g); [exact Hk|].
    rewrite lookup_insert_is_Some.
    destruct (decide (pagination_key g = k)) as [Heq|Hne];
      [left; exact Heq | right; split; [exact Hne | exact Hk]].
Qed.

Lemma same_rest_keeps_keys {A} (m : M A) :
  preserves same_rest m -> preserves keeps_keys m.
Proof. apply preserves_weaken. exact keeps_keys_same_rest. Qed.

(** No [next()] of any generator removes a key from the default options. *)
Lemma yield_pages_next_keeps_keys p f : preserves keeps_keys (yield_pages_next p f).
Proof.
  assert (Hloop : forall g (k : _ -> M (option (option (list (gmap string value)) * Frame))),
            (forall a, preserves same_rest (k a)) ->
            preserves keeps_keys (bind (_paginate_next p g) k)).
  { intros g k Hk. apply preserves_bind; [apply _| |intros a].
    - apply paginate_next_keeps_keys.
    - apply same_rest_keeps_keys, Hk. }
  assert (Hstart : preserves keeps_keys (_update_start_state p))
    by apply same_rest_keeps_keys, update_start_state_same_rest.
  assert (Hget : forall key, preserves keeps_keys (bookmark_get p key)).
  { intros key. apply same_rest_keeps_keys. unfold bookmark_get.
    apply preserves_bind; [apply _|apply bookmark_same_rest|intros ?].
    apply preserves_ret, _. }
  assert (Hinc : preserves keeps_keys (incrementing_body p)).
  { unfold incrementing_body.
    apply preserves_bind; [apply _|exact Hstart|intros start].
    apply preserves_bind; [apply _|apply make_request_keeps_keys|intros page].
    destruct page as [[|r rs]|]; try apply preserves_ret, _.
    apply same_rest_keeps_keys.
    apply preserves_bind; [apply _|apply last_field_preserves, _|intros ?].
    apply preserves_bind; [apply _|apply bookmark_setitem_same_rest|intros ?].
    apply preserves_ret, _. }
  destruct f as [|start g|g|start g|]; simpl.
  - destruct (class p); try exact Hinc.
    + apply preserves_bind; [apply _|exact Hstart|intros start].
      apply preserves_bind; [apply _|apply Hget|intros page].
      apply Hloop, paginated_tail_same_rest.
    + apply preserves_bind; [apply _|apply Hget|intros number].
      apply Hloop, journal_tail_same_rest.
    + apply preserves_bind; [apply _|exact Hstart|intros start].
      apply preserves_bind; [apply _|apply Hget|intros page].
      apply Hloop, linked_tail_same_rest.
    + apply preserves_bind; [apply _|apply make_request_keeps_keys|intros page].
      apply preserves_ret, _.
  - apply Hloop, paginated_tail_same_rest.
  - apply Hloop, journal_tail_same_rest.
  - apply Hloop, linked_tail_same_rest.
  - apply preserves_ret, _.
Qed.

(** The default options after a loop step that sent a request. *)
Lemma loop_default_options {B} p g (k : _ -> M B) w :
  (forall a, preserves same_rest (k a)) ->
  num_pages_yielded g <= 1000000 ->
  default_options (snd (bind (_paginate_next p g) k w))
    = match options g with
      | Passed _ => default_options w
      | Default => sent_options g w
      end.
Proof.
  intros Hk Hn. unfold bind.
  destruct (_paginate_next p g w) as [r w1] eqn:E.
  apply paginate_next_spec in E. destruct E as (_ & E).
  apply Z.ltb_ge in Hn. rewrite Hn in E. destruct E as (Hd & _).
  destruct r as [e|a]; simpl; [exact Hd|].
  destruct (Hk a w1) as (Hd' & _). rewrite Hd'. exact Hd.
Qed.

(** C10.  The default [options] of [_paginate] is one dictionary for the
    whole process: no step of any generator removes a key from it; a
    request of [JournalPull] leaves its ["offset"] in it; and every request
    of a later [LinkedTransactionsPull] run carries the ["offset"] found
    there next to its own ["page"], while it carries no ["offset"] when
    none has been left. *)
Theorem default_options_are_shared p w :
  (forall fuel f k,
     is_Some (default_options w !! k) ->
     Forall (fun w' => is_Some (default_options w' !! k))
       (seen (consume fuel p f w))) /\
  (forall g,
     class p = JournalPull ->
     journal_frame (JournalLoop g) ->
     num_pages_yielded g <= 1000000 ->
     default_options (snd (yield_pages_next p (JournalLoop g) w))
       = <["offset" := curr_page_num g]> (default_options w)) /\
  (class p = JournalPull ->
   mapping_ok (state w) ->
   default_options (snd (yield_pages_next p Created w))
     = <["offset" := py_or (cursor_get p w "journal_number") (VInt 0)]>
         (default_options w)) /\
  (forall start w1,
     class p = LinkedTransactionsPull ->
     _update_start_state p w = (inr start, w1) ->
     exists n o,
       requests (snd (yield_pages_next p Created w))
         = repeat (the_call p o) (S n) ++ requests w /\
       o !! "page" = Some (py_or (cursor_get p w "page") (VInt 1)) /\
       o !! "offset" = default_options w !! "offset").
Proof.
  split; [|split; [|split]].
  - intros fuel f k Hk.
    eapply Forall_impl;
      [apply (consume_preserves _ p (yield_pages_next_keeps_keys p))|].
    intros w' Hw'. apply Hw', Hk.
  - intros g Hclass (Hkey & _ & Ho) Hn. simpl. unfold journal_loop.
    rewrite (loop_default_options p g _ w (journal_tail_same_rest p) Hn).
    rewrite Ho. unfold sent_options. rewrite Hkey, Ho. reflexivity.
  - intros Hclass Hok. simpl. rewrite Hclass.
    destruct (bookmark_total p w Hok) as (b & w1 & E).
    pose proof (bookmark_returns _ _ _ _ E) as (_ & Hread & _ & (Hd & _)).
    unfold bookmark_get. unfold bind at 1. unfold bind at 1. rewrite E.
    unfold ret. unfold journal_loop.
    rewrite loop_default_options;
      [|apply journal_tail_same_rest|simpl; lia].
    simpl. unfold sent_options. simpl. rewrite Hd.
    unfold dict_get, cursor_get. rewrite Hread. reflexivity.
  - intros start w1 Hclass Hstart.
    rewrite (linked_first_step p w start w1 Hclass Hstart).
    apply update_start_state_returns in Hstart.
    destruct Hstart as (_ & _ & (Hd & Hreq & _) & _).
    unfold linked_loop.
    destruct (loop_requests p
                (_paginate Default (py_or (cursor_get p w "page") (VInt 1))
                   "page" next_by_increment) _ w1
                (linked_tail_same_rest p start)) as (n & _ & Hn).
    { simpl. lia. }
    eexists n, _. split; [rewrite Hn, Hreq; reflexivity|].
    unfold sent_options. simpl. rewrite Hd. split.
    + apply lookup_insert_eq.
    + apply lookup_insert_ne. discriminate.
Qed.

(** *** The bound on the pages of a run *)

Lemma paginate_next_over p g w :
  1000000 < num_pages_yielded g ->
  _paginate_next p g w = (inl PagesException, w).
Proof.
  intros H. unfold _paginate_next. apply Z.ltb_lt in H. rewrite H. reflexivity.
Qed.

(** Past a million yielded pages a [next()] raises and does nothing else. *)
Lemma yield_pages_next_over p f w :
  1000000 < yielded_so_far f ->
  yield_pages_next p f w = (inl PagesException, w).
Proof.
  destruct f as [|start g|g|start g|]; simpl; intros H; try lia;
    unfold paginated_loop, journal_loop, linked_loop, bind;
    rewrite (paginate_next_over p g w H); reflexivity.
Qed.

Lemma incrementing_body_yields p w b f' w' :
  incrementing_body p w = (inr (Some (b, f')), w') -> f' = AfterYield.
Proof.
  unfold incrementing_body. intros H. binds H.
  destruct a0 as [[|r rs]|]; binds H;
    apply ret_inr in H; destruct H as [H _]; congruence.
Qed.

(** A [next()] that yields is that of a generator which had yielded at most
    a million pages, and has now yielded one more. *)
Lemma yield_pages_next_counts p f w b f' w' :
  yield_pages_next p f w = (inr (Some (b, f')), w') ->
  yielded_so_far f <= 1000000 /\
  yielded_so_far f' = yielded_so_far f + 1.
Proof.
  intros H.
  assert (Hp : forall start g w0,
            paginated_loop p start g w0 = (inr (Some (b, f')), w') ->
            num_pages_yielded g <= 1000000 /\
            yielded_so_far f' = num_pages_yielded g + 1).
  { intros start g w0 H0. apply paginated_loop_yields in H0.
    destruct H0 as (page & nx & _ & -> & (Hn & _) & _). auto. }
  assert (Hj : forall g w0,
            journal_loop p g w0 = (inr (Some (b, f')), w') ->
            num_pages_yielded g <= 1000000 /\
            yielded_so_far f' = num_pages_yielded g + 1).
  { intros g w0 H0. apply journal_loop_yields in H0.
    destruct H0 as (page & nx & _ & -> & (Hn & _) & _). auto. }
  assert (Hl : forall start g w0,
            linked_loop p start g w0 = (inr (Some (b, f')), w') ->
            num_pages_yielded g <= 1000000 /\
            yielded_so_far f' = num_pages_yielded g + 1).
  { intros start g w0 H0. apply linked_loop_yields in H0.
    destruct H0 as (page & nx & _ & -> & (Hn & _) & _). auto. }
  destruct f as [|start g|g|start g|]; simpl in *.
  - destruct (class p).
    + apply incrementing_body_yields in H. subst f'. simpl. lia.
    + apply incrementing_body_yields in H. subst f'. simpl. lia.
    + do 2 (apply bind_inr in H; destruct H as (? & ? & _ & H)).
      apply Hp in H. simpl in H. lia.
    + apply bind_inr in H. destruct H as (? & ? & _ & H).
      apply Hj in H. simpl in H. lia.
    + do 2 (apply bind_inr in H; destruct H as (? & ? & _ & H)).
      apply Hl in H. simpl in H. lia.
    + apply bind_inr in H. destruct H as (? & ? & _ & H).
      apply ret_inr in H. destruct H as [H _].
      injection H as _ <-. simpl. lia.
  - eapply Hp, H.
  - eapply Hj, H.
  - eapply Hl, H.
  - apply ret_inr in H. destruct H. discriminate.
Qed.

(** A run ends within as many [next()] as there are pages left below the
    bound, plus one; it yields no page past the bound, and when it has
    reached the bound it has ended by the exception of [_paginate]. *)
Lemma consume_ends p :
  forall n f w,
    (Z.to_nat (1000001 - yielded_so_far f) <= n)%nat ->
    exists fuel trace out w',
      (fuel <= S n)%nat /\
      consume fuel p f w = (trace, out, w') /\
      (forall f', out <> Pending f') /\
      (yielded_so_far f <= 1000001 ->
       yielded_so_far f + Z.of_nat (length trace) <= 1000001) /\
      (1000000 < yielded_so_far f + Z.of_nat (length trace) ->
       out = Failed PagesException).
Proof.
  induction n as [|n IH]; intros f w Hn.
  - exists 1%nat.
    assert (Hover : 1000000 < yielded_so_far f) by lia.
    eexists [], _, w. split; [lia|]. split.
    { rewrite consume_step, (yield_pages_next_over p f w Hover). reflexivity. }
    split; [discriminate|]. split; [simpl; lia | reflexivity].
  - destruct (yield_pages_next p f w) as [[e|[[b f']|]] w1] eqn:E.
    + exists 1%nat. eexists [], _, w1. split; [lia|]. split.
      { rewrite consume_step, E. reflexivity. }
      split; [discriminate|]. split; [simpl; lia|].
      simpl. intros Hover.
      rewrite (yield_pages_next_over p f w) in E by lia. congruence.
    + pose proof (yield_pages_next_counts _ _ _ _ _ _ E) as (Hle & Hcount).
      destruct (IH f' w1) as (fuel & trace & out & w2 & Hf & Hrun & Hend & Hbound & Hfail).
      { lia. }
      exists (S fuel), ((b, w1) :: trace), out, w2. split; [lia|]. split.
      { rewrite consume_step, E, Hrun. reflexivity. }
      split; [exact Hend|]. simpl length. split.
      * intros _. lia.
      * intros Hover. apply Hfail. lia.
    + exists 1%nat. eexists [], _, w1. split; [lia|]. split.
      { rewrite consume_step, E. reflexivity. }
      split; [discriminate|]. split; [simpl; lia|].
      simpl. intros Hover.
      rewrite (yield_pages_next_over p f w) in E by lia. congruence.
Qed.

(** A step of the loop of [JournalPull] on a page that came at the first
    attempt yields it. *)
Lemma journal_loop_progress p g w page r v :
  num_pages_yielded g <= 1000000 ->
  mapping_ok (state w) ->
  get_next_page_num g = next_by_journal_number ->
  xero p (length (requests w)) (the_call p (sent_options g w)) = Ok page ->
  last page = Some r ->
  r !! "JournalNumber" = Some v ->
  exists w',
    journal_loop p g w
      = (inr (Some (Some page, JournalLoop (resumed g w v))), w') /\
    mapping_ok (state w').
Proof.
  intros Hn Hok Hfn Hpage Hlast Hv.
  unfold journal_loop, _paginate_next.
  apply Z.ltb_ge in Hn. rewrite Hn.
  unfold bind at 1. unfold bind at 1. rewrite set_pagination_key_eq. simpl snd.
  set (w1 := match options g with
             | Passed _ => w
             | Default => with_default_options (sent_options g w) w
             end).
  assert (Hw1 : state w1 = state w /\ requests w1 = requests w)
    by (subst w1; destruct (options g); auto).
  destruct Hw1 as (Hs1 & Hr1).
  destruct (make_request_first_answer p (sent_options g w) w1 (Ok page))
    as (w2 & E & _ & Hs2 & _).
  { rewrite Hr1. exact Hpage. }
  { discriminate. }
  simpl in E. unfold bind at 1. rewrite E. simpl fst.
  destruct page as [|x xs]; [discriminate|].
  assert (Hnext : get_next_page_num g (curr_page_num g) (x :: xs) = inr v).
  { rewrite Hfn. unfold next_by_journal_number. rewrite Hlast, Hv. reflexivity. }
  rewrite Hnext.
  destruct (bookmark_setitem_total p "journal_number" v w2) as (w3 & E3).
  { unfold mapping_ok. rewrite Hs2, Hs1. exact Hok. }
  unfold bind, ret. rewrite E3.
  exists w3. split.
  - unfold resumed. simpl. reflexivity.
  - apply bookmark_setitem_returns in E3. destruct E3 as (Hc & _).
    apply stream_entry_cursor in Hc. destruct Hc as (b & Hb).
    eapply mapping_ok_entry, Hb.
Qed.

(** With a backend whose pages never run out, the loop of [JournalPull]
    yields until the bound and then raises. *)
Lemma journal_loop_runs_away p page r v :
  (forall n c, xero p n c = Ok page) ->
  last page = Some r ->
  r !! "JournalNumber" = Some v ->
  forall n g w,
    get_next_page_num g = next_by_journal_number ->
    mapping_ok (state w) ->
    num_pages_yielded g = 1000001 - Z.of_nat n ->
    exists trace w',
      consume (S n) p (JournalLoop g) w = (trace, Failed PagesException, w') /\
      length trace = n.
Proof.
  intros Hpage Hlast Hv. induction n as [|n IH]; intros g w Hfn Hok Hnum.
  - exists [], w. split; [|reflexivity].
    rewrite consume_step, (yield_pages_next_over p (JournalLoop g) w);
      [reflexivity | simpl; lia].
  - destruct (journal_loop_progress p g w page r v) as (w1 & E & Hok1); auto.
    { lia. }
    destruct (IH (resumed g w v) w1) as (trace & w2 & Hrun & Hlen); auto.
    { simpl. lia. }
    exists ((Some page, w1) :: trace), w2. split.
    + rewrite consume_step. simpl yield_pages_next. rewrite E, Hrun. reflexivity.
    + simpl. rewrite Hlen. reflexivity.
Qed.

(** C7.  Whatever the backend answers, a run of any generator ends, by
    return or by an exception, within 1000002 [next()]; it yields at most
    1000001 pages, and a run that has yielded more than a million pages has
    ended by the exception of [_paginate].  With a backend whose pages never
    run out, a [JournalPull] run ends by that exception after 1000001
    pages. *)
Theorem pagination_is_bounded p w :
  (exists fuel trace out w',
     Z.of_nat fuel <= 1000002 /\
     consume fuel p (yield_pages p) w = (trace, out, w') /\
     (forall f, out <> Pending f) /\
     Z.of_nat (length trace) <= 1000001 /\
     (1000000 < Z.of_nat (length trace) -> out = Failed PagesException)) /\
  (forall page r v,
     class p = JournalPull ->
     mapping_ok (state w) ->
     (forall n c, xero p n c = Ok page) ->
     last page = Some r ->
     r !! "JournalNumber" = Some v ->
     exists fuel trace w',
       consume fuel p (yield_pages p) w = (trace, Failed PagesException, w') /\
       Z.of_nat (length trace) = 1000001).
Proof.
  split.
  - destruct (consume_ends p (Z.to_nat 1000001) (yield_pages p) w)
      as (fuel & trace & out & w' & Hf & Hrun & Hend & Hbound & Hfail).
    { unfold yield_pages. cbn [yielded_so_far]. lia. }
    exists fuel, trace, out, w'. unfold yield_pages in Hbound, Hfail.
    cbn [yielded_so_far] in Hbound, Hfail.
    split; [lia|]. split; [exact Hrun|]. split; [exact Hend|].
    split; [lia | exact Hfail].
  - intros page r v Hclass Hok Hpage Hlast Hv.
    destruct (bookmark_total p w Hok) as (b & w1 & E).
    pose proof (bookmark_returns _ _ _ _ E) as (Hentry & _).
    set (g := _paginate Default (py_or (dict_get b "journal_number") (VInt 0))
                "offset" next_by_journal_number).
    assert (Hzero : num_pages_yielded g <= 1000000) by (simpl; lia).
    destruct (journal_loop_progress p g w1 page r v Hzero
                (mapping_ok_entry _ _ _ Hentry) eq_refl (Hpage _ _) Hlast Hv)
      as (w2 & E2 & Hok2).
    assert (Hone : num_pages_yielded (resumed g w1 v)
                   = 1000001 - Z.of_nat (Z.to_nat 1000000)).
    { replace (num_pages_yielded (resumed g w1 v)) with 1 by reflexivity. lia. }
    destruct (journal_loop_runs_away p page r v Hpage Hlast Hv
                (Z.to_nat 1000000) (resumed g w1 v) w2 eq_refl Hok2 Hone)
      as (trace & w3 & Hrun & Hlen).
    exists (S (S (Z.to_nat 1000000))), ((Some page, w2) :: trace), w3. split.
    + rewrite consume_step. unfold yield_pages. simpl yield_pages_next.
      rewrite Hclass. unfold bookmark_get. unfold bind at 1. unfold bind at 1.
      rewrite E. unfold ret. fold g. rewrite E2, Hrun. reflexivity.
    + simpl length. rewrite Hlen. lia.
Qed.

(** *** The [updated_at] cursor along a run *)

Lemma make_request_returns p o w page w' :
  _make_request p o w = (inr (Some page), w') ->
  answer p w' = Some (Ok page) /\ state w' = state w.
Proof.
  unfold _make_request. intros H. apply on_exception_spec in H.
  destruct H as (Hs & _ & k & resp & _ & _ & _ & Ha & Hr & _).
  split; [|exact Hs]. rewrite Ha. f_equal.
  destruct resp as [recs|code]; simpl in Hr; [congruence|].
  destruct (code =? 401); [discriminate|].
  destruct (code =? 503); discriminate.
Qed.

(** The one yield of [IncrementingPull]. *)
Lemma incrementing_body_yields_page p w b f' w' :
  incrementing_body p w = (inr (Some (b, f')), w') ->
  exists page r v,
    b = Some page /\ f' = AfterYield /\
    answer p w' = Some (Ok page) /\
    last page = Some r /\ r !! bookmark_property p = Some v /\
    cursor (state w') (tap_stream_id p) "updated_at" = Some (normalize v).
Proof.
  unfold incrementing_body. intros H.
  apply bind_inr in H. destruct H as (start & w1 & _ & H).
  apply bind_inr in H. destruct H as (page & w2 & E & H).
  destruct page as [[|x xs]|];
    try (apply ret_inr in H; destruct H; discriminate).
  apply make_request_returns in E. destruct E as (Ha & _).
  apply bind_inr in H. destruct H as (v & w3 & Ef & H).
  apply bind_inr in H. destruct H as (u & w4 & Es & H).
  apply ret_inr in H. destruct H as [H ->]. injection H as <- <-.
  apply last_field_inr in Ef. destruct Ef as (<- & r & Hlast & Hv).
  apply set_last_updated_returns in Es.
  destruct Es as (Hc & _ & _ & (_ & Hreq & _)).
  exists (x :: xs), r, v. repeat split; auto.
  rewrite (answer_same_requests p _ _ Hreq). exact Ha.
Qed.

(** A yield of a generator that keeps [updated_at]: the frame stays one of
    its frames, the cursor is that of the last record of the fetched page,
    and the batch is that page, filtered for [LinkedTransactionsPull]. *)
Lemma tracking_step p f w b f' w' :
  tracking_frame p f ->
  yield_pages_next p f w = (inr (Some (b, f')), w') ->
  tracking_frame p f' /\ follows_last_record p (b, w') /\ yields_fetched p (b, w').
Proof.
  unfold tracking_frame, follows_last_record, yields_fetched, fetched_page.
  destruct (class p) eqn:Hclass; intros Hf H; try contradiction; simpl fst; simpl snd.
  - destruct Hf as [-> | ->]; simpl in H; rewrite ?Hclass in H.
    + apply incrementing_body_yields_page in H.
      destruct H as (page & r & v & -> & -> & Ha & Hlast & Hv & Hc).
      rewrite Ha. split; [auto|]. split; [eauto|reflexivity].
    + apply ret_inr in H. destruct H. discriminate.
  - destruct Hf as [-> | ->]; simpl in H; rewrite ?Hclass in H.
    + apply incrementing_body_yields_page in H.
      destruct H as (page & r & v & -> & -> & Ha & Hlast & Hv & Hc).
      rewrite Ha. split; [auto|]. split; [eauto|reflexivity].
    + apply ret_inr in H. destruct H. discriminate.
  - apply paginated_step_inv in H; [|assumption..].
    destruct H as (start & g & w1 & H & (Hkey & Hfn & o & Ho) & _ & _).
    apply paginated_loop_yields in H.
    destruct H as (page & nx & -> & -> & Hfetched & Hadv & _).
    destruct Hfetched as (_ & _ & _ & Ha & _).
    destruct Hadv as (_ & r & v & Hlast & Hv & Hc).
    rewrite Ha. split; [|split; [eauto|reflexivity]].
    simpl. rewrite Ho. eauto.
  - apply linked_step_inv in H; [|assumption..].
    destruct H as (start & g & w1 & H & (Hkey & Hfn & Ho) & _).
    apply linked_loop_yields in H.
    destruct H as (page & nx & -> & -> & Hfetched & Hadv & _).
    destruct Hfetched as (_ & _ & _ & Ha & _).
    destruct Hadv as (_ & r & v & Hlast & Hv & Hc).
    rewrite Ha. split; [|split; [eauto|eauto]].
    simpl. rewrite Ho. auto.
Qed.

(** What holds at every yield of a step holds along the trace of a run. *)
Lemma consume_trace p (I : Frame -> Prop)
    (P : option (list (gmap string value)) * World -> Prop) :
  (forall f w b f' w',
     I f -> yield_pages_next p f w = (inr (Some (b, f')), w') ->
     I f' /\ P (b, w')) ->
  forall fuel f w, I f -> Forall P (fst (fst (consume fuel p f w))).
Proof.
  intros Hstep. induction fuel as [|fuel IH]; intros f w Hf.
  - constructor.
  - rewrite consume_step.
    destruct (yield_pages_next p f w) as [[e|[[b f']|]] w1] eqn:E;
      try constructor.
    destruct (Hstep _ _ _ _ _ Hf E) as (Hf' & HP).
    specialize (IH f' w1 Hf').
    destruct (consume fuel p f' w1) as [[trace out] w2]. simpl in *.
    constructor; assumption.
Qed.

Lemma stamps_last p page r v :
  last page = Some r -> r !! bookmark_property p = Some v ->
  normalize v ∈ stamps p page.
Proof.
  intros Hlast Hv. apply last_Some in Hlast. destruct Hlast as (l' & ->).
  unfold stamps. rewrite omap_app. apply elem_of_app. right.
  simpl. rewrite Hv. simpl. constructor.
Qed.

Lemma written_cons p bw trace x :
  cursor (state (snd bw)) (tap_stream_id p) "updated_at" = Some x ->
  written p (bw :: trace) = x :: written p trace.
Proof. intros H. unfold written. simpl. rewrite H. reflexivity. Qed.

(** Every written cursor is a stamp of a fetched page. *)
Lemma written_among_stamps p trace :
  Forall (follows_last_record p) trace ->
  forall x, x ∈ written p trace -> x ∈ fetched_stamps p trace.
Proof.
  induction 1 as [|bw trace (r & v & Hlast & Hv & Hc) _ IH]; intros x Hx.
  - inversion Hx.
  - rewrite (written_cons _ _ _ _ Hc) in Hx.
    unfold fetched_stamps. simpl. apply elem_of_app.
    apply elem_of_cons in Hx. destruct Hx as [-> | Hx].
    + left. eapply stamps_last; eassumption.
    + right. apply IH, Hx.
Qed.

(** When the stamps of the fetched pages ascend along the run, so do the
    written cursors. *)
Lemma written_sorted p (R : value -> value -> Prop) trace :
  Forall (follows_last_record p) trace ->
  StronglySorted R (fetched_stamps p trace) ->
  StronglySorted R (written p trace).
Proof.
  induction 1 as [|bw trace Hbw Htrace IH]; intros Hsorted.
  - constructor.
  - destruct Hbw as (r & v & Hlast & Hv & Hc).
    rewrite (written_cons _ _ _ _ Hc).
    unfold fetched_stamps in Hsorted. simpl in Hsorted.
    apply StronglySorted_app in Hsorted.
    destruct Hsorted as (Hcross & _ & Hrest).
    constructor; [apply IH, Hrest|].
    apply Forall_forall. intros y Hy.
    apply Hcross.
    + eapply stamps_last; eassumption.
    + apply written_among_stamps; assumption.
Qed.

Lemma written_length p trace :
  Forall (follows_last_record p) trace ->
  length (written p trace) = length trace.
Proof.
  induction 1 as [|bw trace (r & v & _ & _ & Hc) _ IH]; [reflexivity|].
  rewrite (written_cons _ _ _ _ Hc). simpl. rewrite IH. reflexivity.
Qed.

(** C2, as amended.  For the generators that keep an [updated_at] cursor
    ([IncrementingPull], [BankTransfersPull], [PaginatedPull],
    [LinkedTransactionsPull]): at each yield of a run the cursor is the
    bookmark property of the last record of the page fetched for that
    yield, a datetime as its ISO text; the yielded batch is that page
    (filtered, for [LinkedTransactionsPull]); and when the bookmark
    properties of the fetched records ascend along the run, in any order
    [R], the written cursors ascend in that order. *)
Theorem updated_at_follows_last_record p fuel f w :
  tracking_frame p f ->
  Forall (follows_last_record p) (fst (fst (consume fuel p f w))) /\
  Forall (yields_fetched p) (fst (fst (consume fuel p f w))) /\
  length (written p (fst (fst (consume fuel p f w))))
    = length (fst (fst (consume fuel p f w))) /\
  forall R : value -> value -> Prop,
    StronglySorted R (fetched_stamps p (fst (fst (consume fuel p f w)))) ->
    StronglySorted R (written p (fst (fst (consume fuel p f w)))).
Proof.
  intros Hf.
  assert (H1 : Forall (follows_last_record p) (fst (fst (consume fuel p f w)))).
  { apply (consume_trace p (tracking_frame p)); [|exact Hf].
    intros f0 w0 b f' w' Hf0 E.
    destruct (tracking_step _ _ _ _ _ _ Hf0 E) as (A & B & _). auto. }
  split; [exact H1|]. split; [|split].
  - apply (consume_trace p (tracking_frame p)); [|exact Hf].
    intros f0 w0 b f' w' Hf0 E.
    destruct (tracking_step _ _ _ _ _ _ Hf0 E) as (A & _ & C). auto.
  - apply written_length, H1.
  - intros R. apply written_sorted, H1.
Qed.

(** *** [LinkedTransactionsPull] next to [PaginatedPull] *)

Lemma alike_with_state s w1 w2 :
  alike w1 w2 -> alike (with_state s w1) (with_state s w2).
Proof. intros [_ H]. split; [reflexivity | exact H]. Qed.

Lemma agree_ret {A B} (R : A -> B -> Prop) a b :
  R a b -> agree (both R) (ret a) (ret b).
Proof. intros H w1 w2 Hw. split; [exact Hw | exact H]. Qed.

Lemma agree_raise {A B} (R : A -> B -> Prop) e :
  agree (both R) (@raise _ A e) (@raise _ B e).
Proof. intros w1 w2 Hw. split; [exact Hw | reflexivity]. Qed.

Lemma agree_lift {A} (r : exn + A) : agree (both eq) (lift r) (lift r).
Proof.
  intros w1 w2 Hw. rewrite !lift_eq. split; [exact Hw|].
  destruct r; reflexivity.
Qed.

(** Two sequences agree when their heads agree and their tails agree on
    related values; a relation on results that holds of an exception raised
    on both sides is enough for the whole. *)
Lemma agree_bind {A1 A2 B1 B2} (RA : A1 -> A2 -> Prop)
    (R : exn + B1 -> exn + B2 -> Prop)
    (m1 : M A1) (m2 : M A2) (k1 : A1 -> M B1) (k2 : A2 -> M B2) :
  (forall e, R (inl e) (inl e)) ->
  agree (both RA) m1 m2 ->
  (forall a1 a2, RA a1 a2 -> agree R (k1 a1) (k2 a2)) ->
  agree R (bind m1 k1) (bind m2 k2).
Proof.
  intros Hexn Hm Hk w1 w2 Hw. unfold bind.
  destruct (Hm w1 w2 Hw) as [Hw' Hr].
  destruct (m1 w1) as [[e1|a1] w1'], (m2 w2) as [[e2|a2] w2'];
    simpl in *; try contradiction.
  - subst e2. split; [exact Hw' | apply Hexn].
  - apply Hk; assumption.
Qed.

Lemma both_exn {A B} (R : A -> B -> Prop) e : both R (inl e) (inl e).
Proof. reflexivity. Qed.

Lemma agree_bookmark p1 p2 :
  tap_stream_id p1 = tap_stream_id p2 ->
  agree (both eq) (_bookmark p1) (_bookmark p2).
Proof.
  intros Hsid w1 w2 [Hs Hl]. unfold _bookmark. rewrite Hsid, Hs.
  destruct (state w2 !! "bookmarks") as [[bs|v]|];
    [destruct (bs !! tap_stream_id p2)|..]; simpl;
    (split; [split; simpl; congruence | reflexivity]).
Qed.

Lemma agree_bookmark_setitem p1 p2 key v :
  tap_stream_id p1 = tap_stream_id p2 ->
  agree (both eq) (bookmark_setitem p1 key v) (bookmark_setitem p2 key v).
Proof.
  intros Hsid w1 w2 Hw. unfold bookmark_setitem.
  destruct (agree_bookmark p1 p2 Hsid w1 w2 Hw) as [[Hs Hl] Hr].
  destruct (_bookmark p1 w1) as [[e1|b1] w1'],
           (_bookmark p2 w2) as [[e2|b2] w2'];
    simpl in *; try contradiction.
  - subst. split; [split; assumption | reflexivity].
  - subst. rewrite Hsid, Hs. split; [split; [reflexivity | exact Hl] | reflexivity].
Qed.

Lemma agree_bookmark_get p1 p2 key :
  tap_stream_id p1 = tap_stream_id p2 ->
  agree (both eq) (bookmark_get p1 key) (bookmark_get p2 key).
Proof.
  intros Hsid. unfold bookmark_get.
  apply agree_bind with (RA := eq);
    [apply both_exn | apply agree_bookmark, Hsid|].
  intros b1 b2 <-. apply agree_ret. reflexivity.
Qed.

Lemma agree_bookmark_getitem p1 p2 key :
  tap_stream_id p1 = tap_stream_id p2 ->
  agree (both eq) (bookmark_getitem p1 key) (bookmark_getitem p2 key).
Proof.
  intros Hsid. unfold bookmark_getitem.
  apply agree_bind with (RA := eq);
    [apply both_exn | apply agree_bookmark, Hsid|].
  intros b1 b2 <-. destruct (b1 !! key).
  - apply agree_ret. reflexivity.
  - apply agree_raise.
Qed.

Lemma agree_update_start_state p1 p2 :
  tap_stream_id p1 = tap_stream_id p2 ->
  config p1 = config p2 ->
  agree (both eq) (_update_start_state p1) (_update_start_state p2).
Proof.
  intros Hsid Hcfg. unfold _update_start_state.
  apply agree_bind with (RA := eq);
    [apply both_exn | apply agree_bookmark_get, Hsid|].
  intros u1 u2 <-.
  apply agree_bind with (RA := eq); [apply both_exn| |].
  - destruct (truthy u1); [apply agree_ret; reflexivity|].
    rewrite Hcfg. unfold getitem.
    destruct (config p2 !! "start_date") as [sd|].
    + apply agree_bind with (RA := eq);
        [apply both_exn | apply agree_ret; reflexivity|].
      intros s1 s2 <-. apply agree_bookmark_setitem, Hsid.
    + apply agree_bind with (RA := eq);
        [apply both_exn | apply agree_raise|].
      intros s1 s2 <-. apply agree_bookmark_setitem, Hsid.
  - intros [] [] _.
    apply agree_bind with (RA := eq);
      [apply both_exn | apply agree_bookmark_getitem, Hsid|].
    intros v1 v2 <-. apply agree_lift.
Qed.

Lemma agree_make_request_body p1 p2 o1 o2 :
  (forall n c1 c2, xero p1 n c1 = xero p2 n c2) ->
  agree (both eq) (_make_request_body p1 o1) (_make_request_body p2 o2).
Proof.
  intros Hx w1 w2 [Hs Hl]. rewrite !make_request_body_eq. simpl fst. simpl snd.
  rewrite Hl, (Hx _ (the_call p1 o1) (the_call p2 o2)).
  destruct (xero p2 (length (requests w2)) (the_call p2 o2)) as [recs|code].
  - split; [split; simpl; congruence | reflexivity].
  - split.
    + destruct (code =? 401); split; simpl; congruence.
    + simpl. destruct (code =? 401); [reflexivity|].
      destruct (code =? 503); reflexivity.
Qed.

Lemma agree_on_exception {A} factor (t1 t2 : M A) :
  agree (both eq) t1 t2 ->
  forall left n,
    agree (both eq) (on_exception factor left n t1) (on_exception factor left n t2).
Proof.
  intros Ht. induction left as [|left IH]; intros n w1 w2 Hw; simpl;
    destruct (Ht w1 w2 Hw) as [[Hs Hl] Hr];
    destruct (t1 w1) as [[e1|a1] w1'], (t2 w2) as [[e2|a2] w2'];
    simpl in *; try contradiction; subst.
  - destruct e2; (split; [split; assumption | reflexivity]).
  - split; [split; assumption | reflexivity].
  - destruct e2; try (split; [split; assumption | reflexivity]).
    apply IH. split; assumption.
  - split; [split; assumption | reflexivity].
Qed.

Lemma agree_make_request p1 p2 o1 o2 :
  (forall n c1 c2, xero p1 n c1 = xero p2 n c2) ->
  agree (both eq) (_make_request p1 o1) (_make_request p2 o2).
Proof.
  intros Hx. apply agree_on_exception, agree_make_request_body, Hx.
Qed.

Lemma agree_paginate_next p1 p2 g1 g2 :
  (forall n c1 c2, xero p1 n c1 = xero p2 n c2) ->
  same_position g1 g2 ->
  agree (both same_fetch) (_paginate_next p1 g1) (_paginate_next p2 g2).
Proof.
  intros Hx (Hn & Hc & Hfn). unfold _paginate_next. rewrite Hn.
  destruct (1000000 <? num_pages_yielded g2); [apply agree_raise|].
  intros w1 w2 Hw. unfold bind. rewrite !set_pagination_key_eq.
  simpl snd. simpl fst.
  set (w1' := match options g1 with
              | Passed _ => w1
              | Default => with_default_options (sent_options g1 w1) w1
              end).
  set (w2' := match options g2 with
              | Passed _ => w2
              | Default => with_default_options (sent_options g2 w2) w2
              end).
  assert (Hw' : alike w1' w2').
  { destruct Hw as [Hs Hl]. subst w1' w2'.
    destruct (options g1), (options g2); split; simpl; assumption. }
  destruct (agree_make_request p1 p2 (sent_options g1 w1) (sent_options g2 w2)
              Hx w1' w2' Hw') as [Ha Hr].
  destruct (_make_request p1 (sent_options g1 w1) w1') as [[e1|page1] w1''],
           (_make_request p2 (sent_options g2 w2) w2') as [[e2|page2] w2''];
    simpl in *; try contradiction; subst.
  - split; [exact Ha | reflexivity].
  - destruct page2 as [[|x xs]|]; try (split; [exact Ha | exact I]).
    rewrite Hfn, Hc.
    destruct (get_next_page_num g2 (curr_page_num g2) (x :: xs)) as [e|nx];
      simpl; (split; [exact Ha|]); [reflexivity|].
    repeat split; simpl; congruence.
Qed.

(** A step of the loop of [LinkedTransactionsPull] next to a step of the
    loop of [PaginatedPull], for the same stream, at the same position and
    with a backend that answers by the number of the call: they leave the
    same pipeline state, and the former yields the page of the latter,
    filtered. *)
Lemma agree_loops p1 p2 start1 start2 g1 g2 :
  tap_stream_id p1 = tap_stream_id p2 ->
  bookmark_property p1 = bookmark_property p2 ->
  (forall n c1 c2, xero p1 n c1 = xero p2 n c2) ->
  same_position g1 g2 ->
  agree filtered_step (linked_loop p1 start1 g1) (paginated_loop p2 start2 g2).
Proof.
  intros Hsid Hprop Hx Hpos. unfold linked_loop, paginated_loop.
  apply agree_bind with (RA := same_fetch);
    [reflexivity | apply agree_paginate_next; assumption|].
  intros a1 a2 Ha.
  destruct a1 as [[[page1 next1] g1']|], a2 as [[[page2 next2] g2']|];
    simpl in Ha; try contradiction.
  - destruct Ha as (<- & <- & Hpos').
    apply agree_bind with (RA := eq);
      [reflexivity | apply agree_bookmark_setitem, Hsid|].
    intros [] [] _. rewrite Hprop.
    apply agree_bind with (RA := eq); [reflexivity| |].
    { intros w1 w2 Hw. unfold last_field, getitem.
      destruct (last page1) as [r|]; [destruct (r !! bookmark_property p2)|];
        (split; [exact Hw | reflexivity]). }
    intros v1 v2 <-.
    apply agree_bind with (RA := eq);
      [reflexivity | apply agree_bookmark_setitem, Hsid|].
    intros [] [] _ w1 w2 Hw. unfold bind. rewrite lift_eq. simpl.
    destruct (updated_since (strftime start1) page1) as [e|kept] eqn:E; simpl.
    + split; [exact Hw|]. left. eauto.
    + split; [exact Hw|]. right.
      apply updated_since_inr in E. subst kept.
      exists page1, (strftime start1), (LinkedLoop start1 g1').
      split; [reflexivity|]. split; [reflexivity | exact Hpos'].
  - apply agree_bind with (RA := eq);
      [reflexivity | apply agree_bookmark_setitem, Hsid|].
    intros [] [] _ w1 w2 Hw. split; [exact Hw | reflexivity].
Qed.

(** The same for whole steps of the two generators. *)
Lemma agree_steps p1 p2 f1 f2 :
  class p1 = LinkedTransactionsPull ->
  class p2 = PaginatedPull ->
  tap_stream_id p1 = tap_stream_id p2 ->
  config p1 = config p2 ->
  (forall n c1 c2, xero p1 n c1 = xero p2 n c2) ->
  in_step f1 f2 ->
  agree filtered_step (yield_pages_next p1 f1) (yield_pages_next p2 f2).
Proof.
  intros Hc1 Hc2 Hsid Hcfg Hx Hf.
  assert (Hprop : bookmark_property p1 = bookmark_property p2)
    by (unfold bookmark_property; rewrite Hc1, Hc2; reflexivity).
  destruct f1 as [|s1 g1|g1|s1 g1|], f2 as [|s2 g2|g2|s2 g2|];
    simpl in Hf; try contradiction; simpl yield_pages_next.
  - rewrite Hc1, Hc2.
    apply agree_bind with (RA := eq);
      [reflexivity | apply agree_update_start_state; assumption|].
    intros start1 start2 <-.
    apply agree_bind with (RA := eq);
      [reflexivity | apply agree_bookmark_get, Hsid|].
    intros page1 page2 <-.
    apply agree_loops; try assumption. repeat split.
  - apply agree_loops; assumption.
Qed.

(** C6.  [LinkedTransactionsPull]: the first request of a run asks for the
    bookmarked page, or for page 1; a yielded batch is the fetched page
    without the records whose ["UpdatedDateUTC"] text is before the text of
    the start cursor of the run, in the order of the page; the [page] and
    [updated_at] cursors are written from the page as fetched, by the rule
    of [PaginatedPull] ([advanced]); the generator ends with the [page]
    cursor set to [None]; and next to a [PaginatedPull] generator for the
    same stream, at the same position and on a backend that answers by the
    number of the call, a step leaves the same pipeline state and yields
    the page of that generator, filtered. *)
Theorem linked_pull_filters_after_advancing p f w :
  class p = LinkedTransactionsPull ->
  linked_frame f ->
  (forall start w1,
     f = Created ->
     _update_start_state p w = (inr start, w1) ->
     exists n,
       requests (snd (yield_pages_next p f w))
         = repeat (the_call p (<["page" := py_or (cursor_get p w "page") (VInt 1)]>
                                 (default_options w))) (S n)
           ++ requests w) /\
  (forall b f' w',
     yield_pages_next p f w = (inr (Some (b, f')), w') ->
     exists page n start g',
       answer p w' = Some (Ok page) /\ page <> [] /\
       b = Some (List.filter (not_older (strftime start)) page) /\
       (exists c earlier, requests w' = c :: earlier /\
                          call_options c !! "page" = Some (VInt n)) /\
       advanced p w' page (VInt (n + 1)) /\
       f' = LinkedLoop start g' /\ curr_page_num g' = VInt (n + 1) /\
       linked_frame f' /\
       (f = Created -> exists w1, _update_start_state p w = (inr start, w1)) /\
       (forall s g, f = LinkedLoop s g -> start = s)) /\
  (forall w',
     yield_pages_next p f w = (inr None, w') ->
     cursor (state w') (tap_stream_id p) "page" = Some VNone /\
     (answer p w' = Some (Ok []) \/ answer p w' = Some (HttpErr 401))) /\
  (forall p2 f2 w2,
     class p2 = PaginatedPull ->
     tap_stream_id p = tap_stream_id p2 ->
     config p = config p2 ->
     (forall n c1 c2, xero p n c1 = xero p2 n c2) ->
     in_step f f2 ->
     alike w w2 ->
     alike (snd (yield_pages_next p f w)) (snd (yield_pages_next p2 f2 w2)) /\
     filtered_step (fst (yield_pages_next p f w))
       (fst (yield_pages_next p2 f2 w2))).
Proof.
  intros Hclass Hf. split; [|split; [|split]].
  - intros start w1 -> Hstart.
    rewrite (linked_first_step p w start w1 Hclass Hstart).
    apply update_start_state_returns in Hstart.
    destruct Hstart as (_ & _ & (Hd & Hreq & _) & _).
    unfold linked_loop.
    destruct (loop_requests p
                (_paginate Default (py_or (cursor_get p w "page") (VInt 1))
                   "page" next_by_increment) _ w1
                (linked_tail_same_rest p start)) as (n & _ & Hn).
    { simpl. lia. }
    exists n. rewrite Hn, Hreq. unfold sent_options. simpl. rewrite Hd.
    reflexivity.
  - intros b f' w' H.
    apply linked_step_inv in H; [|assumption..].
    destruct H as (start & g & w1 & H & (Hkey & Hfn & Ho) & _ & _ & Hc & Hl).
    apply linked_loop_yields in H.
    destruct H as (page & next_page_num & -> & -> & Hfetched & Hadv & _).
    destruct Hfetched as (_ & Hne & Hnext & Ha & k & _ & Hreq).
    rewrite Hfn in Hnext. apply next_by_increment_inr in Hnext.
    destruct Hnext as (n & Hcurr & ->).
    exists page, n, start. eexists.
    split; [exact Ha|]. split; [exact Hne|]. split; [reflexivity|].
    split; [|split; [exact Hadv|]].
    + exists (the_call p (sent_options g w1)),
             (repeat (the_call p (sent_options g w1)) k ++ requests w1).
      split; [exact Hreq|]. simpl. unfold sent_options.
      rewrite Hkey, Hcurr. apply lookup_insert_eq.
    + split; [reflexivity|]. split; [reflexivity|]. split.
      { simpl. rewrite Ho. auto. }
      split; [|exact Hl].
      intros Hcr. eauto.
  - intros w' H.
    apply linked_step_inv in H; [|assumption..].
    destruct H as (start & g & w1 & H & _).
    apply linked_loop_stops in H. exact H.
  - intros p2 f2 w2 Hc2 Hsid Hcfg Hx Hstep Hw.
    apply (agree_steps p p2 f f2); assumption.
Qed.

(** The shape of a step that is known to yield the batch [b]. *)
Lemma yields_shape {A B C} (r : (exn + option (A * B)) * C) (b : A) :
  match fst r with
  | inr (Some (b', _)) => b' = b
  | _ => False
  end ->
  exists f w, r = (inr (Some (b, f)), w).
Proof.
  destruct r as [[e|[[b' f]|]] w]; simpl; try contradiction.
  intros ->. eauto.
Qed.

End Generators.

(** ** Further properties of the engine *)

(** *** Requests: every answer and every retry *)

Section Answers.
Context {TL : TimeLib}.

(** A run of [on_exception] has met [k] rate limits and then the answer it
    returns; it has given up only when the tries were used up. *)
Lemma on_exception_calls p o left :
  forall n w r w',
    on_exception 2 left n (_make_request_body p o) w = (r, w') ->
    exists k,
      (k <= left)%nat /\
      rate_limited p o w k /\
      r = result_of (xero p (length (requests w) + k)%nat (the_call p o)) /\
      (r = inl RateLimitException -> k = left) /\
      requests w' = repeat (the_call p o) (S k) ++ requests w /\
      sleeps w' = waits n k ++ sleeps w.
Proof.
  induction left as [|left IH]; intros n w r w'; simpl;
    destruct (_make_request_body p o w) as [r1 w1] eqn:E;
    apply make_request_body_spec in E;
    destruct E as (_ & _ & Hreq & Hsl & _ & Hr & _).
  - intros H.
    assert (r = r1 /\ w' = w1) as [-> ->]
      by (destruct r1 as [[]|]; injection H as <- <-; auto).
    exists 0%nat. rewrite Nat.add_0_r.
    split; [lia|]. split; [intros i Hi; lia|]. split; [exact Hr|].
    split; [reflexivity|]. split; [exact Hreq | exact Hsl].
  - assert (Hstop : r1 <> inl RateLimitException -> (r1, w1) = (r, w') ->
        exists k,
          (k <= S left)%nat /\ rate_limited p o w k /\
          r = result_of (xero p (length (requests w) + k)%nat (the_call p o)) /\
          (r = inl RateLimitException -> k = S left) /\
          requests w' = repeat (the_call p o) (S k) ++ requests w /\
          sleeps w' = waits n k ++ sleeps w).
    { intros Hne H. injection H as <- <-. exists 0%nat. rewrite Nat.add_0_r.
      split; [lia|]. split; [intros i Hi; lia|]. split; [exact Hr|].
      split; [intros Hc; contradiction|]. split; [exact Hreq | exact Hsl]. }
    destruct r1 as [e|page]; [|apply Hstop; discriminate].
    destruct e; try (apply Hstop; discriminate).
    intros H. apply IH in H.
    destruct H as (k & Hk & Hlim & Hres & Hlast & Hreq' & Hsl').
    simpl in Hlim, Hres, Hreq', Hsl'.
    assert (H503 : xero p (length (requests w)) (the_call p o) = HttpErr 503).
    { destruct (xero p (length (requests w)) (the_call p o)) as [recs|code];
        simpl in Hr; [discriminate|].
      destruct (code =? 401) eqn:E1; [discriminate|].
      destruct (code =? 503) eqn:E3; [|discriminate].
      apply Z.eqb_eq in E3. subst code. reflexivity. }
    exists (S k). split; [lia|]. split; [|split; [|split; [|split]]].
    + intros i Hi. destruct i as [|i].
      * rewrite Nat.add_0_r. exact H503.
      * unfold rate_limited in Hlim. simpl in Hlim. rewrite Hreq in Hlim.
        simpl in Hlim. rewrite Nat.add_succ_r. apply Hlim. lia.
    + rewrite Hres, Hreq. simpl. rewrite Nat.add_succ_r. reflexivity.
    + intros Hc. rewrite (Hlast Hc). reflexivity.
    + rewrite Hreq', Hreq. simpl. f_equal.
      change (the_call p o :: requests w) with ([the_call p o] ++ requests w).
      rewrite app_assoc, <- repeat_cons. reflexivity.
    + rewrite Hsl', Hsl. unfold waits. simpl. rewrite <- app_assoc. reflexivity.
Qed.

Lemma make_request_calls p o w :
  state (snd (_make_request p o w)) = state w /\
  default_options (snd (_make_request p o w)) = default_options w /\
  exists k resp,
    (k <= 9)%nat /\
    requests (snd (_make_request p o w))
      = repeat (the_call p o) (S k) ++ requests w /\
    answer p (snd (_make_request p o w)) = Some resp /\
    fst (_make_request p o w) = result_of resp.
Proof.
  destruct (_make_request p o w) as [r w'] eqn:E. simpl.
  unfold _make_request in E. apply on_exception_spec in E.
  destruct E as (Hs & Hd & k & resp & Hk & Hreq & _ & Ha & Hr & _).
  split; [exact Hs|]. split; [exact Hd|].
  exists k, resp. unfold max_tries in Hk. simpl in Hk. auto.
Qed.

Lemma result_of_none resp :
  result_of resp = inr None -> resp = HttpErr 401.
Proof.
  destruct resp as [recs|code]; simpl; [discriminate|].
  destruct (code =? 401) eqn:E; [|destruct (code =? 503); discriminate].
  apply Z.eqb_eq in E. intros _. congruence.
Qed.

Lemma result_of_some resp page :
  result_of resp = inr (Some page) -> resp = Ok page.
Proof.
  destruct resp as [recs|code]; simpl; [congruence|].
  destruct (code =? 401); [discriminate|].
  destruct (code =? 503); discriminate.
Qed.

Lemma result_of_other code :
  code <> 401 -> code <> 503 -> result_of (HttpErr code) = inl (HTTPError code).
Proof.
  intros H1 H2. simpl.
  destruct (Z.eqb_spec code 401); [contradiction|].
  destruct (Z.eqb_spec code 503); [contradiction|]. reflexivity.
Qed.

(** The waits of one request add up to at most 1022. *)
Lemma total_wait_bound k :
  (k <= 9)%nat ->
  total_wait (rev (map (fun i => 2 * 2 ^ Z.of_nat i) (seq 0 k))) <= 1022.
Proof.
  intros Hk.
  do 10 (destruct k as [|k]; [vm_compute; intros H; discriminate H|]).
  lia.
Qed.

(** X1.  An HTTP error other than 401 and 503 comes out of
    [_make_request] as it is, after the one call: nothing is retried, slept
    or refreshed, and the pipeline state is not touched. *)
Theorem other_http_errors_propagate p o w code :
  xero p (length (requests w)) (the_call p o) = HttpErr code ->
  code <> 401 -> code <> 503 ->
  _make_request p o w = (inl (HTTPError code), log_request (the_call p o) w).
Proof.
  intros H H1 H3. unfold _make_request. simpl.
  rewrite make_request_body_eq, H. simpl.
  apply Z.eqb_neq in H1, H3. rewrite H1, H3. reflexivity.
Qed.

(** X2.  What any call of [_make_request] leaves behind: the pipeline state
    and the default options are untouched; the same call has been sent
    [k + 1] times, [k <= 9], because the first [k] answers were 503; the
    waits between them were 2, 4, ..., doubling, at most 1022 in all; the
    result is what the last answer gives, [RateLimitException] only after
    the tenth call; and the credentials are refreshed once exactly when the
    result is [None]. *)
Theorem make_request_footprint p o w :
  state (snd (_make_request p o w)) = state w /\
  default_options (snd (_make_request p o w)) = default_options w /\
  exists k,
    (k <= 9)%nat /\
    requests (snd (_make_request p o w))
      = repeat (the_call p o) (S k) ++ requests w /\
    sleeps (snd (_make_request p o w))
      = rev (map (fun i => 2 * 2 ^ Z.of_nat i) (seq 0 k)) ++ sleeps w /\
    total_wait (rev (map (fun i => 2 * 2 ^ Z.of_nat i) (seq 0 k))) <= 1022 /\
    (forall i, (i < k)%nat ->
       xero p (length (requests w) + i)%nat (the_call p o) = HttpErr 503) /\
    fst (_make_request p o w)
      = result_of (xero p (length (requests w) + k)%nat (the_call p o)) /\
    (fst (_make_request p o w) = inl RateLimitException -> k = 9%nat) /\
    refreshes (snd (_make_request p o w))
      = match fst (_make_request p o w) with
        | inr None => S (refreshes w)
        | _ => refreshes w
        end.
Proof.
  destruct (_make_request p o w) as [r w'] eqn:E. simpl.
  unfold _make_request in E.
  pose proof (on_exception_spec _ _ _ _ _ _ _ E)
    as (Hs & Hd & _ & _ & _ & _ & _ & _ & _ & Hrf).
  apply on_exception_calls in E.
  destruct E as (k & Hk & Hlim & Hres & Hlast & Hreq & Hsl).
  split; [exact Hs|]. split; [exact Hd|].
  exists k. unfold max_tries in *. simpl in Hk, Hlast.
  split; [exact Hk|]. split; [exact Hreq|]. split; [exact Hsl|].
  split; [apply total_wait_bound, Hk|].
  split; [exact Hlim|]. split; [exact Hres|]. split; [exact Hlast | exact Hrf].
Qed.

End Answers.

(** *** Cursors: writing, reading back, and states that cannot be used *)

Section Cursors.
Context {TL : TimeLib}.

Lemma with_state_same w : with_state (state w) w = w.
Proof. destruct w; reflexivity. Qed.

(** Writing a cursor that already holds the value changes nothing. *)
Lemma bookmark_setitem_same p key v w :
  cursor (state w) (tap_stream_id p) key = Some v ->
  bookmark_setitem p key v w = (inr tt, w).
Proof.
  intros Hc. destruct (stream_entry_cursor _ _ _ _ Hc) as (b & Hb).
  rewrite (cursor_entry _ _ _ _ Hb) in Hc.
  unfold bookmark_setitem. rewrite (bookmark_present _ _ _ Hb).
  rewrite (insert_id b key v Hc).
  unfold store_entry, stream_entry in *.
  destruct (state w !! "bookmarks") as [[bs|x]|] eqn:E; try discriminate.
  rewrite (insert_id bs _ b Hb), (insert_id (state w) _ _ E).
  rewrite with_state_same. reflexivity.
Qed.

(** On a state whose ["bookmarks"] is a mapping a cursor write goes
    through. *)
Lemma bookmark_setitem_writes p key v w :
  mapping_ok (state w) ->
  exists w1,
    bookmark_setitem p key v w = (inr tt, w1) /\
    cursor (state w1) (tap_stream_id p) key = Some v /\
    (forall k, k <> key ->
       cursor (state w1) (tap_stream_id p) k = cursor (state w) (tap_stream_id p) k) /\
    same_rest w w1 /\ mapping_ok (state w1).
Proof.
  intros Hok. destruct (bookmark_setitem_total p key v w Hok) as (w1 & E).
  exists w1. split; [exact E|].
  destruct (bookmark_setitem_returns p key v w tt w1 E) as (Hc & Ho & _ & Hr).
  split; [exact Hc|]. split; [exact Ho|]. split; [exact Hr|].
  destruct (stream_entry_cursor _ _ _ _ Hc) as (b & Hb).
  eapply mapping_ok_entry; exact Hb.
Qed.

(** With a truthy [updated_at] cursor that parses, [_update_start_state]
    reads and writes nothing. *)
Lemma update_start_state_reads p w u d :
  cursor (state w) (tap_stream_id p) "updated_at" = Some u ->
  truthy u = true ->
  parse u = inr d ->
  _update_start_state p w = (inr d, w).
Proof.
  intros Hc Ht Hp. destruct (stream_entry_cursor _ _ _ _ Hc) as (b & Hb).
  unfold _update_start_state.
  unfold bind at 1. rewrite (bookmark_get_present _ _ _ _ Hb).
  unfold cursor_get. rewrite Hc, Ht.
  unfold bind, ret. rewrite (bookmark_getitem_present _ _ _ _ Hb).
  rewrite <- (cursor_entry _ _ _ _ Hb), Hc. rewrite lift_eq, Hp. reflexivity.
Qed.

Lemma bookmark_not_mapping p w :
  ~ mapping_ok (state w) -> _bookmark p w = (inl TypeError, w).
Proof.
  unfold mapping_ok, _bookmark.
  destruct (state w !! "bookmarks") as [[bs|v]|]; intros H;
    try (exfalso; apply H; exact I).
  reflexivity.
Qed.

(** X3.  A cursor written with [self._bookmark[key] = v] is read back by
    [.get(key)] and by [[key]], from a world that reading does not change;
    the other cursors read as before the write; and writing the same value
    once more changes nothing. *)
Theorem bookmark_write_then_read p key v w :
  mapping_ok (state w) ->
  exists w1,
    bookmark_setitem p key v w = (inr tt, w1) /\
    bookmark_get p key w1 = (inr v, w1) /\
    bookmark_getitem p key w1 = (inr v, w1) /\
    (forall k, k <> key ->
       bookmark_get p k w1 = (inr (cursor_get p w k), w1)) /\
    bookmark_setitem p key v w1 = (inr tt, w1).
Proof.
  intros Hok. destruct (bookmark_setitem_total p key v w Hok) as (w1 & E).
  exists w1. split; [exact E|].
  apply bookmark_setitem_returns in E. destruct E as (Hc & Hk & _ & _).
  destruct (stream_entry_cursor _ _ _ _ Hc) as (b & Hb).
  split; [|split; [|split]].
  - rewrite (bookmark_get_present _ _ _ _ Hb). unfold cursor_get.
    rewrite Hc. reflexivity.
  - rewrite (bookmark_getitem_present _ _ _ _ Hb).
    rewrite <- (cursor_entry _ _ _ _ Hb), Hc. reflexivity.
  - intros k Hne. rewrite (bookmark_get_present _ _ _ _ Hb).
    unfold cursor_get. rewrite (Hk k Hne). reflexivity.
  - apply bookmark_setitem_same, Hc.
Qed.

(** X4.  [_update_start_state] is idempotent: called again in the world it
    has left, it returns the same start and changes nothing. *)
Theorem update_start_state_twice p w d w' :
  _update_start_state p w = (inr d, w') ->
  _update_start_state p w' = (inr d, w').
Proof.
  intros H.
  pose proof (update_start_state_returns _ _ _ _ H)
    as ((b & Hb) & _ & _ & s & Hc & Hp).
  unfold _update_start_state in H.
  apply bind_inr in H. destruct H as (u & w1 & Eget & H).
  apply bind_inr in H. destruct H as ([] & w2 & Eseed & H).
  apply bind_inr in H. destruct H as (v & w3 & Eitem & H).
  apply lift_inr in H. destruct H as (Hv & ->).
  assert (Hparse : parse (VStr s) = inr d) by (simpl; rewrite Hp; reflexivity).
  destruct (truthy (VStr s)) eqn:Et.
  - exact (update_start_state_reads p w' (VStr s) d Hc Et Hparse).
  - (* the cursor is falsy: the first call has seeded it, from the same
       start date *)
    assert (Hsd : exists sd, config p !! "start_date" = Some sd /\
                             normalize sd = VStr s).
    { destruct (truthy u) eqn:Eu.
      - apply ret_inr in Eseed. destruct Eseed as [_ <-].
        apply bookmark_get_returns in Eget.
        destruct Eget as (Hu & Hkeep & (b1 & Hb1) & _).
        rewrite (bookmark_getitem_present _ _ _ _ Hb1) in Eitem.
        rewrite <- (cursor_entry _ _ _ _ Hb1), Hkeep in Eitem.
        destruct (cursor (state w) (tap_stream_id p) "updated_at") as [x|] eqn:Ex;
          [|subst u; discriminate].
        subst u. injection Eitem as <- <-.
        rewrite Hkeep, Ex in Hc. injection Hc as ->. congruence.
      - apply bind_inr in Eseed. destruct Eseed as (sd & w1' & Ecfg & Eset).
        unfold getitem in Ecfg.
        destruct (config p !! "start_date") as [sd'|] eqn:Esd; [|discriminate].
        apply ret_inr in Ecfg. destruct Ecfg as [-> ->].
        exists sd. split; [reflexivity|].
        apply set_last_updated_returns in Eset. destruct Eset as (Hc2 & _).
        destruct (stream_entry_cursor _ _ _ _ Hc2) as (b2 & Hb2).
        rewrite (bookmark_getitem_present _ _ _ _ Hb2) in Eitem.
        rewrite <- (cursor_entry _ _ _ _ Hb2), Hc2 in Eitem.
        injection Eitem as <- <-. congruence. }
    destruct Hsd as (sd & Hcfg & Hn).
    unfold _update_start_state.
    unfold bind at 1. rewrite (bookmark_get_present _ _ _ _ Hb).
    unfold cursor_get. rewrite Hc, Et.
    unfold bind at 1. unfold bind at 1. unfold getitem. rewrite Hcfg.
    unfold ret at 1. unfold _set_last_updated. rewrite Hn.
    rewrite (bookmark_setitem_same _ _ _ _ Hc).
    unfold bind. rewrite (bookmark_getitem_present _ _ _ _ Hb).
    rewrite <- (cursor_entry _ _ _ _ Hb), Hc. rewrite lift_eq, Hparse.
    reflexivity.
Qed.

(** X5.  On a pipeline state whose ["bookmarks"] is not a mapping, the
    first [next()] of every generator that keeps a cursor raises
    [TypeError] before any request is sent, and leaves the world as it
    was. *)
Theorem non_mapping_bookmarks_raise p w :
  ~ mapping_ok (state w) ->
  class p <> EverythingPull ->
  yield_pages_next p Created w = (inl TypeError, w).
Proof.
  intros Hbad Hclass.
  assert (Hget : forall key, bookmark_get p key w = (inl TypeError, w)).
  { intros key. unfold bookmark_get, bind.
    rewrite (bookmark_not_mapping p w Hbad). reflexivity. }
  assert (Hstart : _update_start_state p w = (inl TypeError, w)).
  { unfold _update_start_state. unfold bind at 1. rewrite Hget. reflexivity. }
  simpl. destruct (class p); try contradiction;
    unfold incrementing_body; unfold bind at 1;
    rewrite ?Hstart, ?Hget; reflexivity.
Qed.

(** X6.  Without a truthy [updated_at] cursor and without ["start_date"] in
    the configuration, [_update_start_state] raises [KeyError], and so does
    the first [next()] of the generators that start by it, before any
    request; the entry of the stream has been created by then, empty when
    it was missing, and nothing else has changed. *)
Theorem missing_start_date_raises p w :
  mapping_ok (state w) ->
  truthy (cursor_get p w "updated_at") = false ->
  config p !! "start_date" = None ->
  exists w1,
    _update_start_state p w = (inl (KeyError "start_date"), w1) /\
    (class p <> JournalPull -> class p <> EverythingPull ->
     yield_pages_next p Created w = (inl (KeyError "start_date"), w1)) /\
    same_rest w w1 /\
    stream_entry (state w1) (tap_stream_id p)
      = Some (match stream_entry (state w) (tap_stream_id p) with
              | Some b => b
              | None => ∅
              end) /\
    frame (tap_stream_id p) (state w) (state w1).
Proof.
  intros Hok Hfalsy Hcfg.
  destruct (bookmark_total p w Hok) as (b & w1 & E).
  pose proof (bookmark_returns _ _ _ _ E) as (Hentry & Hread & Hframe & Hrest).
  assert (Hstart : _update_start_state p w = (inl (KeyError "start_date"), w1)).
  { unfold _update_start_state, bookmark_get.
    unfold bind at 1. unfold bind at 1. rewrite E. unfold ret at 1.
    unfold dict_get. rewrite Hread.
    unfold cursor_get in Hfalsy. rewrite Hfalsy.
    unfold bind, getitem. rewrite Hcfg. reflexivity. }
  exists w1. split; [exact Hstart|]. split; [|split; [exact Hrest|split]].
  - intros Hj He. simpl. destruct (class p); try contradiction;
      unfold incrementing_body; unfold bind at 1; rewrite Hstart; reflexivity.
  - rewrite Hentry. f_equal.
    unfold _bookmark in E. unfold stream_entry.
    destruct (state w !! "bookmarks") as [[bs|v]|]; try discriminate.
    + destruct (bs !! tap_stream_id p); injection E as <- _; reflexivity.
    + injection E as <- _. reflexivity.
  - exact Hframe.
Qed.

End Cursors.

(** *** The generators that send one request *)

Section SingleRequest.
Context {TL : TimeLib}.

(** The requests of the first [next()] of [IncrementingPull]: one call,
    sent again only after a rate limit. *)
Lemma incrementing_requests p w start w1 :
  class p = IncrementingPull \/ class p = BankTransfersPull ->
  _update_start_state p w = (inr start, w1) ->
  exists k, (k <= 9)%nat /\
    requests (snd (yield_pages_next p Created w))
      = repeat (the_call p {[ "since" := VDate start ]}) (S k) ++ requests w.
Proof.
  intros Hclass Hstart.
  assert (Hbody : yield_pages_next p Created w = incrementing_body p w)
    by (simpl; destruct Hclass as [-> | ->]; reflexivity).
  rewrite Hbody. unfold incrementing_body. unfold bind at 1. rewrite Hstart.
  apply update_start_state_returns in Hstart.
  destruct Hstart as (_ & _ & (_ & Hreq & _) & _).
  unfold bind.
  destruct (make_request_calls p {[ "since" := VDate start ]} w1)
    as (_ & _ & k & resp & Hk & Hcalls & _).
  destruct (_make_request p {[ "since" := VDate start ]} w1)
    as [[e|page] w2]; simpl in *.
  + exists k. rewrite Hcalls, Hreq. auto.
  + exists k. split; [exact Hk|]. rewrite <- Hreq, <- Hcalls.
    destruct page as [[|r rs]|]; try reflexivity.
    pose proof (last_field_preserves same_rest (r :: rs) (bookmark_property p) w2)
      as (_ & Hr1 & _).
    destruct (last_field (r :: rs) (bookmark_property p) w2) as [[e|v] w3];
      simpl in *; [exact Hr1|].
    pose proof (bookmark_setitem_same_rest p "updated_at" (normalize v) w3)
      as (_ & Hr2 & _).
    unfold _set_last_updated.
    destruct (bookmark_setitem p "updated_at" (normalize v) w3) as [[e|u] w4];
      simpl in *; congruence.
Qed.

(** X7.  [IncrementingPull] and [BankTransfersPull] send one request per
    run, with [since] at the start of the run and nothing else; they yield
    at most one page, the non-empty answer as it is; an empty answer or a
    401 ends the run with the pipeline state as [_update_start_state] left
    it; and the second [next()] ends the run. *)
Theorem incrementing_pull_single_request p w start w1 :
  class p = IncrementingPull \/ class p = BankTransfersPull ->
  _update_start_state p w = (inr start, w1) ->
  (exists k, (k <= 9)%nat /\
     requests (snd (yield_pages_next p Created w))
       = repeat (the_call p {[ "since" := VDate start ]}) (S k) ++ requests w) /\
  (forall b f' w',
     yield_pages_next p Created w = (inr (Some (b, f')), w') ->
     f' = AfterYield /\
     exists page, b = Some page /\ page <> [] /\ answer p w' = Some (Ok page)) /\
  (forall w',
     yield_pages_next p Created w = (inr None, w') ->
     state w' = state w1 /\
     (answer p w' = Some (Ok []) \/ answer p w' = Some (HttpErr 401))) /\
  (forall fuel,
     (length (fst (fst (consume fuel p (yield_pages p) w))) <= 1)%nat /\
     ((2 <= fuel)%nat ->
      forall f, snd (fst (consume fuel p (yield_pages p) w)) <> Pending f)).
Proof.
  intros Hclass Hstart.
  assert (Hbody : yield_pages_next p Created w = incrementing_body p w)
    by (simpl; destruct Hclass as [-> | ->]; reflexivity).
  assert (Hyield : forall b f' w',
            yield_pages_next p Created w = (inr (Some (b, f')), w') ->
            f' = AfterYield /\
            exists page, b = Some page /\ page <> [] /\
                         answer p w' = Some (Ok page)).
  { intros b f' w' H. rewrite Hbody in H.
    apply incrementing_body_yields_page in H.
    destruct H as (page & r & v & -> & -> & Ha & Hlast & _).
    split; [reflexivity|]. exists page. repeat split; auto.
    intros ->. discriminate. }
  split; [|split; [exact Hyield|split]].
  - exact (incrementing_requests p w start w1 Hclass Hstart).
  - intros w' H. rewrite Hbody in H. unfold incrementing_body in H.
    unfold bind at 1 in H. rewrite Hstart in H.
    apply bind_inr in H. destruct H as (page & w2 & E & H).
    destruct (make_request_calls p {[ "since" := VDate start ]} w1)
      as (Hs & _ & k & resp & _ & _ & Ha & Hr).
    rewrite E in Hs, Ha, Hr. simpl in Hs, Ha, Hr.
    destruct page as [[|r rs]|].
    + apply ret_inr in H. destruct H as [_ <-]. split; [exact Hs|].
      left. rewrite Ha. f_equal. apply result_of_some. auto.
    + apply bind_inr in H. destruct H as (v & w3 & _ & H).
      apply bind_inr in H. destruct H as (u & w4 & _ & H).
      apply ret_inr in H. destruct H. discriminate.
    + apply ret_inr in H. destruct H as [_ <-]. split; [exact Hs|].
      right. rewrite Ha. f_equal. apply result_of_none. auto.
  - intros fuel. unfold yield_pages.
    destruct fuel as [|fuel]; [simpl; split; [lia|intros; lia]|].
    rewrite consume_step.
    destruct (yield_pages_next p Created w) as [[e|[[b f']|]] w'] eqn:E.
    + simpl. split; [lia | intros _ f; discriminate].
    + destruct (Hyield _ _ _ eq_refl) as (-> & _).
      destruct fuel as [|fuel]; simpl.
      * split; [lia | intros; lia].
      * split; [lia | intros _ f; discriminate].
    + simpl. split; [lia | intros _ f; discriminate].
Qed.

(** X8.  [EverythingPull] never reads or writes the pipeline state and
    sends one request, with no options; it yields whatever [_make_request]
    returns, once: the records, even when there are none, and [None] after
    a 401; the second [next()] ends the run. *)
Theorem everything_pull_yields_once p w :
  class p = EverythingPull ->
  (forall fuel,
     Forall (fun w' => state w' = state w)
       (seen (consume fuel p (yield_pages p) w)) /\
     (length (fst (fst (consume fuel p (yield_pages p) w))) <= 1)%nat) /\
  (exists k, (k <= 9)%nat /\
     requests (snd (yield_pages_next p Created w))
       = repeat (the_call p ∅) (S k) ++ requests w) /\
  (forall recs,
     xero p (length (requests w)) (the_call p ∅) = Ok recs ->
     consume 2 p (yield_pages p) w
       = ([(Some recs, log_request (the_call p ∅) w)], Exhausted,
          log_request (the_call p ∅) w)) /\
  (xero p (length (requests w)) (the_call p ∅) = HttpErr 401 ->
   consume 2 p (yield_pages p) w
     = ([(None, credentials_refresh (log_request (the_call p ∅) w))], Exhausted,
        credentials_refresh (log_request (the_call p ∅) w))).
Proof.
  intros Hclass.
  assert (Hstep : yield_pages_next p Created w
                  = match _make_request p ∅ w with
                    | (inr page, w1) => (inr (Some (page, AfterYield)), w1)
                    | (inl e, w1) => (inl e, w1)
                    end).
  { simpl. rewrite Hclass. unfold bind, ret.
    destruct (_make_request p ∅ w) as [[e|page] w1]; reflexivity. }
  destruct (make_request_calls p ∅ w) as (Hs & _ & k & resp & Hk & Hreq & _).
  split; [|split; [|split]].
  - intros fuel. unfold yield_pages.
    destruct fuel as [|fuel]; [simpl; split; [repeat constructor | lia]|].
    rewrite consume_step, Hstep.
    destruct (_make_request p ∅ w) as [[e|page] w1]; simpl in *.
    + split; [repeat constructor; exact Hs | lia].
    + destruct fuel as [|fuel]; simpl;
        (split; [repeat constructor; exact Hs | lia]).
  - exists k. split; [exact Hk|]. rewrite Hstep.
    destruct (_make_request p ∅ w) as [[e|page] w1]; exact Hreq.
  - intros recs Ha. unfold yield_pages.
    rewrite consume_step, Hstep. unfold _make_request. simpl on_exception.
    rewrite make_request_body_eq, Ha. simpl. reflexivity.
  - intros Ha. unfold yield_pages.
    rewrite consume_step, Hstep. unfold _make_request. simpl on_exception.
    rewrite make_request_body_eq, Ha. simpl. reflexivity.
Qed.

End SingleRequest.

(** *** The paginating loops: failures and pages that cannot be used *)

Section Failures.
Context {TL : TimeLib}.

(** [_paginate_next] below the bound on the pages, in one equation. *)
Lemma paginate_next_eq p g w :
  num_pages_yielded g <= 1000000 ->
  _paginate_next p g w
    = (let (r, w1) :=
         _make_request p (sent_options g w)
           (match options g with
            | Passed _ => w
            | Default => with_default_options (sent_options g w) w
            end) in
       (match r with
        | inl e => inl e
        | inr (Some (x :: xs)) =>
            match get_next_page_num g (curr_page_num g) (x :: xs) with
            | inr next_page_num =>
                inr (Some (x :: xs, next_page_num, resumed g w next_page_num))
            | inl e => inl e
            end
        | inr _ => inr None
        end, w1)).
Proof.
  intros Hn. unfold _paginate_next. apply Z.ltb_ge in Hn. rewrite Hn.
  unfold bind at 1. rewrite set_pagination_key_eq. simpl snd. simpl fst.
  unfold bind.
  destruct (_make_request p (sent_options g w) _) as [[e|[[|x xs]|]] w1];
    try reflexivity.
  destruct (get_next_page_num g (curr_page_num g) (x :: xs)); reflexivity.
Qed.

(** What [_paginate_next] returns when the backend answers the first
    attempt otherwise than by a rate limit. *)
Lemma paginate_next_first_answer p g w resp :
  num_pages_yielded g <= 1000000 ->
  xero p (length (requests w)) (the_call p (sent_options g w)) = resp ->
  result_of resp <> inl RateLimitException ->
  exists w1,
    _paginate_next p g w
      = (match result_of resp with
         | inl e => inl e
         | inr (Some (x :: xs)) =>
             match get_next_page_num g (curr_page_num g) (x :: xs) with
             | inr next_page_num =>
                 inr (Some (x :: xs, next_page_num, resumed g w next_page_num))
             | inl e => inl e
             end
         | inr _ => inr None
         end, w1) /\
    state w1 = state w /\
    requests w1 = the_call p (sent_options g w) :: requests w /\
    refreshes w1 = match result_of resp with
                   | inr None => S (refreshes w)
                   | _ => refreshes w
                   end /\
    sleeps w1 = sleeps w.
Proof.
  intros Hn Hresp Hne. rewrite (paginate_next_eq p g w Hn).
  set (w0 := match options g with
             | Passed _ => w
             | Default => with_default_options (sent_options g w) w
             end).
  assert (Hw0 : state w0 = state w /\ requests w0 = requests w /\
                refreshes w0 = refreshes w /\ sleeps w0 = sleeps w)
    by (subst w0; destruct (options g); auto).
  destruct Hw0 as (Hs0 & Hr0 & Hf0 & Hsl0).
  destruct (on_exception_limited_then p (sent_options g w) 0 (max_tries - 1) 0
              w0 resp) as (w1 & E & Hreq & Hsl).
  { lia. }
  { intros i Hi. lia. }
  { rewrite Hr0, Nat.add_0_r. exact Hresp. }
  { exact Hne. }
  pose proof (on_exception_spec _ _ _ _ _ _ _ E)
    as (Hs & _ & _ & _ & _ & _ & _ & _ & _ & Hrf).
  fold (_make_request p (sent_options g w)) in E. rewrite E.
  exists w1. split; [reflexivity|]. split; [congruence|].
  split; [rewrite Hreq, Hr0; reflexivity|].
  split; [rewrite Hrf, Hf0; reflexivity|].
  rewrite Hsl, Hsl0. reflexivity.
Qed.

Lemma paginate_next_page p g w x xs next_page_num :
  num_pages_yielded g <= 1000000 ->
  xero p (length (requests w)) (the_call p (sent_options g w)) = Ok (x :: xs) ->
  get_next_page_num g (curr_page_num g) (x :: xs) = inr next_page_num ->
  exists w1,
    _paginate_next p g w
      = (inr (Some (x :: xs, next_page_num, resumed g w next_page_num)), w1) /\
    state w1 = state w /\
    requests w1 = the_call p (sent_options g w) :: requests w /\
    refreshes w1 = refreshes w.
Proof.
  intros Hn Hresp Hnext.
  destruct (paginate_next_first_answer p g w (Ok (x :: xs)) Hn Hresp)
    as (w1 & E & Hs & Hreq & Hrf & _); [discriminate|].
  simpl in E, Hrf. rewrite Hnext in E. exists w1. auto.
Qed.

Lemma setitem_errors_are_local p key v w e w' :
  bookmark_setitem p key v w = (inl e, w') -> ~ fetch_error e.
Proof.
  intros H. apply bookmark_setitem_raises in H. destruct H as (-> & _).
  simpl. auto.
Qed.

Lemma last_field_errors_are_local page key w e w' :
  last_field page key w = (inl e, w') -> ~ fetch_error e.
Proof.
  unfold last_field, getitem.
  destruct (last page) as [r|]; [destruct (r !! key)|]; intros H;
    try discriminate; injection H as <- _; simpl; auto.
Qed.

Lemma updated_since_errors_are_local since page e :
  updated_since since page = inl e -> ~ fetch_error e.
Proof.
  induction page as [|x xs IH]; simpl; [discriminate|].
  destruct (x !! "UpdatedDateUTC") as [v|].
  - destruct v; simpl; try (intros H; injection H as <-; simpl; auto).
    destruct (updated_since since xs) as [e'|ys]; [|discriminate].
    intros H. injection H as <-. apply IH. reflexivity.
  - intros H. injection H as <-. simpl. auto.
Qed.

Ltac local_errors H :=
  repeat
    (apply bind_inl in H;
     destruct H as [H|(? & ? & _ & H)];
     [ first [ apply setitem_errors_are_local in H; contradiction
             | apply last_field_errors_are_local in H; contradiction
             | (rewrite lift_eq in H; injection H as H _;
                apply updated_since_errors_are_local in H; contradiction) ]
     | ]);
  try discriminate.

Lemma loop_errors_keep_state p f g w e w' :
  paginating f = Some g ->
  yield_pages_next p f w = (inl e, w') -> fetch_error e -> state w' = state w.
Proof.
  intros Hf H He.
  destruct f as [|start g0|g0|start g0|]; simpl in Hf; try discriminate;
    injection Hf as ->; simpl in H.
  - unfold paginated_loop in H. apply bind_inl in H.
    destruct H as [H|(r & w1 & E & H)].
    + pose proof (paginate_next_state p g w) as Hs. rewrite H in Hs. exact Hs.
    + exfalso. destruct r as [[[page nx] g']|]; unfold _set_last_updated in H;
        local_errors H.
  - unfold journal_loop in H. apply bind_inl in H.
    destruct H as [H|(r & w1 & E & H)].
    + pose proof (paginate_next_state p g w) as Hs. rewrite H in Hs. exact Hs.
    + exfalso. destruct r as [[[page nx] g']|]; local_errors H.
  - unfold linked_loop in H. apply bind_inl in H.
    destruct H as [H|(r & w1 & E & H)].
    + pose proof (paginate_next_state p g w) as Hs. rewrite H in Hs. exact Hs.
    + exfalso. destruct r as [[[page nx] g']|]; unfold _set_last_updated in H;
        local_errors H.
Qed.

(** A loop frame starts by [_paginate_next]: when that raises, so does the
    step, in the same world. *)
Lemma loop_raises p f g w e w1 :
  paginating f = Some g ->
  _paginate_next p g w = (inl e, w1) ->
  yield_pages_next p f w = (inl e, w1).
Proof.
  intros Hf E.
  destruct f as [|start g0|g0|start g0|]; simpl in Hf; try discriminate;
    injection Hf as ->; simpl;
    [unfold paginated_loop|unfold journal_loop|unfold linked_loop];
    unfold bind; rewrite E; reflexivity.
Qed.

Lemma last_nonempty {A} (page : list A) r : last page = Some r -> page <> [].
Proof. intros H ->. discriminate. Qed.

Lemma last_field_missing page key r w :
  last page = Some r -> r !! key = None ->
  last_field page key w = (inl (KeyError key), w).
Proof.
  intros Hl Hr. unfold last_field, getitem. rewrite Hl, Hr. reflexivity.
Qed.





(** X9.  A [next()] of a suspended paginating generator that ends by an
    exception of the fetch (an HTTP error, the rate limit, the bound on the
    pages) leaves the pipeline state as it was: no cursor has moved.  Past
    the bound it raises without a request; an HTTP error other than 401 and
    503 is raised after one request; ten rate limits in a row are raised as
    [RateLimitException] after ten requests and nine waits. *)
Theorem failed_fetch_leaves_bookmarks p f g w :
  paginating f = Some g ->
  (forall e w',
     yield_pages_next p f w = (inl e, w') -> fetch_error e ->
     state w' = state w) /\
  (1000000 < num_pages_yielded g ->
   yield_pages_next p f w = (inl PagesException, w)) /\
  (forall code,
     num_pages_yielded g <= 1000000 ->
     xero p (length (requests w)) (the_call p (sent_options g w)) = HttpErr code ->
     code <> 401 -> code <> 503 ->
     exists w',
       yield_pages_next p f w = (inl (HTTPError code), w') /\
       state w' = state w /\
       requests w' = the_call p (sent_options g w) :: requests w /\
       refreshes w' = refreshes w) /\
  (num_pages_yielded g <= 1000000 ->
   rate_limited p (sent_options g w) w 10 ->
   exists w',
     yield_pages_next p f w = (inl RateLimitException, w') /\
     state w' = state w /\
     requests w' = repeat (the_call p (sent_options g w)) 10 ++ requests w /\
     sleeps w' = [512; 256; 128; 64; 32; 16; 8; 4; 2] ++ sleeps w).
Proof.
  intros Hf. split; [|split; [|split]].
  - intros e w' H He. eapply loop_errors_keep_state; eassumption.
  - intros Hn. apply (loop_raises p f g); [exact Hf|].
    unfold _paginate_next. apply Z.ltb_lt in Hn. rewrite Hn. reflexivity.
  - intros code Hn Hresp H1 H2.
    destruct (paginate_next_first_answer p g w (HttpErr code) Hn Hresp)
      as (w1 & E & Hs & Hreq & Hrf & _).
    { rewrite (result_of_other code H1 H2). discriminate. }
    rewrite (result_of_other code H1 H2) in E, Hrf.
    exists w1. split; [|auto].
    apply (loop_raises p f g); assumption.
  - intros Hn Hlim.
    set (w0 := match options g with
               | Passed _ => w
               | Default => with_default_options (sent_options g w) w
               end).
    assert (Hw0 : requests w0 = requests w /\ sleeps w0 = sleeps w)
      by (subst w0; destruct (options g); auto).
    destruct Hw0 as (Hr0 & Hsl0).
    destruct (on_exception_exhausted p (sent_options g w) 9 0 w0)
      as (w1 & E & Hreq & Hsl).
    { intros i Hi. rewrite Hr0. apply Hlim, Hi. }
    assert (Enext : _paginate_next p g w = (inl RateLimitException, w1)).
    { rewrite (paginate_next_eq p g w Hn). fold w0.
      unfold _make_request. change (max_tries - 1)%nat with 9%nat.
      rewrite E. reflexivity. }
    exists w1. split; [apply (loop_raises p f g); assumption|].
    split; [|split].
    + pose proof (paginate_next_state p g w) as Hs. rewrite Enext in Hs. exact Hs.
    + rewrite Hreq, Hr0. reflexivity.
    + rewrite Hsl, Hsl0. reflexivity.
Qed.

(** X10.  A 401 in the middle of a sweep ends the generator as if the data
    had run out: no exception, one request, one refresh of the credentials,
    no wait; [PaginatedPull] and [LinkedTransactionsPull] reset the [page]
    cursor to [None] and keep the others, [JournalPull] keeps the whole
    pipeline state. *)
Theorem unauthorized_ends_the_sweep p f g w :
  paginating f = Some g ->
  num_pages_yielded g <= 1000000 ->
  mapping_ok (state w) ->
  xero p (length (requests w)) (the_call p (sent_options g w)) = HttpErr 401 ->
  exists w',
    yield_pages_next p f w = (inr None, w') /\
    requests w' = the_call p (sent_options g w) :: requests w /\
    refreshes w' = S (refreshes w) /\
    sleeps w' = sleeps w /\
    (forall k, k <> "page" ->
       cursor (state w') (tap_stream_id p) k
         = cursor (state w) (tap_stream_id p) k) /\
    match f with
    | JournalLoop _ => state w' = state w
    | _ => cursor (state w') (tap_stream_id p) "page" = Some VNone
    end.
Proof.
  intros Hf Hn Hok Hresp.
  destruct (paginate_next_first_answer p g w (HttpErr 401) Hn Hresp)
    as (w1 & E & Hs & Hreq & Hrf & Hsl); [discriminate|].
  change (result_of (HttpErr 401)) with
    (@inr exn (option (list (gmap string value))) None) in E, Hrf.
  assert (Hok1 : mapping_ok (state w1)) by (rewrite Hs; exact Hok).
  destruct f as [|start g0|g0|start g0|]; simpl in Hf; try discriminate;
    injection Hf as ->; simpl.
  - destruct (bookmark_setitem_writes p "page" VNone w1 Hok1)
      as (w2 & E2 & Hc & Ho & (_ & Hr1 & Hr2 & Hr3) & _).
    exists w2. unfold paginated_loop, bind. rewrite E, E2.
    split; [reflexivity|]. split; [congruence|]. split; [congruence|].
    split; [congruence|]. split; [|exact Hc].
    intros k Hk. rewrite (Ho k Hk), Hs. reflexivity.
  - exists w1. unfold journal_loop, bind. rewrite E.
    split; [reflexivity|]. split; [exact Hreq|]. split; [exact Hrf|].
    split; [exact Hsl|]. split; [|exact Hs].
    intros k Hk. rewrite Hs. reflexivity.
  - destruct (bookmark_setitem_writes p "page" VNone w1 Hok1)
      as (w2 & E2 & Hc & Ho & (_ & Hr1 & Hr2 & Hr3) & _).
    exists w2. unfold linked_loop, bind. rewrite E, E2.
    split; [reflexivity|]. split; [congruence|]. split; [congruence|].
    split; [congruence|]. split; [|exact Hc].
    intros k Hk. rewrite (Ho k Hk), Hs. reflexivity.
Qed.

(** X11.  A page whose last record lacks the key that the generator reads
    from it makes the [next()] raise [KeyError], and the page is not
    yielded.  [PaginatedPull] and [LinkedTransactionsPull] have by then
    moved the [page] cursor past that page, and left the other cursors;
    [JournalPull] has written nothing; [IncrementingPull] and
    [BankTransfersPull] have written nothing after
    [_update_start_state]. *)
Theorem missing_key_in_last_record p w page r :
  mapping_ok (state w) ->
  last page = Some r ->
  (forall f start g next_page_num,
     f = PaginatedLoop start g \/ f = LinkedLoop start g ->
     num_pages_yielded g <= 1000000 ->
     xero p (length (requests w)) (the_call p (sent_options g w)) = Ok page ->
     get_next_page_num g (curr_page_num g) page = inr next_page_num ->
     r !! bookmark_property p = None ->
     exists w',
       yield_pages_next p f w = (inl (KeyError (bookmark_property p)), w') /\
       cursor (state w') (tap_stream_id p) "page" = Some next_page_num /\
       (forall k, k <> "page" ->
          cursor (state w') (tap_stream_id p) k
            = cursor (state w) (tap_stream_id p) k) /\
       requests w' = the_call p (sent_options g w) :: requests w) /\
  (forall g,
     get_next_page_num g = next_by_journal_number ->
     num_pages_yielded g <= 1000000 ->
     xero p (length (requests w)) (the_call p (sent_options g w)) = Ok page ->
     r !! "JournalNumber" = None ->
     exists w',
       yield_pages_next p (JournalLoop g) w = (inl (KeyError "JournalNumber"), w') /\
       state w' = state w /\
       requests w' = the_call p (sent_options g w) :: requests w) /\
  (forall start w1,
     class p = IncrementingPull \/ class p = BankTransfersPull ->
     _update_start_state p w = (inr start, w1) ->
     xero p (length (requests w)) (the_call p {[ "since" := VDate start ]}) = Ok page ->
     r !! bookmark_property p = None ->
     exists w',
       yield_pages_next p Created w = (inl (KeyError (bookmark_property p)), w') /\
       state w' = state w1 /\
       requests w' = the_call p {[ "since" := VDate start ]} :: requests w).
Proof.
  intros Hok Hl.
  pose proof (last_nonempty page r Hl) as Hne.
  destruct page as [|x xs]; [contradiction|].
  split; [|split].
  - intros f start g nx Hf Hn Hresp Hnext Hr.
    destruct (paginate_next_page p g w x xs nx Hn Hresp Hnext)
      as (w1 & E & Hs & Hreq & _).
    assert (Hok1 : mapping_ok (state w1)) by (rewrite Hs; exact Hok).
    destruct (bookmark_setitem_writes p "page" nx w1 Hok1)
      as (w2 & E2 & Hc & Ho & (_ & Hr1 & _) & _).
    exists w2. split; [|split; [exact Hc|split]].
    + destruct Hf as [-> | ->]; simpl;
        [unfold paginated_loop|unfold linked_loop];
        unfold bind; rewrite E, E2;
        rewrite (last_field_missing _ _ r w2 Hl Hr); reflexivity.
    + intros k Hk. rewrite (Ho k Hk), Hs. reflexivity.
    + congruence.
  - intros g Hfn Hn Hresp Hr.
    destruct (paginate_next_first_answer p g w (Ok (x :: xs)) Hn Hresp)
      as (w1 & E & Hs & Hreq & _); [discriminate|].
    simpl in E. rewrite Hfn in E. unfold next_by_journal_number in E.
    rewrite Hl, Hr in E.
    exists w1. split; [|auto]. simpl. unfold journal_loop, bind.
    rewrite E. reflexivity.
  - intros start w1 Hclass Hstart Hresp Hr.
    destruct (update_start_state_returns p w start w1 Hstart)
      as (_ & _ & (_ & Hreq1 & _) & _).
    destruct (make_request_first_answer p {[ "since" := VDate start ]} w1
                (Ok (x :: xs))) as (w2 & E & Hreq & Hs & _);
      [rewrite Hreq1; exact Hresp | discriminate |].
    exists w2. split; [|split; [exact Hs | congruence]].
    assert (Hbody : yield_pages_next p Created w = incrementing_body p w)
      by (simpl; destruct Hclass as [-> | ->]; reflexivity).
    rewrite Hbody. unfold incrementing_body, bind. rewrite Hstart, E. simpl.
    rewrite (last_field_missing _ _ r w2 Hl Hr). reflexivity.
Qed.


End Failures.

(** *** Restarting after an interrupted sweep *)

Section Restarts.
Context {TL : TimeLib}.

(** Two [JournalPull] frames that differ in the count of their pages only
    hand the same to the consumer and leave the same world. *)
Lemma journal_loop_count p g1 g2 w :
  options g1 = options g2 ->
  pagination_key g1 = pagination_key g2 ->
  get_next_page_num g1 = get_next_page_num g2 ->
  curr_page_num g1 = curr_page_num g2 ->
  num_pages_yielded g1 <= 1000000 ->
  num_pages_yielded g2 <= 1000000 ->
  handed (fst (journal_loop p g1 w)) = handed (fst (journal_loop p g2 w)) /\
  snd (journal_loop p g1 w) = snd (journal_loop p g2 w).
Proof.
  intros Ho Hk Hf Hc H1 H2.
  unfold journal_loop, bind.
  rewrite (paginate_next_eq p g1 w H1), (paginate_next_eq p g2 w H2).
  assert (Hs : sent_options g1 w = sent_options g2 w)
    by (unfold sent_options; rewrite Ho, Hk, Hc; reflexivity).
  rewrite Hs, Ho, Hf, Hc.
  destruct (_make_request p (sent_options g2 w) _) as [[e|[[|x xs]|]] w1];
    simpl; auto.
  destruct (get_next_page_num g2 (curr_page_num g2) (x :: xs)) as [e|nx];
    simpl; auto.
  destruct (bookmark_setitem p "journal_number" nx w1) as [[e|[]] w2];
    simpl; auto.
Qed.


(** X13.  A new [PaginatedPull] generator, started in the world left at a
    yield, asks for the page that the suspended generator would ask for
    next, but with [since] at the bookmark property of the last record
    yielded, where the suspended generator keeps the options it was
    started with. *)
Theorem restart_asks_the_stored_page_since_the_last_record
    p start g o w page f' w' n r v d :
  class p = PaginatedPull ->
  options g = Passed o ->
  pagination_key g = "page" ->
  get_next_page_num g = next_by_increment ->
  curr_page_num g = VInt n ->
  n + 1 <> 0 ->
  num_pages_yielded g < 1000000 ->
  yield_pages_next p (PaginatedLoop start g) w = (inr (Some (Some page, f')), w') ->
  last page = Some r ->
  r !! bookmark_property p = Some v ->
  truthy (normalize v) = true ->
  parse (normalize v) = inr d ->
  (exists k, (k <= 9)%nat /\
     requests (snd (yield_pages_next p f' w'))
       = repeat (the_call p (<["page" := VInt (n + 1)]> o)) (S k)
         ++ requests w') /\
  (exists k, (k <= 9)%nat /\
     requests (snd (yield_pages_next p Created w'))
       = repeat (the_call p (<["page" := VInt (n + 1)]> (paginated_options p d)))
           (S k)
         ++ requests w').
Proof.
  intros Hclass Ho Hkey Hfn Hcurr Hnz Hn H Hl Hr Ht Hp.
  simpl in H. apply paginated_loop_yields in H.
  destruct H as (page0 & nx & Hpage & -> & Hfetched & Hadv & _).
  injection Hpage as <-.
  destruct Hfetched as (_ & _ & Hnext & _).
  rewrite Hfn, Hcurr in Hnext. simpl in Hnext. injection Hnext as <-.
  destruct Hadv as (Hcp & r' & v' & Hl' & Hr' & Hcu).
  rewrite Hl in Hl'. injection Hl' as <-.
  rewrite Hr in Hr'. injection Hr' as <-.
  split.
  - simpl yield_pages_next. unfold paginated_loop.
    destruct (loop_requests p (resumed g w (VInt (n + 1))) _ w'
                (paginated_tail_same_rest p start)) as (k & Hk & Hreq).
    { simpl. lia. }
    exists k. split; [exact Hk|]. rewrite Hreq.
    unfold sent_options, resumed. simpl. rewrite Ho, Hkey.
    unfold sent_options. rewrite Ho, Hkey.
    rewrite insert_insert_eq. reflexivity.
  - pose proof (update_start_state_reads p w' _ d Hcu Ht Hp) as Hstart.
    rewrite (paginated_first_step p w' d w' Hclass Hstart).
    unfold paginated_loop.
    destruct (loop_requests p
                (_paginate (Passed (paginated_options p d))
                   (py_or (cursor_get p w' "page") (VInt 1)) "page"
                   next_by_increment) _ w'
                (paginated_tail_same_rest p d)) as (k & Hk & Hreq).
    { simpl. lia. }
    exists k. split; [exact Hk|]. rewrite Hreq.
    unfold sent_options, _paginate. simpl.
    unfold cursor_get. rewrite Hcp. unfold py_or. simpl.
    destruct (Z.eqb_spec (n + 1) 0); [contradiction|]. reflexivity.
Qed.

(** X14.  A new [JournalPull] generator, started in the world left at a
    yield, continues as the suspended generator would: its first [next()]
    hands the same to the consumer and leaves the same world. *)
Theorem journal_restart_continues p g w page f' w' r j :
  class p = JournalPull ->
  journal_frame (JournalLoop g) ->
  num_pages_yielded g < 1000000 ->
  yield_pages_next p (JournalLoop g) w = (inr (Some (Some page, f')), w') ->
  last page = Some r ->
  r !! "JournalNumber" = Some (VInt j) ->
  handed (fst (yield_pages_next p Created w'))
    = handed (fst (yield_pages_next p f' w')) /\
  snd (yield_pages_next p Created w') = snd (yield_pages_next p f' w').
Proof.
  intros Hclass (Hkey & Hfn & Ho) Hn H Hl Hr.
  simpl in H. apply journal_loop_yields in H.
  destruct H as (page0 & nx & Hpage & -> & Hfetched & Hc).
  injection Hpage as <-.
  destruct Hfetched as (_ & _ & Hnext & _).
  rewrite Hfn in Hnext. unfold next_by_journal_number in Hnext.
  rewrite Hl, Hr in Hnext. injection Hnext as <-.
  destruct (stream_entry_cursor _ _ _ _ Hc) as (b & Hb).
  simpl yield_pages_next. rewrite Hclass.
  unfold bind at 1 2. rewrite (bookmark_get_present _ _ _ _ Hb).
  unfold cursor_get. rewrite Hc.
  assert (Hor : py_or (VInt j) (VInt 0) = VInt j).
  { unfold py_or. simpl. destruct (Z.eqb_spec j 0) as [->|]; reflexivity. }
  rewrite Hor.
  apply journal_loop_count.
  - simpl. rewrite Ho. reflexivity.
  - simpl. rewrite Hkey. reflexivity.
  - simpl. rewrite Hfn. reflexivity.
  - reflexivity.
  - cbn [num_pages_yielded _paginate]. lia.
  - cbn [num_pages_yielded resumed]. lia.
Qed.


(** X16.  The run after an [IncrementingPull] or [BankTransfersPull] run
    that has yielded a page asks for the records since the bookmark
    property of the last record of that page. *)
Theorem incrementing_next_run_starts_at_the_last_record p w b f' w' page r v d :
  class p = IncrementingPull \/ class p = BankTransfersPull ->
  yield_pages_next p Created w = (inr (Some (b, f')), w') ->
  answer p w' = Some (Ok page) ->
  last page = Some r ->
  r !! bookmark_property p = Some v ->
  truthy (normalize v) = true ->
  parse (normalize v) = inr d ->
  b = Some page /\
  _update_start_state p w' = (inr d, w') /\
  exists k, (k <= 9)%nat /\
    requests (snd (yield_pages_next p Created w'))
      = repeat (the_call p {[ "since" := VDate d ]}) (S k) ++ requests w'.
Proof.
  intros Hclass H Ha Hl Hr Ht Hp.
  assert (Hbody : yield_pages_next p Created w = incrementing_body p w)
    by (simpl; destruct Hclass as [-> | ->]; reflexivity).
  rewrite Hbody in H. apply incrementing_body_yields_page in H.
  destruct H as (page0 & r0 & v0 & -> & _ & Ha0 & Hl0 & Hr0 & Hc).
  rewrite Ha in Ha0. injection Ha0 as <-.
  rewrite Hl in Hl0. injection Hl0 as <-.
  rewrite Hr in Hr0. injection Hr0 as <-.
  pose proof (update_start_state_reads p w' _ d Hc Ht Hp) as Hstart.
  split; [reflexivity|]. split; [exact Hstart|].
  exact (incrementing_requests p w' d w' Hclass Hstart).
Qed.

End Restarts.

(** *** The requests of a whole sweep *)

Section Sweeps.
Context {TL : TimeLib}.

Lemma paginated_loop_over p start g w :
  1000000 < num_pages_yielded g ->
  paginated_loop p start g w = (inl PagesException, w).
Proof.
  intros Hn. unfold paginated_loop, _paginate_next, bind.
  apply Z.ltb_lt in Hn. rewrite Hn. reflexivity.
Qed.

Lemma sweep_requests p start (o : gmap string value) fuel :
  forall g w m,
    pagination_key g = "page" ->
    get_next_page_num g = next_by_increment ->
    curr_page_num g = VInt m ->
    (exists o', options g = Passed o' /\
                forall x, <["page" := x]> o' = <["page" := x]> o) ->
    exists tries,
      requests (snd (consume fuel p (PaginatedLoop start g) w))
        = sweep_log (fun i => the_call p (<["page" := VInt i]> o)) m tries
          ++ requests w /\
      Forall (fun k => (k <= 9)%nat) tries /\
      (length (fst (fst (consume fuel p (PaginatedLoop start g) w)))
         <= length tries
         <= S (length (fst (fst (consume fuel p (PaginatedLoop start g) w)))))%nat.
Proof.
  induction fuel as [|fuel IH]; intros g w m Hkey Hfn Hcurr (o' & Ho & Hsame).
  - exists []. simpl. split; [reflexivity|]. split; [constructor | lia].
  - rewrite consume_step. simpl yield_pages_next.
    destruct (Z.ltb_spec 1000000 (num_pages_yielded g)) as [Hover|Hn].
    { rewrite (paginated_loop_over p start g w Hover).
      exists []. simpl. split; [reflexivity|]. split; [constructor | lia]. }
    assert (Hsent : sent_options g w = <["page" := VInt m]> o)
      by (unfold sent_options; rewrite Ho, Hkey, Hcurr; apply Hsame).
    destruct (paginated_loop p start g w) as [[e|[[b f']|]] w1] eqn:E.
    + pose proof (loop_requests p g _ w (paginated_tail_same_rest p start) Hn)
        as (k & Hk & Hreq).
      fold (paginated_loop p start g) in Hreq. rewrite E in Hreq.
      exists [k]. simpl in *. rewrite Hreq, Hsent.
      split; [reflexivity|]. split; [constructor; [exact Hk | constructor] | lia].
    + apply paginated_loop_yields in E.
      destruct E as (page & nx & -> & -> & Hfetched & _ & _).
      destruct Hfetched as (_ & _ & Hnext & _ & k & Hk & Hreq).
      rewrite Hfn, Hcurr in Hnext. simpl in Hnext. injection Hnext as <-.
      destruct (IH (resumed g w (VInt (m + 1))) w1 (m + 1)) as (tries & Hlog & Hall & Hlen).
      * simpl. exact Hkey.
      * simpl. exact Hfn.
      * reflexivity.
      * exists (sent_options g w). simpl. rewrite Ho. split; [reflexivity|].
        intros x. rewrite Hsent. apply insert_insert_eq.
      * destruct (consume fuel p (PaginatedLoop start (resumed g w (VInt (m + 1)))) w1)
          as [[trace out] w2].
        exists (k :: tries). simpl in *.
        rewrite Hlog, Hreq, Hsent.
        split; [|split; [constructor; assumption | lia]].
        rewrite <- app_assoc. reflexivity.
    + pose proof (loop_requests p g _ w (paginated_tail_same_rest p start) Hn)
        as (k & Hk & Hreq).
      fold (paginated_loop p start g) in Hreq. rewrite E in Hreq.
      exists [k]. simpl in *. rewrite Hreq, Hsent.
      split; [reflexivity|]. split; [constructor; [exact Hk | constructor] | lia].
Qed.

(** X17.  The requests of a whole [PaginatedPull] run, in order: the
    bookmarked page (or page 1), then the next page, and so on by one,
    every one with the [since] and the [order] of the start of the run,
    each sent again only after a rate limit and at most ten times; there is
    one page requested for every page yielded, and at most one more. *)
Theorem paginated_sweep_asks_consecutive_pages p w start w1 n fuel :
  class p = PaginatedPull ->
  _update_start_state p w = (inr start, w1) ->
  py_or (cursor_get p w "page") (VInt 1) = VInt n ->
  exists tries,
    requests (snd (consume fuel p (yield_pages p) w))
      = sweep_log
          (fun i => the_call p (<["page" := VInt i]> (paginated_options p start)))
          n tries
        ++ requests w /\
    Forall (fun k => (k <= 9)%nat) tries /\
    (length (fst (fst (consume fuel p (yield_pages p) w)))
       <= length tries
       <= S (length (fst (fst (consume fuel p (yield_pages p) w)))))%nat.
Proof.
  intros Hclass Hstart Hpage. unfold yield_pages.
  destruct fuel as [|fuel].
  - exists []. simpl. split; [reflexivity|]. split; [constructor | lia].
  - assert (Hrun : consume (S fuel) p Created w
                   = consume (S fuel) p
                       (PaginatedLoop start
                          (_paginate (Passed (paginated_options p start))
                             (VInt n) "page" next_by_increment)) w1).
    { rewrite !consume_step.
      rewrite (paginated_first_step p w start w1 Hclass Hstart), Hpage.
      reflexivity. }
    rewrite Hrun.
    destruct (update_start_state_returns p w start w1 Hstart)
      as (_ & _ & (_ & Hreq & _) & _).
    rewrite <- Hreq.
    apply sweep_requests; try reflexivity.
    exists (paginated_options p start). split; reflexivity.
Qed.

End Sweeps.

(** *** Cursors are never removed *)

Section Retention.
Context {TL : TimeLib}.

#[export] Instance keeps_cursors_preorder sid : PreOrder (keeps_cursors sid).
Proof.
  split.
  - intros w k H. exact H.
  - intros w1 w2 w3 H12 H23 k H. apply H23, H12, H.
Qed.

Lemma keeps_cursors_same_state {A} sid (m : M A) :
  (forall w, state (snd (m w)) = state w) -> preserves (keeps_cursors sid) m.
Proof. intros H w k Hk. rewrite H. exact Hk. Qed.

Lemma bookmark_keeps_cursors p :
  preserves (keeps_cursors (tap_stream_id p)) (_bookmark p).
Proof.
  intros w k Hk. destruct (_bookmark p w) as [[e|b] w'] eqn:E; simpl.
  - apply bookmark_raises in E. destruct E as (_ & -> & _). exact Hk.
  - apply bookmark_returns in E. destruct E as (Hb & Hc & _).
    rewrite (cursor_entry _ _ _ _ Hb), Hc. exact Hk.
Qed.

Lemma bookmark_setitem_keeps_cursors p key v :
  preserves (keeps_cursors (tap_stream_id p)) (bookmark_setitem p key v).
Proof.
  intros w k Hk. destruct (bookmark_setitem p key v w) as [[e|u] w'] eqn:E; simpl.
  - apply bookmark_setitem_raises in E. destruct E as (_ & -> & _). exact Hk.
  - apply bookmark_setitem_returns in E. destruct E as (Hc & Ho & _).
    destruct (decide (k = key)) as [->|Hne].
    + rewrite Hc. eauto.
    + rewrite (Ho k Hne). exact Hk.
Qed.

Lemma bookmark_get_keeps_cursors p key :
  preserves (keeps_cursors (tap_stream_id p)) (bookmark_get p key).
Proof.
  unfold bookmark_get. apply preserves_bind; [apply _| |intros ?].
  - apply bookmark_keeps_cursors.
  - apply preserves_ret, _.
Qed.

Lemma bookmark_getitem_keeps_cursors p key :
  preserves (keeps_cursors (tap_stream_id p)) (bookmark_getitem p key).
Proof.
  unfold bookmark_getitem. apply preserves_bind; [apply _| |intros b].
  - apply bookmark_keeps_cursors.
  - destruct (b !! key); [apply preserves_ret | apply preserves_raise]; apply _.
Qed.

Lemma update_start_state_keeps_cursors p :
  preserves (keeps_cursors (tap_stream_id p)) (_update_start_state p).
Proof.
  unfold _update_start_state. apply preserves_bind; [apply _| |intros u].
  { apply bookmark_get_keeps_cursors. }
  apply preserves_bind; [apply _| |intros ?].
  { destruct (truthy u); [apply preserves_ret, _|].
    apply preserves_bind; [apply _| |intros ?].
    - apply getitem_preserves, _.
    - apply bookmark_setitem_keeps_cursors. }
  apply preserves_bind; [apply _| |intros ?].
  { apply bookmark_getitem_keeps_cursors. }
  apply preserves_lift, _.
Qed.

Lemma yield_pages_next_keeps_cursors p f :
  preserves (keeps_cursors (tap_stream_id p)) (yield_pages_next p f).
Proof.
  assert (Hp : forall start g,
            preserves (keeps_cursors (tap_stream_id p)) (paginated_loop p start g)).
  { intros start g. unfold paginated_loop.
    apply preserves_bind; [apply _| |intros a].
    - apply keeps_cursors_same_state, paginate_next_state.
    - destruct a as [[[page next_num] g']|].
      + apply preserves_bind; [apply _| |intros ?].
        { apply bookmark_setitem_keeps_cursors. }
        apply preserves_bind; [apply _| |intros ?].
        { apply last_field_preserves, _. }
        apply preserves_bind; [apply _| |intros ?].
        { apply bookmark_setitem_keeps_cursors. }
        apply preserves_ret, _.
      + apply preserves_bind; [apply _| |intros ?].
        { apply bookmark_setitem_keeps_cursors. }
        apply preserves_ret, _. }
  assert (Hj : forall g,
            preserves (keeps_cursors (tap_stream_id p)) (journal_loop p g)).
  { intros g. unfold journal_loop.
    apply preserves_bind; [apply _| |intros a].
    - apply keeps_cursors_same_state, paginate_next_state.
    - destruct a as [[[page next_num] g']|]; [|apply preserves_ret, _].
      apply preserves_bind; [apply _| |intros ?].
      + apply bookmark_setitem_keeps_cursors.
      + apply preserves_ret, _. }
  assert (Hl : forall start g,
            preserves (keeps_cursors (tap_stream_id p)) (linked_loop p start g)).
  { intros start g. unfold linked_loop.
    apply preserves_bind; [apply _| |intros a].
    - apply keeps_cursors_same_state, paginate_next_state.
    - destruct a as [[[page next_num] g']|].
      + apply preserves_bind; [apply _| |intros ?].
        { apply bookmark_setitem_keeps_cursors. }
        apply preserves_bind; [apply _| |intros ?].
        { apply last_field_preserves, _. }
        apply preserves_bind; [apply _| |intros ?].
        { apply bookmark_setitem_keeps_cursors. }
        apply preserves_bind; [apply _| |intros ?].
        { apply preserves_lift, _. }
        apply preserves_ret, _.
      + apply preserves_bind; [apply _| |intros ?].
        { apply bookmark_setitem_keeps_cursors. }
        apply preserves_ret, _. }
  assert (Hi : preserves (keeps_cursors (tap_stream_id p)) (incrementing_body p)).
  { unfold incrementing_body. apply preserves_bind; [apply _| |intros start].
    - apply update_start_state_keeps_cursors.
    - apply preserves_bind; [apply _| |intros page].
      + apply keeps_cursors_same_state, make_request_state.
      + destruct page as [[|r rs]|]; try apply preserves_ret, _.
        apply preserves_bind; [apply _| |intros ?].
        { apply last_field_preserves, _. }
        apply preserves_bind; [apply _| |intros ?].
        { apply bookmark_setitem_keeps_cursors. }
        apply preserves_ret, _. }
  destruct f as [|start g|g|start g|]; simpl; auto.
  - destruct (class p); auto.
    + apply preserves_bind; [apply _| |intros start].
      { apply update_start_state_keeps_cursors. }
      apply preserves_bind; [apply _| |intros page].
      { apply bookmark_get_keeps_cursors. }
      apply Hp.
    + apply preserves_bind; [apply _| |intros number].
      { apply bookmark_get_keeps_cursors. }
      apply Hj.
    + apply preserves_bind; [apply _| |intros start].
      { apply update_start_state_keeps_cursors. }
      apply preserves_bind; [apply _| |intros page].
      { apply bookmark_get_keeps_cursors. }
      apply Hl.
    + apply preserves_bind; [apply _| |intros page].
      { apply keeps_cursors_same_state, make_request_state. }
      apply preserves_ret, _.
  - apply preserves_ret, _.
Qed.

(** X18.  No accessor, no [next()] and no run removes a cursor from the
    entry of its stream: a cursor that is there stays there, possibly with
    another value ([None] for [page] at the end of a sweep); and a cursor
    other than [page], [updated_at] and [journal_number] keeps its value
    through every run. *)
Theorem cursors_are_never_removed p w k v :
  cursor (state w) (tap_stream_id p) k = Some v ->
  (forall key v', is_Some (cursor (state (snd (bookmark_setitem p key v' w)))
                             (tap_stream_id p) k)) /\
  is_Some (cursor (state (snd (_update_start_state p w))) (tap_stream_id p) k) /\
  (forall f, is_Some (cursor (state (snd (yield_pages_next p f w)))
                        (tap_stream_id p) k)) /\
  (forall fuel f,
     Forall (fun w' => is_Some (cursor (state w') (tap_stream_id p) k))
       (seen (consume fuel p f w))) /\
  (k <> "page" -> k <> "updated_at" -> k <> "journal_number" ->
   forall fuel f,
     Forall (fun w' => cursor (state w') (tap_stream_id p) k = Some v)
       (seen (consume fuel p f w))).
Proof.
  intros Hc. assert (Hk : is_Some (cursor (state w) (tap_stream_id p) k)) by eauto.
  split; [|split; [|split; [|split]]].
  - intros key v'. apply (bookmark_setitem_keeps_cursors p key v' w k Hk).
  - apply (update_start_state_keeps_cursors p w k Hk).
  - intros f. apply (yield_pages_next_keeps_cursors p f w k Hk).
  - intros fuel f.
    pose proof (consume_preserves (keeps_cursors (tap_stream_id p)) p
                  (yield_pages_next_keeps_cursors p) fuel f w) as H.
    eapply Forall_impl; [exact H|]. intros w' Hw'. apply Hw', Hk.
  - intros H1 H2 H3 fuel f.
    pose proof (consume_preserves
                  (touches (tap_stream_id p) ["page"; "updated_at"; "journal_number"])
                  p (yield_pages_next_touches p) fuel f w) as H.
    eapply Forall_impl; [exact H|]. intros w' (_ & Hw'). simpl.
    rewrite Hw'; [exact Hc|].
    rewrite list_elem_of_In. simpl. intuition congruence.
Qed.

End Retention.

(** ** The properties on concrete runs *)

(** [_update_start_state] on an empty pipeline state. *)
Lemma update_start_state_seeds_witness :
  let p := Run.puller PaginatedPull [] in
  let w := Run.world ∅ in
  mapping_ok (state w) /\
  config p !! "start_date" = Some (VStr "2020-01-01T00:00:00.000000Z") /\
  fst (_update_start_state p w) = inr "2020-01-01T00:00:00.000000Z" /\
  cursor (state (snd (_update_start_state p w))) "invoices" "updated_at"
    = Some (VStr "2020-01-01T00:00:00.000000Z").
Proof.
  intros p w.
  assert (Hok : mapping_ok (state w)) by exact I.
  assert (Hsd : config p !! "start_date"
                = Some (VStr "2020-01-01T00:00:00.000000Z")) by reflexivity.
  destruct (update_start_state_seeds p w _ Hok Hsd) as (w' & E & Hc & _).
  split; [exact Hok|]. split; [exact Hsd|].
  rewrite E. simpl. split; [reflexivity | exact Hc].
Defined.

(** C8, as stated, fails: an [updated_at] cursor that is there but falsy
    (the empty text, or [None]) is replaced by the start date; and the call
    raises [TypeError] on a state whose ["bookmarks"] is [None] and on a
    cursor that is a number. *)
Lemma update_start_state_overwrites_falsy_cursor :
  let p := Run.puller PaginatedPull [] in
  let w1 := Run.world (Run.bookmarked {[ "updated_at" := VStr "" ]}) in
  let w2 := Run.world (Run.bookmarked {[ "updated_at" := VNone ]}) in
  let w3 := Run.world {[ "bookmarks" := TVal VNone ]} in
  let w4 := Run.world (Run.bookmarked {[ "updated_at" := VInt 20200101 ]}) in
  cursor (state w1) "invoices" "updated_at" = Some (VStr "") /\
  cursor (state (snd (_update_start_state p w1))) "invoices" "updated_at"
    = Some (VStr "2020-01-01T00:00:00.000000Z") /\
  cursor (state w2) "invoices" "updated_at" = Some VNone /\
  cursor (state (snd (_update_start_state p w2))) "invoices" "updated_at"
    = Some (VStr "2020-01-01T00:00:00.000000Z") /\
  fst (_update_start_state p w3) = inl TypeError /\
  fst (_update_start_state p w4) = inl TypeError.
Proof. intros p w1 w2 w3 w4. repeat split; vm_compute; reflexivity. Qed.

(** [_make_request] on a backend that answers 401 and would then answer a
    page. *)
Lemma unauthorized_returns_none_without_retry_witness :
  let p := Run.puller PaginatedPull Run.unauthorized_then_page in
  xero p 0%nat (the_call p ∅) = HttpErr 401 /\
  xero p 1%nat (the_call p ∅) = Ok Run.page_a /\
  fst (_make_request p ∅ (Run.world ∅)) = inr None /\
  refreshes (snd (_make_request p ∅ (Run.world ∅))) = 1%nat /\
  length (requests (snd (_make_request p ∅ (Run.world ∅)))) = 1%nat.
Proof.
  intros p.
  assert (H : xero p (length (requests (Run.world ∅))) (the_call p ∅) = HttpErr 401)
    by reflexivity.
  split; [reflexivity|]. split; [reflexivity|].
  rewrite (unauthorized_returns_none_without_retry p ∅ (Run.world ∅) H).
  repeat split; reflexivity.
Defined.

(** [_make_request] on three rate-limit answers before a page, and on a
    backend that is rate limited for ever. *)
Lemma rate_limit_is_retried_with_backoff_witness :
  let p := Run.puller PaginatedPull Run.limited_thrice in
  let q := {| class := PaginatedPull; config := Run.cfg;
              tap_stream_id := "invoices"; xero := Run.always_limited |} in
  rate_limited p ∅ (Run.world ∅) 3 /\
  xero p 3%nat (the_call p ∅) = Ok Run.page_a /\
  rate_limited q ∅ (Run.world ∅) 10 /\
  fst (_make_request p ∅ (Run.world ∅)) = inr (Some Run.page_a) /\
  sleeps (snd (_make_request p ∅ (Run.world ∅))) = [8; 4; 2] /\
  length (requests (snd (_make_request p ∅ (Run.world ∅)))) = 4%nat /\
  fst (_make_request q ∅ (Run.world ∅)) = inl RateLimitException /\
  sleeps (snd (_make_request q ∅ (Run.world ∅)))
    = [512; 256; 128; 64; 32; 16; 8; 4; 2] /\
  length (requests (snd (_make_request q ∅ (Run.world ∅)))) = 10%nat.
Proof.
  intros p q.
  assert (Hp : rate_limited p ∅ (Run.world ∅) 3).
  { intros i Hi. destruct i as [|[|[|i]]]; try reflexivity. lia. }
  assert (Hq : rate_limited q ∅ (Run.world ∅) 10) by (intros i Hi; reflexivity).
  assert (Ha : xero p (length (requests (Run.world ∅)) + 3)%nat (the_call p ∅)
               = Ok Run.page_a) by reflexivity.
  destruct (rate_limit_is_retried_with_backoff p ∅ (Run.world ∅)) as (_ & Hthen & _).
  destruct (rate_limit_is_retried_with_backoff q ∅ (Run.world ∅)) as (_ & _ & Hall).
  destruct (Hthen 3%nat Run.page_a ltac:(lia) Hp Ha) as (w1 & E1 & R1 & S1).
  destruct (Hall Hq) as (w2 & E2 & R2 & S2).
  split; [exact Hp|]. split; [reflexivity|]. split; [exact Hq|].
  rewrite E1, E2. simpl. rewrite R1, S1, R2, S2.
  repeat split; reflexivity.
Defined.

(** A [PaginatedPull] run that resumes on page 3, and its last step. *)
Lemma paginated_pull_resumes_and_advances_witness :
  let p := Run.puller PaginatedPull Run.one_page in
  let w := Run.world (Run.bookmarked {[ "page" := VInt 3 ]}) in
  let g := _paginate (Passed ∅) (VInt 4) "page" next_by_increment in
  let w1 := log_request (the_call p ∅) w in
  class p = PaginatedPull /\
  paginated_frame Created /\
  cursor (state w) "invoices" "page" = Some (VInt 3) /\
  (exists n,
     requests (snd (yield_pages_next p Created w))
       = repeat (the_call p (<["page" := VInt 3]> (paginated_options p Run.start)))
           (S n) ++ requests w) /\
  (exists f' w',
     yield_pages_next p Created w = (inr (Some (Some Run.page_a, f')), w') /\
     exists page n,
       Some Run.page_a = Some page /\ page <> [] /\
       answer p w' = Some (Ok page) /\
       (exists c earlier, requests w' = c :: earlier /\
                          call_options c !! "page" = Some (VInt n)) /\
       advanced p w' page (VInt (n + 1)) /\
       paginated_frame f' /\
       exists start g', f' = PaginatedLoop start g' /\
                        curr_page_num g' = VInt (n + 1)) /\
  (exists w',
     yield_pages_next p (PaginatedLoop Run.start g) w1 = (inr None, w') /\
     requests w' = the_call p (sent_options g w1) :: requests w1 /\
     cursor (state w') "invoices" "page" = Some VNone).
Proof.
  intros p w g w1.
  destruct (paginated_pull_resumes_and_advances p Created w eq_refl I)
    as (Hfirst & Hthree & _ & Hyield & _).
  assert (Hg : paginated_frame (PaginatedLoop Run.start g))
    by (simpl; eauto).
  destruct (paginated_pull_resumes_and_advances p (PaginatedLoop Run.start g)
              w1 eq_refl Hg) as (_ & _ & _ & _ & _ & Hempty).
  assert (Hpage : cursor (state w) "invoices" "page" = Some (VInt 3))
    by (vm_compute; reflexivity).
  assert (Hstart : _update_start_state p w
                   = (inr Run.start, snd (_update_start_state p w)))
    by (vm_compute; reflexivity).
  split; [reflexivity|]. split; [exact I|]. split; [exact Hpage|].
  split; [|split].
  - destruct (Hfirst _ _ eq_refl Hstart) as (n & Hn).
    exists n. rewrite Hn, (Hthree Hpage). reflexivity.
  - destruct (yields_shape (yield_pages_next p Created w) (Some Run.page_a))
      as (f' & w' & E); [vm_compute; reflexivity|].
    exists f', w'. split; [exact E | exact (Hyield _ f' w' E)].
  - apply (Hempty Run.start g eq_refl).
    + simpl. lia.
    + exact I.
    + vm_compute. reflexivity.
Defined.

(** A [JournalPull] step from the cursor 41 on a page that ends with the
    journal number 57. *)
Lemma journal_pull_tracks_last_journal_number_witness :
  let p := Run.puller JournalPull Run.one_page in
  let w := Run.world (Run.bookmarked {[ "journal_number" := VInt 41 ]}) in
  class p = JournalPull /\
  journal_frame Created /\
  cursor (state w) "invoices" "journal_number" = Some (VInt 41) /\
  last Run.page_a = Some (Run.stamped "2020-01-02T09:30:00.000000Z" 57) /\
  cursor (state (snd (yield_pages_next p Created w))) "invoices" "journal_number"
    = Some (VInt 57) /\
  cursor (state (snd (yield_pages_next p Created w))) "invoices" "updated_at"
    = None /\
  (exists f' w',
     yield_pages_next p Created w = (inr (Some (Some Run.page_a, f')), w') /\
     exists page r v,
       Some Run.page_a = Some page /\ answer p w' = Some (Ok page) /\
       last page = Some r /\ r !! "JournalNumber" = Some v /\
       cursor (state w') (tap_stream_id p) "journal_number" = Some v /\
       journal_frame f' /\
       exists g', f' = JournalLoop g' /\ curr_page_num g' = v).
Proof.
  intros p w.
  destruct (journal_pull_tracks_last_journal_number p Created w eq_refl I)
    as (Hyield & _).
  split; [reflexivity|]. split; [exact I|].
  split; [vm_compute; reflexivity|]. split; [vm_compute; reflexivity|].
  split; [vm_compute; reflexivity|]. split; [vm_compute; reflexivity|].
  destruct (yields_shape (yield_pages_next p Created w) (Some Run.page_a))
    as (f' & w' & E); [vm_compute; reflexivity|].
  exists f', w'. split; [exact E | exact (Hyield _ f' w' E)].
Defined.

(** A [LinkedTransactionsPull] step on a page with one record before the
    start cursor and one after it, next to the [PaginatedPull] step. *)
Lemma linked_pull_filters_after_advancing_witness :
  let p := Run.puller LinkedTransactionsPull Run.one_page in
  let p2 := Run.puller PaginatedPull Run.one_page in
  let w := Run.world ∅ in
  let kept := [Run.stamped "2020-01-02T09:30:00.000000Z" 57] in
  class p = LinkedTransactionsPull /\
  linked_frame Created /\
  List.filter (not_older (strftime Run.start)) Run.page_a = kept /\
  cursor (state (snd (yield_pages_next p Created w))) "invoices" "page"
    = Some (VInt 2) /\
  cursor (state (snd (yield_pages_next p Created w))) "invoices" "updated_at"
    = Some (VStr "2020-01-02T09:30:00.000000Z") /\
  (exists f' w',
     yield_pages_next p Created w = (inr (Some (Some kept, f')), w') /\
     exists page n start g',
       answer p w' = Some (Ok page) /\ page <> [] /\
       Some kept = Some (List.filter (not_older (strftime start)) page) /\
       (exists c earlier, requests w' = c :: earlier /\
                          call_options c !! "page" = Some (VInt n)) /\
       advanced p w' page (VInt (n + 1)) /\
       f' = LinkedLoop start g' /\ curr_page_num g' = VInt (n + 1) /\
       linked_frame f' /\
       (Created = Created ->
        exists w1, _update_start_state p w = (inr start, w1)) /\
       (forall s g, Created = LinkedLoop s g -> start = s)) /\
  class p2 = PaginatedPull /\
  (forall n c1 c2, xero p n c1 = xero p2 n c2) /\
  in_step Created Created /\
  alike w w /\
  state (snd (yield_pages_next p Created w))
    = state (snd (yield_pages_next p2 Created w)) /\
  filtered_step (fst (yield_pages_next p Created w))
    (fst (yield_pages_next p2 Created w)).
Proof.
  intros p p2 w kept.
  destruct (linked_pull_filters_after_advancing p Created w eq_refl I)
    as (_ & Hyield & _ & Hnext).
  assert (Hx : forall n c1 c2, xero p n c1 = xero p2 n c2)
    by (intros n c1 c2; reflexivity).
  assert (Hw : alike w w) by (split; reflexivity).
  destruct (Hnext p2 Created w eq_refl eq_refl eq_refl Hx I Hw)
    as ((Hstate & _) & Hfiltered).
  split; [reflexivity|]. split; [exact I|].
  split; [vm_compute; reflexivity|]. split; [vm_compute; reflexivity|].
  split; [vm_compute; reflexivity|]. split.
  { destruct (yields_shape (yield_pages_next p Created w) (Some kept))
      as (f' & w' & E); [vm_compute; reflexivity|].
    exists f', w'. split; [exact E | exact (Hyield _ f' w' E)]. }
  split; [reflexivity|]. split; [exact Hx|]. split; [exact I|].
  split; [exact Hw|]. split; [exact Hstate | exact Hfiltered].
Defined.

(** A [JournalPull] run followed, in the same process, by the first step
    of a [LinkedTransactionsPull] run, and that step alone. *)
Lemma default_options_are_shared_witness :
  let journals := Run.puller JournalPull Run.one_page in
  let linked := Run.puller LinkedTransactionsPull Run.second_run in
  let w0 := Run.world ∅ in
  let w1 := snd (consume 5 journals (yield_pages journals) w0) in
  mapping_ok (state w0) /\
  default_options w0 = ∅ /\
  default_options (snd (yield_pages_next journals Created w0))
    = {[ "offset" := VInt 0 ]} /\
  default_options w1 !! "offset" = Some (VInt 57) /\
  (exists n o,
     requests (snd (yield_pages_next linked Created w1))
       = repeat (the_call linked o) (S n) ++ requests w1 /\
     o !! "page" = Some (VInt 1) /\ o !! "offset" = Some (VInt 57)) /\
  (exists n o,
     requests (snd (yield_pages_next linked Created w0))
       = repeat (the_call linked o) (S n) ++ requests w0 /\
     o !! "page" = Some (VInt 1) /\ o !! "offset" = None).
Proof.
  intros journals linked w0 w1.
  destruct (default_options_are_shared journals w0) as (_ & _ & Hfirst & _).
  destruct (default_options_are_shared linked w1) as (_ & _ & _ & Hlater).
  destruct (default_options_are_shared linked w0) as (_ & _ & _ & Halone).
  assert (Hs1 : _update_start_state linked w1
                = (inr Run.start, snd (_update_start_state linked w1)))
    by (vm_compute; reflexivity).
  assert (Hs0 : _update_start_state linked w0
                = (inr Run.start, snd (_update_start_state linked w0)))
    by (vm_compute; reflexivity).
  assert (Hp1 : py_or (cursor_get linked w1 "page") (VInt 1) = VInt 1)
    by (vm_compute; reflexivity).
  assert (Hp0 : py_or (cursor_get linked w0 "page") (VInt 1) = VInt 1)
    by (vm_compute; reflexivity).
  assert (Ho1 : default_options w1 !! "offset" = Some (VInt 57))
    by (vm_compute; reflexivity).
  assert (Ho0 : default_options w0 !! "offset" = None)
    by (vm_compute; reflexivity).
  split; [exact I|]. split; [reflexivity|].
  split; [rewrite (Hfirst eq_refl I); vm_compute; reflexivity|].
  split; [exact Ho1|]. split.
  - destruct (Hlater _ _ eq_refl Hs1) as (n & o & Hreq & Hpage & Hoff).
    exists n, o. split; [exact Hreq|]. split; congruence.
  - destruct (Halone _ _ eq_refl Hs0) as (n & o & Hreq & Hpage & Hoff).
    exists n, o. split; [exact Hreq|]. split; congruence.
Defined.

(** A [PaginatedPull] run of two pages whose stamps ascend. *)
Lemma updated_at_follows_last_record_witness :
  let p := Run.puller PaginatedPull Run.two_pages in
  let trace := fst (fst (consume 5 p (yield_pages p) (Run.world ∅))) in
  tracking_frame p (yield_pages p) /\
  map fst trace = [Some Run.page_a; Some Run.page_b] /\
  StronglySorted Run.text_le (fetched_stamps p trace) /\
  written p trace = [VStr "2020-01-02T09:30:00.000000Z";
                     VStr "2020-01-03T10:00:00.000000Z"] /\
  Forall (follows_last_record p) trace /\
  Forall (yields_fetched p) trace /\
  StronglySorted Run.text_le (written p trace).
Proof.
  intros p trace.
  assert (Hf : tracking_frame p (yield_pages p)) by exact I.
  destruct (updated_at_follows_last_record p 5 (yield_pages p) (Run.world ∅) Hf)
    as (Hlast & Hbatch & _ & Hsorted).
  assert (Hstamps : fetched_stamps p trace
                    = [VStr "2019-12-31T08:00:00.000000Z";
                       VStr "2020-01-02T09:30:00.000000Z";
                       VStr "2020-01-03T10:00:00.000000Z"])
    by (vm_compute; reflexivity).
  assert (Hasc : StronglySorted Run.text_le (fetched_stamps p trace)).
  { rewrite Hstamps. repeat constructor. }
  split; [exact Hf|]. split; [vm_compute; reflexivity|].
  split; [exact Hasc|]. split; [vm_compute; reflexivity|].
  split; [exact Hlast|]. split; [exact Hbatch|].
  exact (Hsorted Run.text_le Hasc).
Defined.

(** C2, as stated, fails for [JournalPull]: its run yields a page and
    leaves no [updated_at] cursor, though the last record of the page has
    the bookmark property. *)
Lemma journal_run_leaves_updated_at_unset :
  let p := Run.puller JournalPull Run.one_page in
  let run := consume 5 p (yield_pages p) (Run.world ∅) in
  map fst (fst (fst run)) = [Some Run.page_a] /\
  snd (fst run) = Exhausted /\
  match last Run.page_a with
  | Some r => r !! bookmark_property p
  | None => None
  end = Some (VStr "2020-01-02T09:30:00.000000Z") /\
  map (fun bw => cursor (state (snd bw)) "invoices" "updated_at") (fst (fst run))
    = [None] /\
  cursor (state (snd run)) "invoices" "updated_at" = None.
Proof. intros p run. repeat split; vm_compute; reflexivity. Qed.

(** A [JournalPull] run on a backend whose pages never run out. *)
Lemma pagination_is_bounded_witness :
  let p := {| class := JournalPull; config := Run.cfg;
              tap_stream_id := "journals"; xero := Run.endless |} in
  let w := Run.world ∅ in
  class p = JournalPull /\
  mapping_ok (state w) /\
  (forall n c, xero p n c = Ok Run.page_b) /\
  last Run.page_b = Some (Run.stamped "2020-01-03T10:00:00.000000Z" 60) /\
  Run.stamped "2020-01-03T10:00:00.000000Z" 60 !! "JournalNumber"
    = Some (VInt 60) /\
  exists fuel trace w',
    consume fuel p (yield_pages p) w = (trace, Failed PagesException, w') /\
    Z.of_nat (length trace) = 1000001.
Proof.
  intros p w.
  assert (Hclass : class p = JournalPull) by reflexivity.
  assert (Hok : mapping_ok (state w)) by exact I.
  assert (Hpage : forall n c, xero p n c = Ok Run.page_b)
    by (intros n c; reflexivity).
  assert (Hlast : last Run.page_b
                  = Some (Run.stamped "2020-01-03T10:00:00.000000Z" 60))
    by reflexivity.
  assert (Hnum : Run.stamped "2020-01-03T10:00:00.000000Z" 60 !! "JournalNumber"
                 = Some (VInt 60)) by (vm_compute; reflexivity).
  split; [exact Hclass|]. split; [exact Hok|]. split; [exact Hpage|].
  split; [exact Hlast|]. split; [exact Hnum|].
  destruct (pagination_is_bounded p w) as (_ & Hrun).
  exact (Hrun Run.page_b _ (VInt 60) Hclass Hok Hpage Hlast Hnum).
Defined.

(** ** The further properties on concrete runs *)

(** [_make_request] on a server error. *)
Lemma other_http_errors_propagate_witness :
  let p := Run.puller PaginatedPull Run.server_error in
  let w := Run.world ∅ in
  xero p 0%nat (the_call p ∅) = HttpErr 500 /\
  _make_request p ∅ w = (inl (HTTPError 500), log_request (the_call p ∅) w) /\
  requests (log_request (the_call p ∅) w) = [the_call p ∅] /\
  sleeps (log_request (the_call p ∅) w) = [] /\
  refreshes (log_request (the_call p ∅) w) = 0%nat.
Proof.
  intros p w.
  assert (H : xero p (length (requests w)) (the_call p ∅) = HttpErr 500)
    by reflexivity.
  split; [reflexivity|].
  split; [apply (other_http_errors_propagate p ∅ w 500 H); lia|].
  repeat split; reflexivity.
Defined.

(** A cursor written into an empty pipeline state and read back. *)
Lemma bookmark_write_then_read_witness :
  let p := Run.puller PaginatedPull [] in
  let w := Run.world ∅ in
  mapping_ok (state w) /\
  exists w1,
    bookmark_setitem p "page" (VInt 7) w = (inr tt, w1) /\
    bookmark_get p "page" w1 = (inr (VInt 7), w1) /\
    bookmark_getitem p "page" w1 = (inr (VInt 7), w1) /\
    bookmark_get p "updated_at" w1 = (inr VNone, w1) /\
    bookmark_setitem p "page" (VInt 7) w1 = (inr tt, w1).
Proof.
  intros p w.
  assert (Hok : mapping_ok (state w)) by exact I.
  split; [exact Hok|].
  destruct (bookmark_write_then_read p "page" (VInt 7) w Hok)
    as (w1 & Hset & Hget & Hitem & Hothers & Hagain).
  exists w1. split; [exact Hset|]. split; [exact Hget|]. split; [exact Hitem|].
  split; [|exact Hagain].
  apply (Hothers "updated_at"). discriminate.
Defined.

(** [_update_start_state] twice on an empty pipeline state. *)
Lemma update_start_state_twice_witness :
  let p := Run.puller PaginatedPull [] in
  let w := Run.world ∅ in
  let w' := snd (_update_start_state p w) in
  _update_start_state p w = (inr Run.start, w') /\
  _update_start_state p w' = (inr Run.start, w').
Proof.
  intros p w w'.
  assert (H : _update_start_state p w = (inr Run.start, w'))
    by (vm_compute; reflexivity).
  split; [exact H|].
  exact (update_start_state_twice p w Run.start w' H).
Defined.

(** A [JournalPull] run on a state whose ["bookmarks"] is [None]. *)
Lemma non_mapping_bookmarks_raise_witness :
  let p := Run.puller JournalPull Run.one_page in
  let w := Run.world {[ "bookmarks" := TVal VNone ]} in
  ~ mapping_ok (state w) /\
  class p <> EverythingPull /\
  yield_pages_next p Created w = (inl TypeError, w) /\
  requests w = [].
Proof.
  intros p w.
  assert (Hbad : ~ mapping_ok (state w)) by (intros H; vm_compute in H; exact H).
  assert (Hclass : class p <> EverythingPull) by discriminate.
  split; [exact Hbad|]. split; [exact Hclass|].
  split; [exact (non_mapping_bookmarks_raise p w Hbad Hclass) | reflexivity].
Defined.

(** A [PaginatedPull] run without a start date and without a cursor. *)
Lemma missing_start_date_raises_witness :
  let p := Run.unconfigured PaginatedPull in
  let w := Run.world ∅ in
  mapping_ok (state w) /\
  truthy (cursor_get p w "updated_at") = false /\
  config p !! "start_date" = None /\
  exists w1,
    yield_pages_next p Created w = (inl (KeyError "start_date"), w1) /\
    requests w1 = [] /\
    stream_entry (state w1) (tap_stream_id p) = Some ∅.
Proof.
  intros p w.
  assert (Hok : mapping_ok (state w)) by exact I.
  assert (Hfalsy : truthy (cursor_get p w "updated_at") = false)
    by (vm_compute; reflexivity).
  assert (Hcfg : config p !! "start_date" = None) by (vm_compute; reflexivity).
  split; [exact Hok|]. split; [exact Hfalsy|]. split; [exact Hcfg|].
  destruct (missing_start_date_raises p w Hok Hfalsy Hcfg)
    as (w1 & _ & Hnext & (_ & Hreq & _) & Hentry & _).
  exists w1. split; [apply Hnext; discriminate|].
  split; [rewrite Hreq; reflexivity|].
  rewrite Hentry. reflexivity.
Defined.

(** An [IncrementingPull] run on a page, then nothing. *)
Lemma incrementing_pull_single_request_witness :
  let p := Run.puller IncrementingPull Run.one_page in
  let w := Run.world ∅ in
  (class p = IncrementingPull \/ class p = BankTransfersPull) /\
  fst (_update_start_state p w) = inr Run.start /\
  (exists k, (k <= 9)%nat /\
     requests (snd (yield_pages_next p Created w))
       = repeat (the_call p {[ "since" := VDate Run.start ]}) (S k) ++ requests w) /\
  map fst (fst (fst (consume 5 p (yield_pages p) w))) = [Some Run.page_a] /\
  (length (fst (fst (consume 5 p (yield_pages p) w))) <= 1)%nat /\
  (forall f, snd (fst (consume 5 p (yield_pages p) w)) <> Pending f).
Proof.
  intros p w.
  assert (Hclass : class p = IncrementingPull \/ class p = BankTransfersPull)
    by (left; reflexivity).
  assert (Hstart : _update_start_state p w
                   = (inr Run.start, snd (_update_start_state p w)))
    by (vm_compute; reflexivity).
  destruct (incrementing_pull_single_request p w Run.start _ Hclass Hstart)
    as (Hreq & _ & _ & Hrun).
  split; [exact Hclass|]. split; [vm_compute; reflexivity|].
  split; [exact Hreq|]. split; [vm_compute; reflexivity|].
  destruct (Hrun 5%nat) as (Hlen & Hend).
  split; [exact Hlen|]. apply Hend. lia.
Defined.

(** An [EverythingPull] run on a page, and one on a 401. *)
Lemma everything_pull_yields_once_witness :
  let p := Run.puller EverythingPull Run.one_page in
  let q := Run.puller EverythingPull Run.unauthorized_then_page in
  let w := Run.world (Run.bookmarked {[ "page" := VInt 3 ]}) in
  class p = EverythingPull /\
  xero p 0%nat (the_call p ∅) = Ok Run.page_a /\
  xero q 0%nat (the_call q ∅) = HttpErr 401 /\
  consume 2 p (yield_pages p) w
    = ([(Some Run.page_a, log_request (the_call p ∅) w)], Exhausted,
       log_request (the_call p ∅) w) /\
  consume 2 q (yield_pages q) w
    = ([(None, credentials_refresh (log_request (the_call q ∅) w))], Exhausted,
       credentials_refresh (log_request (the_call q ∅) w)) /\
  state (log_request (the_call p ∅) w) = state w.
Proof.
  intros p q w.
  destruct (everything_pull_yields_once p w eq_refl) as (_ & _ & Hpage & _).
  destruct (everything_pull_yields_once q w eq_refl) as (_ & _ & _ & Hnone).
  split; [reflexivity|]. split; [reflexivity|]. split; [reflexivity|].
  split; [apply Hpage; reflexivity|].
  split; [apply Hnone; reflexivity | reflexivity].
Defined.

(** A suspended [PaginatedPull] generator on a server error, and one on a
    backend that is rate limited for ever. *)
Lemma failed_fetch_leaves_bookmarks_witness :
  let p := Run.puller PaginatedPull Run.server_error in
  let q := {| class := PaginatedPull; config := Run.cfg;
              tap_stream_id := "invoices"; xero := Run.always_limited |} in
  let g := _paginate (Passed ∅) (VInt 4) "page" next_by_increment in
  let f := PaginatedLoop Run.start g in
  let w := Run.world (Run.bookmarked {[ "page" := VInt 4 ]}) in
  paginating f = Some g /\
  xero p 0%nat (the_call p (sent_options g w)) = HttpErr 500 /\
  rate_limited q (sent_options g w) w 10 /\
  (exists w',
     yield_pages_next p f w = (inl (HTTPError 500), w') /\
     state w' = state w /\
     requests w' = [the_call p (sent_options g w)]) /\
  (exists w',
     yield_pages_next q f w = (inl RateLimitException, w') /\
     state w' = state w /\
     length (requests w') = 10%nat).
Proof.
  intros p q g f w.
  assert (Hf : paginating f = Some g) by reflexivity.
  assert (Hn : num_pages_yielded g <= 1000000) by (cbn [num_pages_yielded g _paginate]; lia).
  assert (H500 : xero p (length (requests w)) (the_call p (sent_options g w))
                 = HttpErr 500) by reflexivity.
  assert (Hlim : rate_limited q (sent_options g w) w 10)
    by (intros i Hi; reflexivity).
  destruct (failed_fetch_leaves_bookmarks p f g w Hf) as (_ & _ & Herr & _).
  destruct (failed_fetch_leaves_bookmarks q f g w Hf) as (_ & _ & _ & Hall).
  split; [exact Hf|]. split; [reflexivity|]. split; [exact Hlim|]. split.
  - destruct (Herr 500 Hn H500 ltac:(lia) ltac:(lia)) as (w' & E & Hs & Hreq & _).
    exists w'. split; [exact E|]. split; [exact Hs | exact Hreq].
  - destruct (Hall Hn Hlim) as (w' & E & Hs & Hreq & _).
    exists w'. split; [exact E|]. split; [exact Hs|].
    rewrite Hreq. reflexivity.
Defined.

(** A suspended [PaginatedPull] generator on a 401. *)
Lemma unauthorized_ends_the_sweep_witness :
  let p := Run.puller PaginatedPull Run.unauthorized_then_page in
  let g := _paginate (Passed ∅) (VInt 4) "page" next_by_increment in
  let f := PaginatedLoop Run.start g in
  let w := Run.world (Run.bookmarked
                        (<["page" := VInt 4]>
                           {[ "updated_at" := VStr "2020-01-02T09:30:00.000000Z" ]})) in
  paginating f = Some g /\
  mapping_ok (state w) /\
  xero p 0%nat (the_call p (sent_options g w)) = HttpErr 401 /\
  exists w',
    yield_pages_next p f w = (inr None, w') /\
    requests w' = [the_call p (sent_options g w)] /\
    refreshes w' = 1%nat /\
    cursor (state w') "invoices" "page" = Some VNone /\
    cursor (state w') "invoices" "updated_at"
      = Some (VStr "2020-01-02T09:30:00.000000Z").
Proof.
  intros p g f w.
  assert (Hf : paginating f = Some g) by reflexivity.
  assert (Hn : num_pages_yielded g <= 1000000) by (cbn [num_pages_yielded g _paginate]; lia).
  assert (Hok : mapping_ok (state w)) by (vm_compute; exact I).
  assert (H401 : xero p (length (requests w)) (the_call p (sent_options g w))
                 = HttpErr 401) by reflexivity.
  split; [exact Hf|]. split; [exact Hok|]. split; [reflexivity|].
  destruct (unauthorized_ends_the_sweep p f g w Hf Hn Hok H401)
    as (w' & E & Hreq & Hrf & _ & Hkeep & Hpage).
  exists w'. split; [exact E|]. split; [exact Hreq|]. split; [exact Hrf|].
  split; [exact Hpage|].
  etransitivity; [exact (Hkeep "updated_at" ltac:(discriminate))|].
  vm_compute. reflexivity.
Defined.

(** A [PaginatedPull] step and a [JournalPull] step on a page whose last
    record has neither timestamp nor journal number. *)
Lemma missing_key_in_last_record_witness :
  let p := Run.puller PaginatedPull [Ok Run.page_bare] in
  let j := Run.puller JournalPull [Ok Run.page_bare] in
  let g := _paginate (Passed ∅) (VInt 4) "page" next_by_increment in
  let gj := _paginate Default (VInt 0) "offset" next_by_journal_number in
  let w := Run.world (Run.bookmarked {[ "page" := VInt 4 ]}) in
  mapping_ok (state w) /\
  last Run.page_bare = Some Run.bare /\
  Run.bare !! bookmark_property p = None /\
  Run.bare !! "JournalNumber" = None /\
  (exists w',
     yield_pages_next p (PaginatedLoop Run.start g) w
       = (inl (KeyError "UpdatedDateUTC"), w') /\
     cursor (state w') "invoices" "page" = Some (VInt 5) /\
     cursor (state w') "invoices" "updated_at" = None) /\
  (exists w',
     yield_pages_next j (JournalLoop gj) w = (inl (KeyError "JournalNumber"), w') /\
     state w' = state w).
Proof.
  intros p j g gj w.
  assert (Hok : mapping_ok (state w)) by (vm_compute; exact I).
  assert (Hl : last Run.page_bare = Some Run.bare) by reflexivity.
  assert (Hr : Run.bare !! bookmark_property p = None) by (vm_compute; reflexivity).
  assert (Hj : Run.bare !! "JournalNumber" = None) by (vm_compute; reflexivity).
  assert (Hn : num_pages_yielded g <= 1000000) by (cbn [num_pages_yielded g _paginate]; lia).
  assert (Hnj : num_pages_yielded gj <= 1000000) by (cbn [num_pages_yielded gj _paginate]; lia).
  destruct (missing_key_in_last_record p w Run.page_bare Run.bare Hok Hl)
    as (Hpag & _ & _).
  destruct (missing_key_in_last_record j w Run.page_bare Run.bare Hok Hl)
    as (_ & Hjou & _).
  split; [exact Hok|]. split; [exact Hl|]. split; [exact Hr|]. split; [exact Hj|].
  split.
  - destruct (Hpag (PaginatedLoop Run.start g) Run.start g (VInt 5))
      as (w' & E & Hpage & Hkeep & _);
      [left; reflexivity | exact Hn | reflexivity | reflexivity | exact Hr |].
    exists w'. split; [exact E|]. split; [exact Hpage|].
    etransitivity; [exact (Hkeep "updated_at" ltac:(discriminate))|].
  vm_compute. reflexivity.
  - destruct (Hjou gj eq_refl Hnj eq_refl Hj) as (w' & E & Hs & _).
    exists w'. split; [exact E | exact Hs].
Defined.


(** A [PaginatedPull] sweep interrupted after its first page: the request
    of the suspended generator and the request of a new run. *)
Lemma restart_asks_the_stored_page_since_the_last_record_witness :
  let p := Run.puller PaginatedPull Run.two_pages in
  let o := paginated_options p Run.start in
  let g := _paginate (Passed o) (VInt 1) "page" next_by_increment in
  let w := Run.world (Run.bookmarked
                        {[ "updated_at" := VStr "2020-01-01T00:00:00.000000Z" ]}) in
  let last_record := Run.stamped "2020-01-02T09:30:00.000000Z" 57 in
  last Run.page_a = Some last_record /\
  last_record !! bookmark_property p = Some (VStr "2020-01-02T09:30:00.000000Z") /\
  parse (normalize (VStr "2020-01-02T09:30:00.000000Z")) = inr Run.last_stamp_a /\
  exists f' w',
    yield_pages_next p (PaginatedLoop Run.start g) w
      = (inr (Some (Some Run.page_a, f')), w') /\
    (exists k, (k <= 9)%nat /\
       requests (snd (yield_pages_next p f' w'))
         = repeat (the_call p (<["page" := VInt 2]> o)) (S k) ++ requests w') /\
    (exists k, (k <= 9)%nat /\
       requests (snd (yield_pages_next p Created w'))
         = repeat (the_call p (<["page" := VInt 2]>
                                 (paginated_options p Run.last_stamp_a))) (S k)
           ++ requests w').
Proof.
  intros p o g w last_record.
  assert (Hl : last Run.page_a = Some last_record) by reflexivity.
  assert (Hr : last_record !! bookmark_property p
               = Some (VStr "2020-01-02T09:30:00.000000Z"))
    by (vm_compute; reflexivity).
  assert (Ht : truthy (normalize (VStr "2020-01-02T09:30:00.000000Z")) = true)
    by (vm_compute; reflexivity).
  assert (Hp : parse (normalize (VStr "2020-01-02T09:30:00.000000Z"))
               = inr Run.last_stamp_a) by (vm_compute; reflexivity).
  assert (Hn : num_pages_yielded g < 1000000)
    by (cbn [num_pages_yielded g _paginate]; lia).
  split; [exact Hl|]. split; [exact Hr|]. split; [exact Hp|].
  destruct (yields_shape (yield_pages_next p (PaginatedLoop Run.start g) w)
              (Some Run.page_a)) as (f' & w' & E); [vm_compute; reflexivity|].
  exists f', w'. split; [exact E|].
  exact (restart_asks_the_stored_page_since_the_last_record
           p Run.start g o w Run.page_a f' w' 1 last_record _ Run.last_stamp_a
           eq_refl eq_refl eq_refl eq_refl eq_refl ltac:(lia) Hn E Hl Hr Ht Hp).
Defined.

(** A [JournalPull] sweep interrupted after its first page. *)
Lemma journal_restart_continues_witness :
  let p := Run.puller JournalPull Run.two_pages in
  let g := _paginate Default (VInt 0) "offset" next_by_journal_number in
  let w := Run.world ∅ in
  let last_record := Run.stamped "2020-01-02T09:30:00.000000Z" 57 in
  journal_frame (JournalLoop g) /\
  last Run.page_a = Some last_record /\
  last_record !! "JournalNumber" = Some (VInt 57) /\
  exists f' w',
    yield_pages_next p (JournalLoop g) w = (inr (Some (Some Run.page_a, f')), w') /\
    handed (fst (yield_pages_next p Created w'))
      = handed (fst (yield_pages_next p f' w')) /\
    snd (yield_pages_next p Created w') = snd (yield_pages_next p f' w').
Proof.
  intros p g w last_record.
  assert (Hf : journal_frame (JournalLoop g)) by (simpl; auto).
  assert (Hl : last Run.page_a = Some last_record) by reflexivity.
  assert (Hr : last_record !! "JournalNumber" = Some (VInt 57))
    by (vm_compute; reflexivity).
  assert (Hn : num_pages_yielded g < 1000000)
    by (cbn [num_pages_yielded g _paginate]; lia).
  split; [exact Hf|]. split; [exact Hl|]. split; [exact Hr|].
  destruct (yields_shape (yield_pages_next p (JournalLoop g) w)
              (Some Run.page_a)) as (f' & w' & E); [vm_compute; reflexivity|].
  exists f', w'. split; [exact E|].
  exact (journal_restart_continues p g w Run.page_a f' w' last_record 57
           eq_refl Hf Hn E Hl Hr).
Defined.


(** Two [IncrementingPull] runs, one after the other. *)
Lemma incrementing_next_run_starts_at_the_last_record_witness :
  let p := Run.puller IncrementingPull Run.two_pages in
  let w := Run.world ∅ in
  let last_record := Run.stamped "2020-01-02T09:30:00.000000Z" 57 in
  (class p = IncrementingPull \/ class p = BankTransfersPull) /\
  last Run.page_a = Some last_record /\
  last_record !! bookmark_property p = Some (VStr "2020-01-02T09:30:00.000000Z") /\
  parse (normalize (VStr "2020-01-02T09:30:00.000000Z")) = inr Run.last_stamp_a /\
  exists f' w',
    yield_pages_next p Created w = (inr (Some (Some Run.page_a, f')), w') /\
    answer p w' = Some (Ok Run.page_a) /\
    _update_start_state p w' = (inr Run.last_stamp_a, w') /\
    exists k, (k <= 9)%nat /\
      requests (snd (yield_pages_next p Created w'))
        = repeat (the_call p {[ "since" := VDate Run.last_stamp_a ]}) (S k)
          ++ requests w'.
Proof.
  intros p w last_record.
  assert (Hclass : class p = IncrementingPull \/ class p = BankTransfersPull)
    by (left; reflexivity).
  assert (Hl : last Run.page_a = Some last_record) by reflexivity.
  assert (Hr : last_record !! bookmark_property p
               = Some (VStr "2020-01-02T09:30:00.000000Z"))
    by (vm_compute; reflexivity).
  assert (Ht : truthy (normalize (VStr "2020-01-02T09:30:00.000000Z")) = true)
    by (vm_compute; reflexivity).
  assert (Hp : parse (normalize (VStr "2020-01-02T09:30:00.000000Z"))
               = inr Run.last_stamp_a) by (vm_compute; reflexivity).
  split; [exact Hclass|]. split; [exact Hl|]. split; [exact Hr|].
  split; [exact Hp|].
  destruct (yields_shape (yield_pages_next p Created w) (Some Run.page_a))
    as (f' & w' & E); [vm_compute; reflexivity|].
  assert (Ha : answer p w' = Some (Ok Run.page_a)).
  { assert (Hw : w' = snd (yield_pages_next p Created w)) by (rewrite E; reflexivity).
    rewrite Hw. vm_compute. reflexivity. }
  exists f', w'. split; [exact E|]. split; [exact Ha|].
  destruct (incrementing_next_run_starts_at_the_last_record
              p w _ f' w' Run.page_a last_record _ Run.last_stamp_a
              Hclass E Ha Hl Hr Ht Hp) as (_ & Hstart & Hreq).
  split; [exact Hstart | exact Hreq].
Defined.

(** A [PaginatedPull] run over two pages: the pages asked for. *)
Lemma paginated_sweep_asks_consecutive_pages_witness :
  let p := Run.puller PaginatedPull Run.two_pages in
  let w := Run.world ∅ in
  let run := consume 5 p (yield_pages p) w in
  fst (_update_start_state p w) = inr Run.start /\
  py_or (cursor_get p w "page") (VInt 1) = VInt 1 /\
  map (fun c => call_options c !! "page") (requests (snd run))
    = [Some (VInt 3); Some (VInt 2); Some (VInt 1)] /\
  exists tries,
    requests (snd run)
      = sweep_log
          (fun i => the_call p (<["page" := VInt i]> (paginated_options p Run.start)))
          1 tries
        ++ requests w /\
    Forall (fun k => (k <= 9)%nat) tries /\
    (length (fst (fst run)) <= length tries <= S (length (fst (fst run))))%nat.
Proof.
  intros p w run.
  assert (Hstart : _update_start_state p w
                   = (inr Run.start, snd (_update_start_state p w)))
    by (vm_compute; reflexivity).
  assert (Hpage : py_or (cursor_get p w "page") (VInt 1) = VInt 1)
    by (vm_compute; reflexivity).
  split; [vm_compute; reflexivity|]. split; [exact Hpage|].
  split; [vm_compute; reflexivity|].
  exact (paginated_sweep_asks_consecutive_pages p w Run.start _ 1 5%nat
           eq_refl Hstart Hpage).
Defined.

(** A [PaginatedPull] run on an entry with a cursor of its own and one that
    the engine does not know. *)
Lemma cursors_are_never_removed_witness :
  let p := Run.puller PaginatedPull Run.one_page in
  let w := Run.world (Run.bookmarked
                        (<["page" := VInt 3]> {[ "note" := VStr "kept" ]})) in
  let run := consume 5 p (yield_pages p) w in
  cursor (state w) (tap_stream_id p) "page" = Some (VInt 3) /\
  cursor (state w) (tap_stream_id p) "note" = Some (VStr "kept") /\
  cursor (state (snd run)) (tap_stream_id p) "page" = Some VNone /\
  Forall (fun w' => is_Some (cursor (state w') (tap_stream_id p) "page"))
    (seen run) /\
  Forall (fun w' => cursor (state w') (tap_stream_id p) "note" = Some (VStr "kept"))
    (seen run).
Proof.
  intros p w run.
  assert (Hpage : cursor (state w) (tap_stream_id p) "page" = Some (VInt 3))
    by (vm_compute; reflexivity).
  assert (Hnote : cursor (state w) (tap_stream_id p) "note" = Some (VStr "kept"))
    by (vm_compute; reflexivity).
  destruct (cursors_are_never_removed p w "page" (VInt 3) Hpage)
    as (_ & _ & _ & Hstays & _).
  destruct (cursors_are_never_removed p w "note" (VStr "kept") Hnote)
    as (_ & _ & _ & _ & Hsame).
  split; [exact Hpage|]. split; [exact Hnote|].
  split; [vm_compute; reflexivity|].
  split; [exact (Hstays 5%nat (yield_pages p))|].
  apply Hsame; discriminate.
Defined.
